(** * Legislative bill browser: document index, retrieval and tool-call loop

    A shallow embedding of the server-side core of the bill browser
    (textUtils, documentParser, llmService, queryProcessor) and the
    properties its specification states about it.

    Conventions of the embedding.
    - Text is ASCII: a JavaScript string is a [string]; the classes [\s],
      [\w], [\d] are their ASCII members and [toLowerCase] acts on [A-Z].
    - A JavaScript value that reaches the code from JSON (a request body,
      the arguments of a tool call, the markup tree) is a [value]:
      [undefined] or a [json]; numbers are integers.
    - A plain object used as a map is an [obj]: its own properties in
      insertion order.  Where the code reads or writes such an object under
      a key that comes from the data (a keyword, a section id), the members
      that it inherits from [Object.prototype] are part of the model: a read
      finds them, and a write under [__proto__] replaces the prototype and
      makes no property.
    - A [try]/[catch] is a match on a [result]; effects of the conversation
      loop (requests to the model, tool executions) are logged in a trace.
    - What the code receives from outside is a parameter: the reply of the
      model to a request ([post]), the primitive [JSON.parse], and the
      failures that the [try] around the section extraction may catch
      ([extraction_throws]).

    The file has the embedding first (one module per source file), then a
    small bill and a scripted model, the vocabulary of the statements, and
    the properties with their proofs. *)

From Stdlib Require Import List String Ascii ZArith QArith Bool Arith Lia.
From Stdlib Require Import Permutation Sorted DecimalString.
Import ListNotations.

Local Open Scope string_scope.
Local Open Scope list_scope.
Local Open Scope nat_scope.

(* ================================================================= *)
(** * JavaScript data and primitives *)

Module Js.

Inductive error : Type :=
| TypeError (message : string)
| Error (message : string).

Definition message (e : error) : string :=
  match e with TypeError m => m | Error m => m end.

Inductive result (A : Type) : Type :=
| Return (a : A)
| Throw (e : error).
Arguments Return {A} a.
Arguments Throw {A} e.

Definition bind {A B} (r : result A) (k : A -> result B) : result B :=
  match r with Return a => k a | Throw e => Throw e end.

Unset Elimination Schemes.
Inductive json : Type :=
| JNull
| JBool (b : bool)
| JNum (n : Z)
| JStr (s : string)
| JArr (items : list json)
| JObj (props : list (string * json)).
Set Elimination Schemes.

(** [None] is [undefined]. *)
Definition value := option json.

Definition truthy (v : value) : bool :=
  match v with
  | None | Some JNull | Some (JBool false) => false
  | Some (JNum n) => negb (n =? 0)%Z
  | Some (JStr s) => negb (String.eqb s "")
  | Some _ => true
  end.

(** ** Characters *)

Definition code (c : ascii) : nat := nat_of_ascii c.

Definition between (lo hi : nat) (c : ascii) : bool :=
  (lo <=? code c) && (code c <=? hi).

(** [\s]: tab, line feed, vertical tab, form feed, carriage return, space. *)
Definition is_space (c : ascii) : bool := between 9 13 c || (code c =? 32).

Definition is_digit (c : ascii) : bool := between 48 57 c.

(** [\w]: letters, digits and the underscore. *)
Definition is_word (c : ascii) : bool :=
  between 97 122 c || between 65 90 c || is_digit c || (code c =? 95).

Definition lower (c : ascii) : ascii :=
  if between 65 90 c then ascii_of_nat (code c + 32) else c.

(** ** Strings, as lists of characters where the code scans them *)

Definition chars := list_ascii_of_string.
Definition str := string_of_list_ascii.

Definition toLowerCase (s : string) : string := str (map lower (chars s)).

Fixpoint drop_spaces (l : list ascii) : list ascii :=
  match l with
  | c :: r => if is_space c then drop_spaces r else l
  | [] => []
  end.

Definition trim_chars (l : list ascii) : list ascii :=
  rev (drop_spaces (rev (drop_spaces l))).

Definition trim (s : string) : string := str (trim_chars (chars s)).

(** [s.replace(/\s+/g, ' ')]; [in_run] tells that the previous character was
    white space and has been replaced already. *)
Fixpoint collapse_spaces (in_run : bool) (l : list ascii) : list ascii :=
  match l with
  | [] => []
  | c :: r =>
      if is_space c
      then if in_run then collapse_spaces true r
           else " "%char :: collapse_spaces true r
      else c :: collapse_spaces false r
  end.

(** [s.split(/\W+/)]: the pieces between maximal runs of non-word characters,
    empty pieces at both ends included. *)
Fixpoint split_nonword (l : list ascii) : list (list ascii) :=
  match l with
  | [] => [[]]
  | c :: r =>
      if is_word c
      then match split_nonword r with
           | t :: ts => (c :: t) :: ts
           | [] => [[c]]
           end
      else match r with
           | c' :: _ => if is_word c' then [] :: split_nonword r
                        else split_nonword r
           | [] => [] :: split_nonword r
           end
  end.

(** [s.split(sep)] for a one-character separator. *)
Fixpoint split_on (sep : ascii) (l : list ascii) : list (list ascii) :=
  match l with
  | [] => [[]]
  | c :: r =>
      if Ascii.eqb c sep then [] :: split_on sep r
      else match split_on sep r with
           | t :: ts => (c :: t) :: ts
           | [] => [[c]]
           end
  end.

Definition join (sep : string) (l : list string) : string :=
  match l with
  | [] => ""
  | x :: r => fold_left (fun acc y => acc ++ sep ++ y)%string r x
  end.

(** The double quote, and a text in which each apostrophe stands for one. *)
Definition quote : string := String "034"%char EmptyString.

Definition quoted (s : string) : string :=
  str (map (fun c => if Ascii.eqb c "'"%char then "034"%char else c) (chars s)).

Definition substring0 (n : nat) (s : string) : string := str (firstn n (chars s)).

(** [arr.slice(0, n)] for an integer [n]: a negative [n] counts from the
    end of the array. *)
Definition slice0 {A} (n : Z) (l : list A) : list A :=
  if (n <? 0)%Z then firstn (List.length l - Z.to_nat (- n)) l
  else firstn (Z.to_nat n) l.

Definition includes (x : string) (l : list string) : bool :=
  existsb (String.eqb x) l.

(** ** [Set] of strings: its members in insertion order *)

Definition Set_add (s : list string) (x : string) : list string :=
  if includes x s then s else s ++ [x].

Definition Set_from (l : list string) : list string := fold_left Set_add l [].

Definition Set_size (s : list string) : nat := List.length s.

(** ** [Array.prototype.sort] with a comparator

    The sort is stable, so for a consistent comparator the result is the
    only arrangement that is ordered and keeps equal elements in their
    original order; insertion from the right computes it. *)

Section Sort.
Context {A : Type} (cmp : A -> A -> Z).

Fixpoint sort_insert (x : A) (l : list A) : list A :=
  match l with
  | [] => [x]
  | y :: r => if (cmp x y <=? 0)%Z then x :: l else y :: sort_insert x r
  end.

Fixpoint sort (l : list A) : list A :=
  match l with
  | [] => []
  | x :: r => sort_insert x (sort r)
  end.
End Sort.

(** ** Plain objects *)

Definition obj (V : Type) := list (string * V).

Section Obj.
Context {V : Type}.

Fixpoint get (k : string) (o : obj V) : option V :=
  match o with
  | [] => None
  | (k', v) :: r => if String.eqb k k' then Some v else get k r
  end.

(** [o[k] = v]: an existing property keeps its place. *)
Fixpoint set (k : string) (v : V) (o : obj V) : obj V :=
  match o with
  | [] => [(k, v)]
  | (k', v') :: r => if String.eqb k k' then (k, v) :: r else (k', v') :: set k v r
  end.

Definition has (k : string) (o : obj V) : bool :=
  match get k o with Some _ => true | None => false end.

(** A canonical array index: the decimal numeral, without leading zero,
    of an integer below [2^32 - 1]. *)
Fixpoint digits_value (acc : N) (l : list ascii) : option N :=
  match l with
  | [] => Some acc
  | c :: r =>
      if is_digit c
      then digits_value (acc * 10 + N.of_nat (code c - 48))%N r
      else None
  end.

Definition array_index (k : string) : option N :=
  match chars k with
  | [] => None
  | c :: r =>
      if Ascii.eqb c "0"%char && negb (match r with [] => true | _ => false end)
      then None
      else if 10 <? List.length (c :: r) then None
      else match digits_value 0 (c :: r) with
           | Some n => if (n <? 4294967295)%N then Some n else None
           | None => None
           end
  end.

Definition is_index (k : string) : bool :=
  match array_index k with Some _ => true | None => false end.

Definition index_of (k : string) : Z :=
  match array_index k with Some n => Z.of_N n | None => 0 end.

(** [Object.entries(o)]: the array-index keys in ascending numeric order,
    then the other keys in insertion order. *)
Definition entries (o : obj V) : list (string * V) :=
  sort (fun a b => index_of (fst a) - index_of (fst b))%Z
       (filter (fun kv => is_index (fst kv)) o)
  ++ filter (fun kv => negb (is_index (fst kv))) o.

Definition keys (o : obj V) : list string := map fst (entries o).
End Obj.

(** The member names of [Object.prototype]: a property read on a plain
    object finds them when the object has no own property of that name. *)
Definition prototype_members : list string :=
  [ "constructor"; "__defineGetter__"; "__defineSetter__"; "hasOwnProperty";
    "__lookupGetter__"; "__lookupSetter__"; "isPrototypeOf";
    "propertyIsEnumerable"; "toString"; "valueOf"; "__proto__";
    "toLocaleString" ].

Inductive lookup (V : Type) : Type :=
| Own (v : V)
| Inherited
| Undefined.
Arguments Own {V} v.
Arguments Inherited {V}.
Arguments Undefined {V}.

Definition read {V} (k : string) (o : obj V) : lookup V :=
  match get k o with
  | Some v => Own v
  | None => if includes k prototype_members then Inherited else Undefined
  end.

(** [delete o[k]] *)
Definition remove {V} (k : string) (o : obj V) : obj V :=
  filter (fun kv => negb (String.eqb k (fst kv))) o.

(** ** Searching and cutting strings *)

Fixpoint starts_with (t l : list ascii) : bool :=
  match t, l with
  | [], _ => true
  | c :: t', d :: l' => Ascii.eqb c d && starts_with t' l'
  | _ :: _, [] => false
  end.

Fixpoint occurs_in (t l : list ascii) : bool :=
  starts_with t l
  || match l with
     | [] => false
     | _ :: r => occurs_in t r
     end.

(** [s.includes(t)] on strings *)
Definition string_includes (s t : string) : bool := occurs_in (chars t) (chars s).

(** [s.split(/[...]+/)] for a class [sep] of characters: the pieces
    between maximal runs of separators, empty pieces at both ends
    included. *)
Fixpoint split_runs (sep : ascii -> bool) (l : list ascii) : list (list ascii) :=
  match l with
  | [] => [[]]
  | c :: r =>
      if sep c
      then match r with
           | c' :: _ => if sep c' then split_runs sep r else [] :: split_runs sep r
           | [] => [] :: split_runs sep r
           end
      else match split_runs sep r with
           | t :: ts => (c :: t) :: ts
           | [] => [[c]]
           end
  end.

(** ** Whole words: [/\b(w1|w2|...)\b/]

    The alternatives are texts without metacharacters. *)

Definition word_at (c : option ascii) : bool :=
  match c with Some c => is_word c | None => false end.

(** [\b] between two characters, or between a character and an end of the
    text. *)
Definition boundary (prev next : option ascii) : bool := xorb (word_at prev) (word_at next).

(** The alternative [w] matches at the head of [l], which [prev] precedes,
    with a [\b] before it and one after it. *)
Definition whole_word_here (prev : option ascii) (l : list ascii) (w : list ascii) : bool :=
  boundary prev (hd_error l)
  && starts_with w l
  && boundary (match rev w with c :: _ => Some c | [] => prev end)
       (hd_error (skipn (List.length w) l)).

Fixpoint whole_word_from (alts : list (list ascii)) (prev : option ascii) (l : list ascii)
    : bool :=
  existsb (whole_word_here prev l) alts
  || match l with
     | [] => false
     | c :: r => whole_word_from alts (Some c) r
     end.

(** [s.match(/\b(w1|w2|...)\b/)] is not null *)
Definition has_whole_word (alts : list string) (s : string) : bool :=
  whole_word_from (map chars alts) None (chars s).

(** ** Numbers *)

(** [ToInt32]: the integer modulo [2^32], in the signed range. *)
Definition to_int32 (z : Z) : Z :=
  ((z + 2147483648) mod 4294967296 - 2147483648)%Z.

(** [a << n] and [a & b] on numbers that hold integers *)
Definition shift_left (a : Z) (n : Z) : Z := to_int32 (Z.shiftl (to_int32 a) n).

Definition bit_and (a b : Z) : Z := Z.land (to_int32 a) (to_int32 b).

Definition digit36 (d : Z) : ascii :=
  if (d <? 10)%Z then ascii_of_nat (48 + Z.to_nat d) else ascii_of_nat (87 + Z.to_nat d).

(** The digits of [n] in base 36 before [acc], most significant first;
    a number has at most as many of them as it has bits. *)
Fixpoint digits36 (fuel : nat) (n : Z) (acc : list ascii) : list ascii :=
  match fuel with
  | 0 => acc
  | S fuel =>
      let acc := digit36 (n mod 36) :: acc in
      if (n <? 36)%Z then acc else digits36 fuel (n / 36) acc
  end.

(** [n.toString(36)] for an integer [n >= 0] *)
Definition toString36 (n : Z) : string :=
  str (digits36 (S (Z.to_nat (Z.log2 n))) n []).

(** The decimal numeral of a length or a count, as a template literal
    prints it. *)
Definition nat_to_string (n : nat) : string := NilZero.string_of_uint (Nat.to_uint n).

End Js.

Import Js.

Notation "x <- r ;; k" := (Js.bind r (fun x => k))
  (at level 61, r at next level, right associativity).

(* ================================================================= *)
(** * utils/textUtils.js *)

Module TextUtils.

Definition as_string (text : value) : option string :=
  match text with
  | Some (JStr s) => if String.eqb s "" then None else Some s
  | _ => None
  end.

Definition normalizeText (text : value) : string :=
  match as_string text with
  | None => ""
  | Some s => toLowerCase (trim (str (collapse_spaces false (chars s))))
  end.

Definition stopWords : list string :=
  [ "the"; "and"; "or"; "but"; "in"; "on"; "at"; "to"; "for"; "of"; "with";
    "by"; "from"; "up"; "about"; "into"; "through"; "during"; "before";
    "after"; "above"; "below"; "between"; "among"; "through"; "during";
    "before"; "after"; "above"; "below"; "between"; "among"; "a"; "an";
    "as"; "are"; "was"; "were"; "been"; "be"; "have"; "has"; "had";
    "do"; "does"; "did"; "will"; "would"; "could"; "should"; "may";
    "might"; "must"; "can"; "shall"; "this"; "that"; "these"; "those" ].

(** [/^\d+$/] *)
Definition purely_numeric (word : string) : bool :=
  match chars word with
  | [] => false
  | l => forallb is_digit l
  end.

Definition extractKeywords (text : value) : list string :=
  match as_string text with
  | None => []
  | Some _ =>
      filter (fun word => negb (purely_numeric word))
        (filter (fun word => (2 <? String.length word) && negb (includes word stopWords))
           (map str (split_nonword (chars (normalizeText text)))))
  end.

Definition truncateText (text : value) (maxLength : nat) : string :=
  match as_string text with
  | None => ""
  | Some s =>
      if String.length s <=? maxLength then s
      else (trim (substring0 maxLength s) ++ "...")%string
  end.

(** [text.replace(/<[^>]*>/g, '').trim()]: a [<] opens a tag when a [>]
    follows somewhere, and the tag ends at the first one. *)
Fixpoint strip_tags_chars (in_tag : bool) (l : list ascii) : list ascii :=
  match l with
  | [] => []
  | c :: r =>
      if in_tag
      then if Ascii.eqb c ">"%char then strip_tags_chars false r
           else strip_tags_chars true r
      else if Ascii.eqb c "<"%char && existsb (Ascii.eqb ">"%char) r
           then strip_tags_chars true r
           else c :: strip_tags_chars false r
  end.

Definition stripTags (text : value) : string :=
  match as_string text with
  | None => ""
  | Some s => trim (str (strip_tags_chars false (chars s)))
  end.

(** The quotient [intersection.size / union.size] of two integers, as a
    rational: the floating-point division of JavaScript rounds it, which
    keeps [0], keeps [n / n = 1] and depends on the two sizes only. *)
Definition calculateSimilarity (text1 text2 : value) : Q :=
  if negb (truthy text1) || negb (truthy text2) then 0
  else
    let words1 := Set_from (extractKeywords text1) in
    let words2 := Set_from (extractKeywords text2) in
    if (Set_size words1 =? 0) || (Set_size words2 =? 0) then 0
    else
      let intersection := Set_from (filter (fun word => includes word words2) words1) in
      let union := Set_from (words1 ++ words2) in
      Z.of_nat (Set_size intersection) # Pos.of_nat (Set_size union).

(** One turn of the loop of [generateHash]:
    [hash = ((hash << 5) - hash) + char; hash = hash & hash]. *)
Definition hash_step (hash : Z) (char : ascii) : Z :=
  let hash := (shift_left hash 5 - hash + Z.of_nat (code char))%Z in
  bit_and hash hash.

Definition generateHash (text : value) : string :=
  match as_string text with
  | None => ""
  | Some s => toString36 (Z.abs (fold_left hash_step (chars s) 0%Z))
  end.

(** [/[.!?]/] *)
Definition is_terminator (c : ascii) : bool :=
  Ascii.eqb c "."%char || Ascii.eqb c "!"%char || Ascii.eqb c "?"%char.

Record relevant : Type := { sentence : string; matchCount : nat }.

Definition by_matchCount_desc (a b : relevant) : Z :=
  Z.of_nat (matchCount b) - Z.of_nat (matchCount a).

(** [terms.length === 0] *)
Definition no_terms (terms : value) : bool :=
  match terms with
  | Some (JArr []) => true
  | Some (JObj props) => match get "length" props with
                         | Some (JNum n) => (n =? 0)%Z
                         | _ => false
                         end
  | _ => false
  end.

(** [text.split] exists on strings and [terms.reduce] on arrays only; the
    latter is called once per sentence. *)
Definition extractRelevantSentences (text terms : value) (maxSentences : Z)
    : result (list string) :=
  if negb (truthy text) || negb (truthy terms) || no_terms terms then Return []
  else
    match text with
    | Some (JStr s) =>
        let sentences :=
          filter (fun s => 0 <? String.length (trim s))
            (map str (split_runs is_terminator (chars s))) in
        match terms, sentences with
        | Some (JArr items), _ =>
            let relevantSentences :=
              flat_map
                (fun each =>
                   let normalizedSentence := normalizeText (Some (JStr each)) in
                   let count :=
                     List.length
                       (filter (fun term =>
                                  string_includes normalizedSentence (normalizeText (Some term)))
                          items) in
                   if 0 <? count
                   then [ {| sentence := trim each; matchCount := count |} ]
                   else [])
                sentences in
            Return (map sentence
                      (slice0 maxSentences (sort by_matchCount_desc relevantSentences)))
        | _, [] => Return []
        | _, _ :: _ => Throw (TypeError "terms.reduce is not a function")
        end
    | _ => Throw (TypeError "text.split is not a function")
    end.

End TextUtils.

(* ================================================================= *)
(** * services/documentParser.js *)

Module DocumentParser.

(** The tree that the XML parser hands over (arrays for children, text
    trimmed, attributes kept apart): an element that has only text is that
    string; any other element is an object with its attributes under [$]
    (absent when there are none), its own text under [_] (absent when
    empty) and, under each child element name, the array of those children
    in document order.  Element names are XML names: never [$], [_] or an
    array index. *)
Unset Elimination Schemes.
Inductive node : Type :=
| NText (s : string)
| NElem (attrs : obj string) (text : string) (children : obj (list node)).
Set Elimination Schemes.

Record section_metadata : Type := {
  sectionType : string;
  changed : option string;
  displayStyle : option string
}.

Record section : Type := {
  id : string;
  type : string;
  title : string;
  content : string;
  fullText : string;
  level : nat;
  parentId : option string;
  children : list string;
  metadata : section_metadata
}.

(** The object [sections] while it is filled: its own properties, and the
    section that has become its prototype, if any. *)
Record section_map : Type := {
  own_sections : obj section;
  replaced_prototype : option section
}.

(** The snapshot: [sections] holds the own properties of the object of
    that name and [sections_prototype] the section that is its prototype,
    if an assignment has replaced [Object.prototype]. *)
Record documentData : Type := {
  sections : obj section;
  sections_prototype : option section;
  searchIndex : obj (list string)
}.

(** What [sections[key]] evaluates to: a section; another value that has
    properties (a string, a number, an array, an object or a function, none
    of which has a property that the callers read), together with its
    truth value; [null]; or [undefined]. *)
Inductive held : Type :=
| Stored (s : section)
| Foreign (truthy : bool)
| Null
| Absent.

(** A score: the number of additions, or, once the first addition has met
    an inherited member, the text of that member followed by a [1] for each
    addition.  Such a text is no numeral. *)
Inductive score_value : Type :=
| Count (n : nat)
| Text (s : string).

Record ranked : Type := {
  ranked_value : held;
  score : score_value
}.

(** The section of a result, when what the map holds under the id is one. *)
Definition ranked_section (r : ranked) : option section :=
  match ranked_value r with
  | Stored s => Some s
  | _ => None
  end.

Definition vstr (s : string) : value := Some (JStr s).

(** [obj.$ && obj.$.name], when truthy. *)
Definition attr (name : string) (attrs : obj string) : option string :=
  match get name attrs with
  | Some s => if String.eqb s "" then None else Some s
  | None => None
  end.


Definition extractTextContent (element : node) : string :=
  match element with
  | NText s => s
  | NElem _ text _ => text
  end.

(** The own text of an object is appended once for [obj._] and once more
    when the loop over the entries meets the key [_]; [$] is skipped. *)
Fixpoint extractAllTextRecursive (obj : node) : string :=
  match obj with
  | NText s => s
  | NElem _ text children =>
      let own := if String.eqb text "" then ""
                 else (text ++ " " ++ text ++ " ")%string in
      fold_left
        (fun acc entry =>
           fold_left (fun acc item => (acc ++ extractAllTextRecursive item ++ " ")%string)
             (snd entry) acc)
        children own
  end.

(** The heading of a section: the first [header] child, else the first
    [enum] child. *)
Definition first_text (tag : string) (children : obj (list node)) : option string :=
  match get tag children with
  | Some (NText s :: _) => if String.eqb s "" then None else Some s
  | Some (NElem _ text _ :: _) => Some text
  | _ => None
  end.

Section Extraction.
(** The body of [extractSectionDataSimple] runs inside [try]; whatever it
    raises (the engine's stack limit on a very deep subtree is the case
    the parsed tree leaves open) is caught, logged, and the node is
    skipped.  [extraction_throws] tells on which nodes that happens. *)
Variable extraction_throws : node -> bool.

Definition extractSectionDataSimple (obj : node) (parentId : option string)
    (level : nat) : option section :=
  match obj with
  | NText _ => None
  | NElem attrs text children =>
      match attr "id" attrs with
      | None => None
      | Some id =>
          if extraction_throws obj then None
          else
            let title :=
              match first_text "header" children with
              | Some t => t
              | None => match first_text "enum" children with
                        | Some t => t
                        | None => ""
                        end
              end in
            let content :=
              match get "text" children with
              | Some ts => join " " (map extractTextContent ts)
              | None => ""
              end in
            let allText := extractAllTextRecursive obj in
            let ty := match attr "section-type" attrs with
                      | Some t => t
                      | None => "section"
                      end in
            Some {| id := id;
                    type := ty;
                    title := trim (TextUtils.stripTags (vstr title));
                    content := trim (TextUtils.stripTags (vstr content));
                    fullText := trim (TextUtils.stripTags (vstr allText));
                    level := level;
                    parentId := parentId;
                    children := [];
                    metadata := {| sectionType := ty;
                                   changed := attr "changed" attrs;
                                   displayStyle := attr "reported-display-style" attrs |} |}
      end
  end.

(** [sections[section.id] = section].  [__proto__] is an accessor of
    [Object.prototype]: the assignment calls its setter, which makes the
    section the prototype of [sections] and creates no property.  Every
    other member of [Object.prototype] is a writable data property, and so
    is every property of a section that has become the prototype: the
    assignment creates an own property, as it does for any other key. *)
Definition assign (sections : section_map) (section : section) : section_map :=
  if String.eqb (id section) "__proto__"
  then {| own_sections := own_sections sections; replaced_prototype := Some section |}
  else {| own_sections := set (id section) section (own_sections sections);
          replaced_prototype := replaced_prototype sections |}.

(** The loop over [Object.entries(obj)] meets [_] (a string: nothing to
    do), [$] (an object whose values are strings: the recursive call on
    it finds no id and nothing to descend into) and the child arrays. *)
Fixpoint processSectionsSimple (obj : node) (sections : section_map)
    (parentId : option string) (level : nat) {struct obj} : section_map :=
  match obj with
  | NText _ => sections
  | NElem attrs _ children =>
      let sections :=
        match attr "id" attrs with
        | Some _ =>
            match extractSectionDataSimple obj parentId level with
            | Some section => assign sections section
            | None => sections
            end
        | None => sections
        end in
      let here := match attr "id" attrs with
                  | Some i => Some i
                  | None => parentId
                  end in
      fold_left
        (fun sections entry =>
           fold_left
             (fun sections item =>
                match item with
                | NText _ => sections
                | NElem iattrs _ _ =>
                    match attr "id" iattrs with
                    | Some _ => processSectionsSimple item sections here (S level)
                    | None => processSectionsSimple item sections parentId level
                    end
                end)
             (snd entry) sections)
        children sections
  end.

(** One keyword of one section.  [searchIndex] is a plain object: for a
    keyword that names a member of [Object.prototype] the test
    [!searchIndex[keyword]] finds the inherited member, no array is
    created, and the call of [includes] on the member fails. *)
Definition index_keyword (sectionId : string) (searchIndex : Js.obj (list string))
    (keyword : string) : result (Js.obj (list string)) :=
  match read keyword searchIndex with
  | Undefined => Return (set keyword [sectionId] searchIndex)
  | Own ids =>
      if includes sectionId ids then Return searchIndex
      else Return (set keyword (ids ++ [sectionId]) searchIndex)
  | Inherited => Throw (TypeError "searchIndex[keyword].includes is not a function")
  end.

Definition index_section (searchIndex : Js.obj (list string))
    (entry : string * section) : result (Js.obj (list string)) :=
  let '(sectionId, section) := entry in
  let titleKeywords := TextUtils.extractKeywords (vstr (title section)) in
  let contentKeywords := TextUtils.extractKeywords (vstr (fullText section)) in
  fold_left (fun acc keyword => idx <- acc ;; index_keyword sectionId idx keyword)
    (titleKeywords ++ contentKeywords) (Return searchIndex).

Definition buildSearchIndex (sections : Js.obj section)
    (searchIndex : Js.obj (list string)) : result (Js.obj (list string)) :=
  fold_left (fun acc entry => idx <- acc ;; index_section idx entry)
    (entries sections) (Return searchIndex).

(** The snapshot also carries the metadata, the table of contents and an
    empty hierarchy; none of them is read by the search. *)
Definition buildDocumentStructure (parsedXml : node) : result documentData :=
  let sections :=
    processSectionsSimple parsedXml {| own_sections := []; replaced_prototype := None |}
      None 0 in
  searchIndex <- buildSearchIndex (own_sections sections) [] ;;
  Return {| sections := own_sections sections;
            sections_prototype := replaced_prototype sections;
            searchIndex := searchIndex |}.
End Extraction.

(** The parser is a singleton: [None] until [initialize] has stored the
    snapshot. *)
Definition parser := option documentData.

Definition getDocumentData (this : parser) : result documentData :=
  match this with
  | None => Throw (Error "Document parser not initialized")
  | Some d => Return d
  end.

(** A property of a section, by its name: a string, the number [level],
    the array [children], the object [metadata], or [parentId], which may
    be [null]. *)
Definition section_property (p : section) (key : string) : option held :=
  if String.eqb key "id" then Some (Foreign (negb (String.eqb (id p) "")))
  else if String.eqb key "type" then Some (Foreign (negb (String.eqb (type p) "")))
  else if String.eqb key "title" then Some (Foreign (negb (String.eqb (title p) "")))
  else if String.eqb key "content" then Some (Foreign (negb (String.eqb (content p) "")))
  else if String.eqb key "fullText" then Some (Foreign (negb (String.eqb (fullText p) "")))
  else if String.eqb key "level" then Some (Foreign (negb (level p =? 0)))
  else if String.eqb key "parentId"
  then Some (match parentId p with
             | None => Null
             | Some i => Foreign (negb (String.eqb i ""))
             end)
  else if String.eqb key "children" then Some (Foreign true)
  else if String.eqb key "metadata" then Some (Foreign true)
  else None.

(** [sections[key]]: an own property; else what the prototype chain
    gives, which is [Object.prototype] alone or, once a section has become
    the prototype, that section (read under [__proto__]), its properties,
    and then [Object.prototype]. *)
Definition section_at (key : string) (d : documentData) : held :=
  match get key (sections d) with
  | Some s => Stored s
  | None =>
      let inherited := if includes key prototype_members then Foreign true else Absent in
      match sections_prototype d with
      | None => inherited
      | Some p =>
          if String.eqb key "__proto__" then Stored p
          else match section_property p key with
               | Some e => e
               | None => inherited
               end
      end
  end.

(** The text of a member function of [Object.prototype] in a string
    concatenation: [constructor] is the function [Object], and every other
    one is the function of its own name. *)
Definition member_text (key : string) : string :=
  "function " ++ (if String.eqb key "constructor" then "Object" else key)
  ++ "() { [native code] }".

(** [sectionScores[sectionId] = (sectionScores[sectionId] || 0) + 1].  The
    read finds an inherited member where the object has no own score, and
    the sum is then a text: that of the member function; under [__proto__],
    where the member is an accessor, the assignment of the text is
    ignored. *)
Definition bump (sectionScores : obj score_value) (sectionId : string)
    : obj score_value :=
  match read sectionId sectionScores with
  | Own (Count n) => set sectionId (Count (n + 1)) sectionScores
  | Own (Text s) => set sectionId (Text (s ++ "1")) sectionScores
  | Undefined => set sectionId (Count 1) sectionScores
  | Inherited =>
      if String.eqb sectionId "__proto__" then sectionScores
      else set sectionId (Text (member_text sectionId ++ "1")) sectionScores
  end.

(** One keyword of the query; an inherited member is not an array and has
    no [forEach]. *)
Definition score_keyword (searchIndex : obj (list string))
    (sectionScores : obj score_value) (keyword : string) : result (obj score_value) :=
  match read keyword searchIndex with
  | Own matchingSections => Return (fold_left bump matchingSections sectionScores)
  | Undefined => Return sectionScores
  | Inherited => Throw (TypeError "matchingSections.forEach is not a function")
  end.

(** [b[1] - a[1]]; the difference is [NaN] when one of the scores is a
    text, and [sort] takes [NaN] for 0. *)
Definition by_score_desc (a b : string * score_value) : Z :=
  match snd a, snd b with
  | Count x, Count y => Z.of_nat y - Z.of_nat x
  | _, _ => 0
  end.

Definition searchSections (this : parser) (query : value) (limit : Z)
    : result (list ranked) :=
  d <- getDocumentData this ;;
  let keywords := TextUtils.extractKeywords query in
  sectionScores <-
    fold_left (fun acc keyword => s <- acc ;; score_keyword (searchIndex d) s keyword)
      keywords (Return []) ;;
  Return (map (fun e => {| ranked_value := section_at (fst e) d; score := snd e |})
            (slice0 limit (sort by_score_desc (entries sectionScores)))).

End DocumentParser.

(* ================================================================= *)
(** * JSON texts

    [JSON.parse] is a primitive of the language.  The code that calls it
    takes it as a parameter below; [Json.parse] is the instance used to run
    that code on concrete replies.  It reads the JSON grammar except
    fractions, exponents and [\u] escapes, on which it gives up. *)

Module Json.

Definition is_ws (c : ascii) : bool :=
  (code c =? 32) || (code c =? 9) || (code c =? 10) || (code c =? 13).

Fixpoint skip_ws (l : list ascii) : list ascii :=
  match l with
  | c :: r => if is_ws c then skip_ws r else l
  | [] => []
  end.

(** The characters of a string literal after its opening quote. *)
Fixpoint string_body (l : list ascii) : option (list ascii * list ascii) :=
  match l with
  | [] => None
  | c :: r =>
      if Ascii.eqb c "034"%char then Some ([], r)
      else if Ascii.eqb c "\"%char then
        match r with
        | e :: r' =>
            let unescaped :=
              if Ascii.eqb e "034"%char then Some "034"%char
              else if Ascii.eqb e "\"%char then Some "\"%char
              else if Ascii.eqb e "/"%char then Some "/"%char
              else if Ascii.eqb e "b"%char then Some (ascii_of_nat 8)
              else if Ascii.eqb e "f"%char then Some (ascii_of_nat 12)
              else if Ascii.eqb e "n"%char then Some (ascii_of_nat 10)
              else if Ascii.eqb e "r"%char then Some (ascii_of_nat 13)
              else if Ascii.eqb e "t"%char then Some (ascii_of_nat 9)
              else None in
            match unescaped, string_body r' with
            | Some u, Some (s, rest) => Some (u :: s, rest)
            | _, _ => None
            end
        | [] => None
        end
      else if code c <? 32 then None
      else match string_body r with
           | Some (s, rest) => Some (c :: s, rest)
           | None => None
           end
  end.

Fixpoint digits (acc : Z) (l : list ascii) : Z * list ascii :=
  match l with
  | c :: r => if is_digit c then digits (acc * 10 + Z.of_nat (code c - 48)) r
              else (acc, l)
  | [] => (acc, [])
  end.

(** An integer numeral; a fraction or an exponent after it is not read. *)
Definition natural (l : list ascii) : option (Z * list ascii) :=
  match l with
  | c :: r =>
      if negb (is_digit c) then None
      else
        let '(n, rest) := if Ascii.eqb c "0"%char then (0%Z, r) else digits 0 l in
        match rest with
        | d :: _ =>
            if Ascii.eqb d "."%char || Ascii.eqb d "e"%char || Ascii.eqb d "E"%char
            then None else Some (n, rest)
        | [] => Some (n, rest)
        end
  | [] => None
  end.

Fixpoint literal (word rest : list ascii) : option (list ascii) :=
  match word, rest with
  | [], _ => Some rest
  | w :: word', c :: rest' => if Ascii.eqb w c then literal word' rest' else None
  | _ :: _, [] => None
  end.

Fixpoint value (fuel : nat) (l : list ascii) : option (json * list ascii) :=
  match fuel with
  | 0 => None
  | S fuel =>
      match skip_ws l with
      | [] => None
      | c :: r =>
          if Ascii.eqb c "{"%char then
            match skip_ws r with
            | d :: r' => if Ascii.eqb d "}"%char then Some (JObj [], r')
                         else members fuel r []
            | [] => None
            end
          else if Ascii.eqb c "["%char then
            match skip_ws r with
            | d :: r' => if Ascii.eqb d "]"%char then Some (JArr [], r')
                         else elements fuel r []
            | [] => None
            end
          else if Ascii.eqb c "034"%char then
            match string_body r with
            | Some (s, rest) => Some (JStr (str s), rest)
            | None => None
            end
          else if Ascii.eqb c "-"%char then
            match natural r with
            | Some (n, rest) => Some (JNum (- n), rest)
            | None => None
            end
          else if is_digit c then
            match natural (c :: r) with
            | Some (n, rest) => Some (JNum n, rest)
            | None => None
            end
          else if Ascii.eqb c "t"%char then
            option_map (fun rest => (JBool true, rest)) (literal (chars "rue") r)
          else if Ascii.eqb c "f"%char then
            option_map (fun rest => (JBool false, rest)) (literal (chars "alse") r)
          else if Ascii.eqb c "n"%char then
            option_map (fun rest => (JNull, rest)) (literal (chars "ull") r)
          else None
      end
  end
with elements (fuel : nat) (l : list ascii) (acc : list json)
  : option (json * list ascii) :=
  match fuel with
  | 0 => None
  | S fuel =>
      match value fuel l with
      | Some (v, rest) =>
          match skip_ws rest with
          | c :: r =>
              if Ascii.eqb c ","%char then elements fuel r (acc ++ [v])
              else if Ascii.eqb c "]"%char then Some (JArr (acc ++ [v]), r)
              else None
          | [] => None
          end
      | None => None
      end
  end
with members (fuel : nat) (l : list ascii) (acc : obj json)
  : option (json * list ascii) :=
  match fuel with
  | 0 => None
  | S fuel =>
      match skip_ws l with
      | q :: r =>
          if negb (Ascii.eqb q "034"%char) then None
          else
            match string_body r with
            | Some (k, rest) =>
                match skip_ws rest with
                | c :: r' =>
                    if negb (Ascii.eqb c ":"%char) then None
                    else
                      match value fuel r' with
                      | Some (v, rest') =>
                          match skip_ws rest' with
                          | d :: r'' =>
                              if Ascii.eqb d ","%char
                              then members fuel r'' (set (str k) v acc)
                              else if Ascii.eqb d "}"%char
                              then Some (JObj (set (str k) v acc), r'')
                              else None
                          | [] => None
                          end
                      | None => None
                      end
                | [] => None
                end
            | None => None
            end
      | [] => None
      end
  end.

Definition parse (text : string) : option json :=
  let l := chars text in
  match value (2 * List.length l + 2) l with
  | Some (v, rest) => match skip_ws rest with [] => Some v | _ => None end
  | None => None
  end.

End Json.

(* ================================================================= *)
(** * services/llmService.js *)

Module LLMService.

Import TextUtils.
Module DP := DocumentParser.

(** ** Tool definitions sent with every request *)

Record property : Type := {
  prop_name : string;
  prop_type : string;
  prop_enum : option (list string)
}.

Record tool : Type := {
  tool_name : string;
  properties : list property;
  required : list string
}.

Definition maxResults_property : property :=
  {| prop_name := "maxResults"; prop_type := "number"; prop_enum := None |}.

Definition tools : list tool :=
  [ {| tool_name := "search_sections";
       properties := [ {| prop_name := "query"; prop_type := "string"; prop_enum := None |};
                       maxResults_property ];
       required := ["query"] |};
    {| tool_name := "get_section_by_id";
       properties := [ {| prop_name := "sectionId"; prop_type := "string"; prop_enum := None |} ];
       required := ["sectionId"] |};
    {| tool_name := "search_by_topic";
       properties := [ {| prop_name := "topic"; prop_type := "string";
                          prop_enum := Some [ "tax"; "defense"; "agriculture"; "energy";
                                              "environment"; "banking"; "healthcare";
                                              "education"; "immigration"; "housing" ] |};
                       maxResults_property ];
       required := ["topic"] |};
    {| tool_name := "get_bill_overview"; properties := []; required := [] |};
    {| tool_name := "search_financial_impact";
       properties := [ {| prop_name := "impactType"; prop_type := "string";
                          prop_enum := Some [ "appropriation"; "funding"; "cost"; "budget";
                                              "spending"; "revenue"; "tax_change" ] |};
                       maxResults_property ];
       required := ["impactType"] |} ].

(** ** Conversation data *)

(** The arguments of a tool call, by the names the executors destructure.
    [maxResults], when given, is an integer. *)
Record tool_input : Type := {
  query : value;
  sectionId : value;
  topic : value;
  impactType : value;
  maxResults : option Z
}.

Definition argument (name : string) (input : tool_input) : value :=
  if String.eqb name "query" then query input
  else if String.eqb name "sectionId" then sectionId input
  else if String.eqb name "topic" then topic input
  else if String.eqb name "impactType" then impactType input
  else if String.eqb name "maxResults" then option_map JNum (maxResults input)
  else None.

Inductive block : Type :=
| TextBlock (text : string)
| ToolUse (id name : string) (input : tool_input)
| ToolResult (tool_use_id : string) (content : json)
| OtherBlock (type : string).

Record response : Type := {
  content : option (list block);
  response_id : string
}.

Inductive role : Type := user | assistant.

Inductive body : Type :=
| Prompt (text : string)
| Blocks (blocks : list block).

Record message : Type := { msg_role : role; msg_body : body }.

Record payload : Type := {
  messages : list message;
  payload_tools : list tool
}.

Record tool_call : Type := {
  call_id : string;
  call_name : string;
  call_input : tool_input
}.

(** One entry of a tool-result turn; [result_content] is the value whose
    [JSON.stringify] text the entry carries. *)
Record tool_result : Type := {
  result_id : string;
  result_content : json
}.

Definition is_tool_use (item : block) : bool :=
  match item with ToolUse _ _ _ => true | _ => false end.

Definition is_text (item : block) : bool :=
  match item with TextBlock _ => true | _ => false end.

(** [response.content.filter(item => item.type === 'tool_use')] *)
Fixpoint tool_uses (items : list block) : list tool_call :=
  match items with
  | [] => []
  | ToolUse id name input :: r =>
      {| call_id := id; call_name := name; call_input := input |} :: tool_uses r
  | _ :: r => tool_uses r
  end.

(** [response.content && response.content.some(item => item.type === 'tool_use')] *)
Definition requests_tools (r : response) : bool :=
  match content r with
  | Some items => existsb is_tool_use items
  | None => false
  end.

(** ** Strings of values: property keys and template literals *)

Fixpoint json_to_string (j : json) : string :=
  match j with
  | JNull => "null"
  | JBool true => "true"
  | JBool false => "false"
  | JNum n => DecimalString.NilZero.string_of_int (Z.to_int n)
  | JStr s => s
  | JArr items =>
      join ","
        ((fix each (l : list json) : list string :=
            match l with
            | [] => []
            | JNull :: r => "" :: each r
            | x :: r => json_to_string x :: each r
            end) items)
  | JObj _ => "[object Object]"
  end.

Definition to_string (v : value) : string :=
  match v with
  | None => "undefined"
  | Some j => json_to_string j
  end.

(** ** Tool executors *)

Fixpoint mapM {A B} (f : A -> result B) (l : list A) : result (list B) :=
  match l with
  | [] => Return []
  | x :: r => y <- f x ;; ys <- mapM f r ;; Return (y :: ys)
  end.

(** A property whose value is [undefined] is left out by [JSON.stringify]. *)
Definition field (k : string) (v : value) : obj json :=
  match v with Some j => [(k, j)] | None => [] end.

Definition score_json (score : DP.score_value) : json :=
  match score with
  | DP.Count n => JNum (Z.of_nat n)
  | DP.Text s => JStr s
  end.

(** On a value that is no section the properties read are [undefined]:
    [truncateText] turns the missing text into the empty string. *)
Definition result_entry (contentLength : nat) (r : DP.ranked) : result json :=
  match DP.ranked_value r with
  | DP.Absent => Throw (TypeError "Cannot read properties of undefined (reading 'id')")
  | DP.Null => Throw (TypeError "Cannot read properties of null (reading 'id')")
  | DP.Foreign _ =>
      Return (JObj [ ("content", JStr (truncateText None contentLength));
                     ("score", score_json (DP.score r));
                     ("excerpt", JStr (truncateText None 200)) ])
  | DP.Stored s =>
      Return (JObj [ ("id", JStr (DP.id s));
                     ("title", JStr (DP.title s));
                     ("content", JStr (truncateText (DP.vstr (DP.fullText s)) contentLength));
                     ("level", JNum (Z.of_nat (DP.level s)));
                     ("type", JStr (DP.type s));
                     ("score", score_json (DP.score r));
                     ("excerpt", JStr (truncateText (DP.vstr (DP.fullText s)) 200)) ])
  end.

Definition requested (input : tool_input) : Z :=
  match maxResults input with Some n => n | None => 3%Z end.

Definition executeSearchSections (this : DP.parser) (input : tool_input) : result json :=
  _ <- DP.getDocumentData this ;;
  searchResults <- DP.searchSections this (query input) (Z.min (requested input) 3) ;;
  results <- mapM (result_entry 300) searchResults ;;
  Return (JObj (field "query" (query input)
                ++ [ ("results", JArr results);
                     ("totalFound", JNum (Z.of_nat (List.length searchResults))) ])).

Definition executeGetSectionById (this : DP.parser) (input : tool_input) : result json :=
  documentData <- DP.getDocumentData this ;;
  match DP.section_at (to_string (sectionId input)) documentData with
  | DP.Stored s =>
      Return (JObj [ ("id", JStr (DP.id s));
                     ("title", JStr (DP.title s));
                     ("content", JStr (truncateText (DP.vstr (DP.fullText s)) 600));
                     ("level", JNum (Z.of_nat (DP.level s)));
                     ("type", JStr (DP.type s));
                     ("children", JArr (map JStr (DP.children s))) ])
  | DP.Foreign true =>
      Return (JObj [ ("content", JStr (truncateText None 600)); ("children", JArr []) ])
  | _ =>
      Throw (Error ("Section with ID " ++ quote ++ to_string (sectionId input) ++ quote
                    ++ " not found"))
  end.

Definition topicKeywords : obj (list string) :=
  [ ("tax", ["tax"; "taxes"; "taxation"; "income"; "deduction"; "credit"; "revenue"; "IRS"]);
    ("defense", ["defense"; "military"; "armed forces"; "national security"; "pentagon"; "veteran"]);
    ("agriculture", ["agriculture"; "farm"; "farming"; "food"; "SNAP"; "nutrition"; "USDA"; "crop"]);
    ("energy", ["energy"; "oil"; "gas"; "petroleum"; "renewable"; "solar"; "wind"; "coal"]);
    ("environment", ["environment"; "climate"; "EPA"; "pollution"; "emission"; "green"; "conservation"]);
    ("banking", ["banking"; "finance"; "financial"; "bank"; "credit"; "loan"; "mortgage"]);
    ("healthcare", ["health"; "medical"; "medicare"; "medicaid"; "hospital"; "insurance"; "doctor"]);
    ("education", ["education"; "school"; "student"; "teacher"; "university"; "college"; "learning"]);
    ("immigration", ["immigration"; "immigrant"; "border"; "visa"; "citizenship"; "deportation"]);
    ("housing", ["housing"; "home"; "rent"; "mortgage"; "affordable housing"; "HUD"]) ].

Definition impactKeywords : obj (list string) :=
  [ ("appropriation", ["appropriation"; "appropriated"; "appropriates"; "funds available"]);
    ("funding", ["funding"; "funded"; "fund"; "allocated"; "allocation"]);
    ("cost", ["cost"; "costs"; "expense"; "expenditure"; "budget"]);
    ("budget", ["budget"; "budgeted"; "budgetary"; "fiscal"]);
    ("spending", ["spending"; "spend"; "expenditure"; "outlay"]);
    ("revenue", ["revenue"; "income"; "receipts"; "collections"]);
    ("tax_change", ["tax increase"; "tax decrease"; "tax rate"; "tax reform"; "tax credit";
                    "tax deduction"]) ].

(** [table[name.toLowerCase()] || [name]], then the search; shared by the
    topic and the financial-impact executors, which differ in the table and
    in the name of the argument. *)
Definition search_by_table (table : obj (list string)) (argName : string)
    (this : DP.parser) (arg : value) (input : tool_input) : result json :=
  match arg with
  | Some (JStr name) =>
      keywords <-
        match read (toLowerCase name) table with
        | Own ks => Return ks
        | Undefined => Return [name]
        | Inherited => Throw (TypeError "keywords.join is not a function")
        end ;;
      let searchQuery := join " OR " keywords in
      searchResults <-
        DP.searchSections this (DP.vstr searchQuery) (Z.min (requested input) 3) ;;
      results <- mapM (result_entry 250) searchResults ;;
      Return (JObj [ (argName, JStr name);
                     ("searchKeywords", JArr (map JStr keywords));
                     ("results", JArr results);
                     ("totalFound", JNum (Z.of_nat (List.length searchResults))) ])
  | None => Throw (TypeError "Cannot read properties of undefined (reading 'toLowerCase')")
  | Some JNull => Throw (TypeError "Cannot read properties of null (reading 'toLowerCase')")
  | Some _ => Throw (TypeError (argName ++ ".toLowerCase is not a function"))
  end.

Definition executeSearchByTopic (this : DP.parser) (input : tool_input) : result json :=
  search_by_table topicKeywords "topic" this (topic input) input.

Definition executeSearchFinancialImpact (this : DP.parser) (input : tool_input)
    : result json :=
  search_by_table impactKeywords "impactType" this (impactType input) input.

Definition executeGetBillOverview (this : DP.parser) (input : tool_input) : result json :=
  documentData <- DP.getDocumentData this ;;
  Return (JObj [ ("title", JStr "H.R. 1 (2025)");
                 ("totalSections", JNum (Z.of_nat (List.length (keys (DP.sections documentData)))));
                 ("structure", JStr "Structure not available");
                 ("mainTopics", JArr (map JStr [ "Agriculture and Food Policy";
                                                 "Defense and National Security";
                                                 "Banking and Financial Services";
                                                 "Energy and Natural Resources";
                                                 "Environmental Protection";
                                                 "Tax Policy and Revenue" ]));
                 ("summary", JStr "H.R. 1 (2025) is a comprehensive legislative bill covering multiple policy areas including agriculture, defense, banking, energy, environment, and tax policy.") ]).

Definition error_payload (message : string) : json := JObj [("error", JStr message)].

(** The [switch] on the tool name. *)
Definition dispatch (this : DP.parser) (toolCall : tool_call) : result json :=
  let name := call_name toolCall in
  let input := call_input toolCall in
  if String.eqb name "search_sections" then executeSearchSections this input
  else if String.eqb name "get_section_by_id" then executeGetSectionById this input
  else if String.eqb name "search_by_topic" then executeSearchByTopic this input
  else if String.eqb name "get_bill_overview" then executeGetBillOverview this input
  else if String.eqb name "search_financial_impact" then executeSearchFinancialImpact this input
  else Return (error_payload ("Unknown tool: " ++ name)).

(** The body of the loop over the tool calls: [try] pushes the result,
    [catch] pushes the message of what was thrown. *)
Definition run_call (this : DP.parser) (toolResults : list tool_result)
    (toolCall : tool_call) : list tool_result :=
  match dispatch this toolCall with
  | Return result =>
      toolResults ++ [ {| result_id := call_id toolCall; result_content := result |} ]
  | Throw error =>
      toolResults ++ [ {| result_id := call_id toolCall;
                          result_content := error_payload (Js.message error) |} ]
  end.

Definition fallback_result (toolUseId : string) : tool_result :=
  {| result_id := toolUseId; result_content := error_payload "Tool execution failed" |}.

Definition executeToolCalls (this : DP.parser) (response : response)
    : result (list tool_result) :=
  match content response with
  | None => Throw (TypeError "Cannot read properties of undefined (reading 'filter')")
  | Some items =>
      let toolCalls := tool_uses items in
      let toolResults := fold_left (run_call this) toolCalls [] in
      let toolUseIds := map call_id toolCalls in
      let toolResultIds := map result_id toolResults in
      Return (fold_left
                (fun results toolUseId =>
                   if includes toolUseId toolResultIds then results
                   else results ++ [fallback_result toolUseId])
                toolUseIds toolResults)
  end.

(** ** The conversation loop *)

Inductive event : Type :=
| Posted (request : payload)
| Executed (results : list tool_result).

(** A computation of the loop: what it did, in order, and how it ended. *)
Definition run (A : Type) : Type := list event * result A.

Definition ret {A} (a : A) : run A := ([], Return a).

Definition bind_run {A B} (m : run A) (k : A -> run B) : run B :=
  match m with
  | (trace, Return a) => let '(trace', r) := k a in (trace ++ trace', r)
  | (trace, Throw e) => (trace, Throw e)
  end.

Definition trace {A} (m : run A) : list event := fst m.
Definition outcome {A} (m : run A) : result A := snd m.

Definition posts (t : list event) : list payload :=
  flat_map (fun e => match e with Posted p => [p] | Executed _ => [] end) t.

Definition executions (t : list event) : list (list tool_result) :=
  flat_map (fun e => match e with Executed r => [r] | Posted _ => [] end) t.

Definition as_blocks (results : list tool_result) : list block :=
  map (fun r => ToolResult (result_id r) (result_content r)) results.

Definition assistant_turn (r : response) : message :=
  {| msg_role := assistant;
     msg_body := match content r with Some items => Blocks items | None => Blocks [] end |}.

Definition results_turn (results : list tool_result) : message :=
  {| msg_role := user; msg_body := Blocks (as_blocks results) |}.

Definition final_instruction : string :=
  quoted "Based on all the information gathered from the tools above, please provide your final JSON response using this exact format: {'answer': 'comprehensive answer', 'sections': ['relevant section IDs'], 'keyPoints': ['key takeaways'], 'implications': 'what this means', 'confidence': 'high/medium/low'}".

Definition final_turn : message :=
  {| msg_role := user; msg_body := Blocks [TextBlock final_instruction] |}.

Definition maxIterations : nat := 3.

Record loop_state : Type := {
  currentResponse : response;
  conversationHistory : list message;
  iterationCount : nat
}.

Section Conversation.
(** [axios.post(this.baseUrl, payload, config)], up to [.data]: the reply
    of the model to a request, or what the transport throws. *)
Variable post : payload -> result response.
Variable this : DP.parser.

Definition do_post (request : payload) : run response :=
  ([Posted request], post request).

Definition do_execute (r : response) : run (list tool_result) :=
  match executeToolCalls this r with
  | Return results => ([Executed results], Return results)
  | Throw e => ([], Throw e)
  end.

(** The [while] loop; [budget] is the local constant [maxIterations] of
    the source.  Every turn adds one to [iterationCount], so [fuel] turns
    are enough when [fuel] is the budget. *)
Fixpoint tool_loop (budget : nat) (originalPayload : payload) (fuel : nat)
    (st : loop_state) : run loop_state :=
  match fuel with
  | 0 => ret st
  | S fuel =>
      if requests_tools (currentResponse st) && (iterationCount st <? budget)
      then
        bind_run (do_execute (currentResponse st)) (fun toolResults =>
        let history := conversationHistory st
                         ++ [assistant_turn (currentResponse st)]
                         ++ [results_turn toolResults] in
        bind_run (do_post {| messages := history;
                             payload_tools := payload_tools originalPayload |})
          (fun nextResponse =>
        tool_loop budget originalPayload fuel
          {| currentResponse := nextResponse;
             conversationHistory := history;
             iterationCount := iterationCount st + 1 |}))
      else ret st
  end.

Definition handleToolCalls (budget : nat) (r : response) (originalPayload : payload)
    : run response :=
  bind_run (tool_loop budget originalPayload budget
              {| currentResponse := r;
                 conversationHistory := messages originalPayload;
                 iterationCount := 0 |}) (fun st =>
  if (budget <=? iterationCount st) && requests_tools (currentResponse st)
  then
    bind_run (do_execute (currentResponse st)) (fun finalToolResults =>
    let history := conversationHistory st
                     ++ [assistant_turn (currentResponse st)]
                     ++ [results_turn finalToolResults]
                     ++ [final_turn] in
    do_post {| messages := history; payload_tools := payload_tools originalPayload |})
  else ret (currentResponse st)).

Definition handleToolCallsRecursively (r : response) (originalPayload : payload)
    : run response :=
  handleToolCalls maxIterations r originalPayload.
End Conversation.

(** ** The reply of the model, parsed *)

(** [content.match(/\{[\s\S]*\}/)]: from the first opening brace to the last
    closing brace after it. *)
Fixpoint from_char (c : ascii) (l : list ascii) : option (list ascii) :=
  match l with
  | [] => None
  | d :: r => if Ascii.eqb d c then Some l else from_char c r
  end.

Definition match_braces (content : string) : option string :=
  match from_char "{"%char (chars content) with
  | None => None
  | Some l =>
      match from_char "}"%char (rev l) with
      | None => None
      | Some m => Some (str (rev m))
      end
  end.

(** [/^[\-\*\d\.]\s/] *)
Definition is_bullet (line : string) : bool :=
  match chars line with
  | c :: d :: _ =>
      (Ascii.eqb c "-"%char || Ascii.eqb c "*"%char || is_digit c || Ascii.eqb c "."%char)
      && is_space d
  | _ => false
  end.

Definition strip_bullet (point : string) : string :=
  if is_bullet point then str (skipn 2 (chars point)) else point.

Definition fill (k : string) (default : json) (o : obj json) : obj json :=
  if truthy (get k o) then o else set k default o.

Definition requiredFields : list string :=
  ["answer"; "sections"; "keyPoints"; "implications"].

Section ParseResponse.
Variable JSON_parse : string -> option json.
(** [this.model] *)
Variable model : string.

(** The [catch] of the JSON attempt: a structure built from the text. *)
Definition structured_from_text (content : string) : obj json :=
  let lines := filter (fun line => negb (String.eqb (trim line) EmptyString))
                 (map str (split_on (ascii_of_nat 10) (chars content))) in
  let bulletPoints := filter is_bullet lines in
  let keyPoints :=
    match bulletPoints with
    | [] => []
    | _ => map (fun point => trim (strip_bullet point)) bulletPoints
    end in
  let answer :=
    match bulletPoints with
    | [] => content
    | _ => join (str [ascii_of_nat 10; ascii_of_nat 10])
             (filter (fun line => negb (is_bullet line)) lines)
    end in
  [ ("answer", JStr (if String.eqb (trim answer) EmptyString then content else trim answer));
    ("sections", JArr []);
    ("keyPoints", JArr (map JStr (firstn 5 keyPoints)));
    ("implications", JStr "Based on the analysis provided above.");
    ("confidence", JStr "medium") ].

(** The own properties of what [JSON.parse] returned, when properties can
    be read from it and written to it: an object, or an array with its
    indices.  Reading a property of [null] throws; writing one to a
    number, a string or a boolean throws in strict code, and each of them
    lacks all the required fields, so the write is reached. *)
Definition own_properties (parsed : json) : result (obj json) :=
  match parsed with
  | JObj props => Return props
  | JArr items =>
      Return (combine (map (fun i => NilZero.string_of_uint (Nat.to_uint i))
                         (seq 0 (List.length items))) items)
  | JNull => Throw (TypeError "Cannot read properties of null (reading 'answer')")
  | _ => Throw (TypeError "Cannot create property 'answer'")
  end.

Definition parsed_content (content : string) : result (obj json) :=
  let attempt :=
    match match_braces content with
    | Some jsonMatch => JSON_parse jsonMatch
    | None => JSON_parse content
    end in
  match attempt with
  | Some parsed => own_properties parsed
  | None => Return (structured_from_text content)
  end.

Definition fill_missing (content : string) (parsedContent : obj json) : obj json :=
  let missingFields :=
    filter (fun field => negb (truthy (get field parsedContent))) requiredFields in
  match missingFields with
  | [] => parsedContent
  | _ =>
      fill "confidence" (JStr "medium")
        (fill "implications" (JStr "See full response for implications")
           (fill "keyPoints" (JArr [])
              (fill "sections" (JArr [])
                 (fill "answer" (JStr content) parsedContent))))
  end.

(** Whatever is thrown inside is rethrown as one error.  The spread lists
    the properties of [parsedContent] as [Object.entries] does, the array
    indices first.  The metadata also holds the usage counters of the reply
    and the time of the call. *)
Definition parseResponse (r : response) : result (obj json) :=
  let failed := Throw (Error "Failed to parse Claude response") in
  match content r with
  | None | Some [] => failed
  | Some items =>
      match find is_text items with
      | Some (TextBlock content) =>
          match parsed_content content with
          | Return parsedContent =>
              Return (set "metadata"
                        (JObj [ ("model", JStr model);
                                ("requestId", JStr (response_id r)) ])
                        (entries (fill_missing content parsedContent)))
          | Throw _ => failed
          end
      | _ => failed
      end
  end.
End ParseResponse.

End LLMService.

(* ================================================================= *)
(** * services/queryProcessor.js *)

Module QueryProcessor.

Record validation : Type := { valid : bool; errors : list string }.

Definition push_if (test : bool) (message : string) (errors : list string) : list string :=
  if test then errors ++ [message] else errors.

(** [query.trim()] and [query.length] are read when [query] is truthy; a
    truthy value other than a string has no [trim]. *)
Definition validateQuery (query : value) : result validation :=
  let errors := push_if (negb (truthy query)) "Query is required" [] in
  let errors := push_if (match query with Some (JStr _) => false | _ => true end)
                  "Query must be a string" errors in
  match query with
  | Some (JStr s) =>
      let errors := push_if (truthy query && (String.length (trim s) =? 0))
                      "Query cannot be empty" errors in
      let errors := push_if (truthy query && (1000 <? String.length s))
                      "Query is too long (maximum 1000 characters)" errors in
      Return {| valid := match errors with [] => true | _ => false end; errors := errors |}
  | _ =>
      if truthy query then Throw (TypeError "query.trim is not a function")
      else Return {| valid := match errors with [] => true | _ => false end;
                     errors := errors |}
  end.

(** The patterns are tried in this order; [implications?] and
    [consequences?] are written as their two readings. *)
Definition classifyQuery (query : value) : string :=
  let normalizedQuery := TextUtils.normalizeText query in
  if has_whole_word ["tax"; "taxes"; "taxation"; "income"; "deduction"; "credit"]
       normalizedQuery
  then "tax_related"
  else if has_whole_word ["military"; "defense"; "security"; "armed forces"] normalizedQuery
  then "defense_related"
  else if has_whole_word ["environment"; "climate"; "green"; "emission"; "pollution"]
            normalizedQuery
  then "environment_related"
  else if has_whole_word ["agriculture"; "farm"; "food"; "snap"; "nutrition"] normalizedQuery
  then "agriculture_related"
  else if has_whole_word ["banking"; "finance"; "financial"; "housing"] normalizedQuery
  then "banking_related"
  else if has_whole_word ["energy"; "oil"; "gas"; "petroleum"; "renewable"] normalizedQuery
  then "energy_related"
  else if has_whole_word ["how will"; "impact"; "affect"; "implication"; "implications";
                          "consequence"; "consequences"] normalizedQuery
  then "impact_analysis"
  else if has_whole_word ["what is"; "what does"; "define"; "explain"] normalizedQuery
  then "definition_request"
  else "general_inquiry".

(** [v || default] *)
Definition or_default (v : value) (default : json) : json :=
  match v with
  | Some j => if truthy v then j else default
  | None => default
  end.

(** [v.length] *)
Definition length_of (j : json) : value :=
  match j with
  | JArr items => Some (JNum (Z.of_nat (List.length items)))
  | JStr s => Some (JNum (Z.of_nat (String.length s)))
  | JObj props => get "length" props
  | _ => None
  end.

(** [{...v}]: the own properties of an object, the elements of an array
    or the characters of a string under their indices, and nothing for
    any other value. *)
Definition spread (v : value) : obj json :=
  match v with
  | Some (JObj props) => entries props
  | Some (JArr items) => combine (map nat_to_string (seq 0 (List.length items))) items
  | Some (JStr s) =>
      combine (map nat_to_string (seq 0 (String.length s)))
        (map (fun c => JStr (String c EmptyString)) (chars s))
  | _ => []
  end.

(** A property written after a spread.  The object is sent as JSON, which
    leaves out a property whose value is [undefined]. *)
Definition put (k : string) (v : value) (o : obj json) : obj json :=
  match v with
  | Some j => set k j o
  | None => remove k o
  end.

(** [relevantSections] is not read: the sections come from the reply. *)
Definition formatResponse (llmResponse : obj json) (relevantSections : json)
    (originalQuery : value) : obj json :=
  [ ("success", JBool true) ]
  ++ LLMService.field "answer" (get "answer" llmResponse)
  ++ [ ("sections", or_default (get "sections" llmResponse) (JArr []));
       ("keyPoints", or_default (get "keyPoints" llmResponse) (JArr []));
       ("implications", or_default (get "implications" llmResponse) (JStr ""));
       ("confidence", or_default (get "confidence" llmResponse) (JStr "medium")) ]
  ++ LLMService.field "query" originalQuery
  ++ [ ("relevantSections", or_default (get "relevantSections" llmResponse) (JArr []));
       ("metadata",
        JObj (set "processingMethod" (JStr "llm_with_mcp")
                (set "queryType" (JStr (classifyQuery originalQuery))
                   (put "sectionsAnalyzed"
                      (length_of (or_default (get "relevantSections" llmResponse) (JArr [])))
                      (spread (get "metadata" llmResponse)))))) ].

End QueryProcessor.

(* ================================================================= *)
(** * services/cacheService.js *)

Module CacheService.

(** The key under which the cache holds the response to a query. *)
Definition generateKey (query : value) : string :=
  let normalizedQuery := TextUtils.normalizeText query in
  ("query:" ++ TextUtils.generateHash (Some (JStr normalizedQuery)))%string.

End CacheService.

(* ================================================================= *)
(** * routes/api.js *)

Module Routes.

Import QueryProcessor.

(** What a handler sends back: [res.status(status).json(body)]; the status
    is 200 when the handler sets none. *)
Record reply : Type := { status : nat; body : json }.

(** [const { query } = req.body] on a body that is neither [undefined] nor
    [null]: a value that is no object has no such property. *)
Definition property (k : string) (v : json) : value :=
  match v with
  | JObj props => get k props
  | _ => None
  end.

Definition invalid_query (details : list string) : reply :=
  {| status := 400;
     body := JObj [ ("success", JBool false);
                    ("error", JObj [ ("message", JStr "Invalid query");
                                     ("details", JArr (map JStr details)) ]) ] |}.

Definition internal_error : reply :=
  {| status := 500;
     body := JObj [ ("success", JBool false);
                    ("error", JObj [ ("message", JStr "Failed to process query");
                                     ("type", JStr "internal_error") ]) ] |}.

Definition validation_failed : reply :=
  {| status := 500;
     body := JObj [ ("success", JBool false);
                    ("error", JObj [ ("message", JStr "Failed to validate query") ]) ] |}.

Section Api.
(** [queryProcessor.processQuery]: it runs inside its own [try] and answers
    with a response in every case. *)
Variable processQuery : string -> value -> json.

(** [POST /api/query].  Destructuring a missing body throws, as does
    [validateQuery] on some queries and [query.substring] on a value that
    is no string; the [catch] of the handler answers all of them. *)
Definition post_query (requestBody : value) : reply :=
  match requestBody with
  | None | Some JNull => internal_error
  | Some b =>
      let query := property "query" b in
      let options := match property "options" b with
                     | None => Some (JObj [])
                     | given => given
                     end in
      match validateQuery query with
      | Throw _ => internal_error
      | Return validation =>
          if negb (valid validation) then invalid_query (errors validation)
          else match query with
               | Some (JStr q) => {| status := 200; body := processQuery q options |}
               | _ => internal_error
               end
      end
  end.

(** [POST /api/validate] *)
Definition post_validate (requestBody : value) : reply :=
  match requestBody with
  | None | Some JNull => validation_failed
  | Some b =>
      match validateQuery (property "query" b) with
      | Throw _ => validation_failed
      | Return validation =>
          {| status := 200;
             body := JObj [ ("success", JBool true);
                            ("valid", JBool (valid validation));
                            ("errors", JArr (map JStr (errors validation))) ] |}
      end
  end.
End Api.

End Routes.

(* ================================================================= *)
(** * mcpServer.js

    The same five tools, served over the Model Context Protocol.  A handler
    returns one text block that holds the [JSON.stringify] text of a value;
    the model gives that value. *)

Module McpServer.

Import TextUtils LLMService.
Module DP := DocumentParser.

(** [const { query, maxResults = 5 } = args], for arguments that are an
    object *)
Definition requested (args : tool_input) : Z :=
  match maxResults args with Some n => n | None => 5%Z end.

Definition result_entry (r : DP.ranked) : result json :=
  match DP.ranked_value r with
  | DP.Absent => Throw (TypeError "Cannot read properties of undefined (reading 'id')")
  | DP.Null => Throw (TypeError "Cannot read properties of null (reading 'id')")
  | DP.Foreign _ =>
      Return (JObj [ ("score", score_json (DP.score r));
                     ("excerpt", JStr (truncateText None 300)) ])
  | DP.Stored s =>
      Return (JObj [ ("id", JStr (DP.id s));
                     ("title", JStr (DP.title s));
                     ("content", JStr (DP.fullText s));
                     ("level", JNum (Z.of_nat (DP.level s)));
                     ("type", JStr (DP.type s));
                     ("score", score_json (DP.score r));
                     ("excerpt", JStr (truncateText (DP.vstr (DP.fullText s)) 300)) ])
  end.

Definition searchSections (this : DP.parser) (args : tool_input) : result json :=
  match query args with
  | Some (JStr q) =>
      if String.eqb q "" then Throw (Error "Query parameter is required and must be a string")
      else
        _ <- DP.getDocumentData this ;;
        searchResults <- DP.searchSections this (query args) (requested args) ;;
        formattedResults <- mapM result_entry searchResults ;;
        let found := nat_to_string (List.length searchResults) in
        Return (JObj [ ("query", JStr q);
                       ("results", JArr formattedResults);
                       ("totalFound", JNum (Z.of_nat (List.length searchResults)));
                       ("message",
                        JStr (if 0 <? List.length searchResults
                              then "Found " ++ found ++ " sections matching "
                                   ++ quote ++ q ++ quote
                              else "No sections found matching " ++ quote ++ q ++ quote)) ])
  | _ => Throw (Error "Query parameter is required and must be a string")
  end.

(** The sections have no property [parent] (their link is [parentId]), so
    the payload has none either. *)
Definition getSectionById (this : DP.parser) (args : tool_input) : result json :=
  match sectionId args with
  | Some (JStr i) =>
      if String.eqb i "" then Throw (Error "sectionId parameter is required and must be a string")
      else
        documentData <- DP.getDocumentData this ;;
        match DP.section_at i documentData with
        | DP.Stored s =>
            Return (JObj [ ("id", JStr (DP.id s));
                           ("title", JStr (DP.title s));
                           ("content", JStr (DP.fullText s));
                           ("level", JNum (Z.of_nat (DP.level s)));
                           ("type", JStr (DP.type s));
                           ("children", JArr (map JStr (DP.children s))) ])
        | DP.Foreign true => Return (JObj [ ("children", JArr []) ])
        | _ => Throw (Error ("Section with ID " ++ quote ++ i ++ quote ++ " not found"))
        end
  | _ => Throw (Error "sectionId parameter is required and must be a string")
  end.

End McpServer.

(* ================================================================= *)
(** * A small bill and a scripted model

    The data on which the statements below are run. *)

Module Sample.

Import DocumentParser LLMService.

Definition leaf (i heading body : string) : node :=
  NElem [("id", i)] "" [("header", [NText heading]); ("text", [NText body])].

Definition bill : node :=
  NElem [] ""
    [ ("title",
        [ NElem [("id", "T1")] ""
            [ ("header", [NText "Agriculture"]);
              ("section",
                [ leaf "S1" "Farm subsidy program" "A farm subsidy program is established.";
                  leaf "S2" "Crop insurance" "Insurance is offered to every farm.";
                  leaf "S3" "Farm credit" "Farm credit and farm loans are extended.";
                  leaf "S4" "Nutrition" "Food from each farm reaches every school." ]) ];
          NElem [("id", "T2")] ""
            [ ("header", [NText "Defense"]);
              ("section",
                [ leaf "S5" "Defense spending budget" "The defense spending budget is set.";
                  leaf "S6" "Bases" "No base is built on a farm." ]) ] ]) ].

Definition never (n : node) : bool := false.

Definition snapshot : documentData :=
  match buildDocumentStructure never bill with
  | Return d => d
  | Throw _ => {| sections := []; sections_prototype := None; searchIndex := [] |}
  end.

Definition library : parser := Some snapshot.

Definition no_input : tool_input :=
  {| query := None; sectionId := None; topic := None; impactType := None;
     maxResults := None |}.

Definition search_reply : response :=
  {| content :=
       Some [ TextBlock "Let me look this up.";
              ToolUse "toolu_1" "search_by_topic"
                {| query := None; sectionId := None; topic := Some (JStr "agriculture");
                   impactType := None; maxResults := None |};
              ToolUse "toolu_2" "get_section_by_id"
                {| query := None; sectionId := Some (JStr "S99"); topic := None;
                   impactType := None; maxResults := None |} ];
     response_id := "msg_1" |}.

Definition text_reply (text : string) : response :=
  {| content := Some [TextBlock text]; response_id := "msg_2" |}.

(** A model that asks for tools whatever it is sent. *)
Definition always_tools (request : payload) : result response := Return search_reply.

Definition first_request : payload :=
  {| messages := [ {| msg_role := user;
                      msg_body := Prompt "How does the bill change farm subsidies?" |} ];
     payload_tools := tools |}.

End Sample.

(* ================================================================= *)
(** * The vocabulary of the statements *)

Import TextUtils QueryProcessor LLMService DocumentParser.

(** ** Similarity *)

(** The index in the words of the specification: the distinct tokens the
    two texts share over the distinct tokens of either, and 0 when one of
    the texts has no token. *)
Definition jaccard_index (a b : list string) : Q :=
  match a, b with
  | [], _ | _, [] => 0%Q
  | _, _ =>
      Z.of_nat (List.length (nodup string_dec (filter (fun w => includes w b) a)))
      # Pos.of_nat (List.length (nodup string_dec (a ++ b)))
  end.

(** ** Tool calls and their results *)

(** What the conversation owes to one call: an entry with the id of the
    call, holding the result of the tool or the message of its failure. *)
Definition answer (this : DP.parser) (call : tool_call) : tool_result :=
  {| result_id := call_id call;
     result_content := match dispatch this call with
                       | Return result => result
                       | Throw e => error_payload (Js.message e)
                       end |}.

(** The turn [reply] answers the calls of [items]: it is the user's, it
    holds tool results only, their ids are, in order, the ids of the calls,
    and where a call failed the entry holds the message of the failure. *)
Definition answered (this : DP.parser) (items : list block) (reply : message) : Prop :=
  msg_role reply = user
  /\ exists results,
       msg_body reply = Blocks (as_blocks results)
       /\ List.length results = List.length (tool_uses items)
       /\ map result_id results = map call_id (tool_uses items)
       /\ forall i call e,
            nth_error (tool_uses items) i = Some call ->
            dispatch this call = Throw e ->
            option_map result_content (nth_error results i)
            = Some (error_payload (Js.message e)).

(** Every assistant turn of a history is followed by the turn that answers
    it. *)
Fixpoint paired (this : DP.parser) (history : list message) : Prop :=
  match history with
  | [] => True
  | m :: rest =>
      (msg_role m = assistant ->
       match msg_body m, rest with
       | Blocks items, reply :: _ => answered this items reply
       | _, _ => False
       end)
      /\ paired this rest
  end.

(** A reply that asks for one call. *)
Definition reply_of (call : tool_call) : response :=
  {| LLMService.content := Some [ToolUse (call_id call) (call_name call) (call_input call)];
     response_id := "msg" |}.

(** ** The end of an exhausted conversation *)

(** The state in which the loop starts on a first reply. *)
Definition start (originalPayload : payload) (r : response) : loop_state :=
  {| currentResponse := r;
     conversationHistory := messages originalPayload;
     iterationCount := 0 |}.

(** The request that closes an exhausted conversation: the history, the
    pending reply, the results of its calls, and the final instruction. *)
Definition final_request (originalPayload : payload) (st : loop_state)
    (results : list tool_result) : payload :=
  {| messages := conversationHistory st
                   ++ [assistant_turn (currentResponse st)]
                   ++ [results_turn results]
                   ++ [final_turn];
     payload_tools := payload_tools originalPayload |}.

(** ** Parent links *)






(** ** Search payloads *)

(** The array under [results] of a payload. *)
Definition results_of (payload : json) : option (list json) :=
  match payload with
  | JObj props => match get "results" props with
                  | Some (JArr results) => Some results
                  | _ => None
                  end
  | _ => None
  end.

(** The value under [searchKeywords] of a payload. *)
Definition keywords_of (payload : json) : option json :=
  match payload with
  | JObj props => get "searchKeywords" props
  | _ => None
  end.

(** The payload reports a failure: it has an [error] property. *)
Definition is_error_payload (payload : json) : bool :=
  match payload with
  | JObj props => has "error" props
  | _ => false
  end.

(** ** Rankings *)

(** Entries of a ranking are pairs of a section id and a score. *)
Definition higher_first (a b : string * nat) : Prop := snd b <= snd a.

Definition scored (n : nat) (e : string * nat) : bool := snd e =? n.

(** The score of a section in a tally, 0 when it has none. *)
Definition score_of (scores : obj nat) (i : string) : nat :=
  match get i scores with Some n => n | None => 0 end.

(** A tally of section ids: one more for the id, which comes last when it
    is new. *)
Definition count_up (scores : obj nat) (i : string) : obj nat :=
  match get i scores with
  | Some n => set i (n + 1) scores
  | None => set i 1 scores
  end.

Definition by_count_desc (a b : string * nat) : Z := Z.of_nat (snd b) - Z.of_nat (snd a).

(** An entry of a tally as an entry of the score object. *)
Definition counted (e : string * nat) : string * score_value := (fst e, Count (snd e)).

(** The number that the score object holds for an id: 0 when it has no
    score, nothing when the score is a text. *)
Definition tallied (scores : obj score_value) (i : string) : option nat :=
  match get i scores with
  | None => Some 0
  | Some (Count n) => Some n
  | Some (Text _) => None
  end.

(** No key of the object is a member name of [Object.prototype]. *)
Definition member_free {V} (o : obj V) : bool :=
  forallb (fun kv => negb (includes (fst kv) prototype_members)) o.

(** The ids listed under a keyword; none when the index has no own list
    for it. *)
Definition matches (searchIndex : obj (list string)) (keyword : string) : list string :=
  match read keyword searchIndex with
  | Own ids => ids
  | _ => []
  end.

Fixpoint distinct (l : list string) : bool :=
  match l with
  | [] => true
  | x :: r => negb (includes x r) && distinct r
  end.

(** No list of the index names a section twice. *)
Definition distinct_lists (searchIndex : obj (list string)) : bool :=
  forallb (fun entry => distinct (snd entry)) searchIndex.

(** No section named in the index has an array index for id. *)
Definition plain_ids (searchIndex : obj (list string)) : bool :=
  forallb (fun entry => forallb (fun i => negb (is_index i)) (snd entry)) searchIndex.

(** In how many places of the query a keyword that lists the section
    stands. *)
Definition occurrences (searchIndex : obj (list string)) (keywords : list string)
    (i : string) : nat :=
  List.length (filter (fun keyword => includes i (matches searchIndex keyword)) keywords).

(** The number of distinct tokens of the query that list a section. *)
Definition distinct_matches (searchIndex : obj (list string)) (keywords : list string)
    (i : string) : nat :=
  List.length (nodup string_dec
                 (filter (fun keyword => includes i (matches searchIndex keyword)) keywords)).

(** The result entry made of an entry of the score object. *)
Definition rank (d : documentData) (e : string * score_value) : ranked :=
  {| ranked_value := section_at (fst e) d; score := snd e |}.

(** The result entry made of an entry of a ranking. *)
Definition view (d : documentData) (e : string * nat) : ranked := rank d (counted e).

(** The sections a query meets, in the order it first meets them, each with
    the number of places of the query that meet it. *)
Definition met (searchIndex : obj (list string)) (keywords : list string)
    : list (string * nat) :=
  map (fun i => (i, occurrences searchIndex keywords i))
    (Set_from (flat_map (matches searchIndex) keywords)).

Definition ranked_id (r : ranked) : option string := option_map id (ranked_section r).

(** ** The declared schemas *)

Definition has_type (type : string) (j : json) : bool :=
  match j with
  | JStr _ => String.eqb type "string"
  | JNum _ => String.eqb type "number"
  | _ => false
  end.

(** The arguments satisfy the input schema of the tool: the required ones
    are given, and each one given has the declared type and, where the
    schema enumerates the allowed values, is one of them. *)
Definition conforms (t : tool) (input : tool_input) : bool :=
  forallb (fun name => match argument name input with Some _ => true | None => false end)
    (required t)
  && forallb (fun p =>
                match argument (prop_name p) input with
                | None => true
                | Some j =>
                    has_type (prop_type p) j
                    && match prop_enum p, j with
                       | Some allowed, JStr s => includes s allowed
                       | Some _, _ => false
                       | None, _ => true
                       end
                end)
       (properties t).

(** The tool of that name among those sent with the requests. *)
Definition schema_of (name : string) : option tool :=
  find (fun t => String.eqb (tool_name t) name) tools.

Definition accepted_by_schema (call : tool_call) : option bool :=
  option_map (fun t => conforms t (call_input call)) (schema_of (call_name call)).

(** The table and the argument of the two tools that search by a name. *)
Definition named_search (call : tool_call) : option (obj (list string) * value) :=
  if String.eqb (call_name call) "search_by_topic"
  then Some (topicKeywords, topic (call_input call))
  else if String.eqb (call_name call) "search_financial_impact"
  then Some (impactKeywords, impactType (call_input call))
  else None.

(** ** Texts *)

(** Every white-space character of [l] is a blank that follows no other
    blank ([after_blank]: the character before [l] was one). *)
Fixpoint single_blanks (after_blank : bool) (l : list ascii) : bool :=
  match l with
  | [] => true
  | c :: r =>
      if is_space c
      then Ascii.eqb c " "%char && negb after_blank && single_blanks true r
      else single_blanks false r
  end.

Definition space_at (c : option ascii) : bool :=
  match c with Some c => is_space c | None => false end.

Definition is_upper (c : ascii) : bool := between 65 90 c.

(** A text in normal form: single blanks only, none of them in front or
    behind, and no letter in upper case. *)
Definition is_normalized (s : string) : bool :=
  let l := chars s in
  single_blanks false l
  && negb (space_at (hd_error l))
  && negb (space_at (hd_error (rev l)))
  && forallb (fun c => negb (is_upper c)) l.

(** The characters of the normal form of a text. *)
Definition normalized_chars (l : list ascii) : list ascii :=
  map lower (trim_chars (collapse_spaces false l)).

(** The state in which [collapse_spaces] leaves a piece of text. *)
Definition in_run_after (b : bool) (p : list ascii) : bool :=
  match rev p with
  | [] => b
  | c :: _ => is_space c
  end.

(** A lower-case letter, a digit or the underscore. *)
Definition lower_word_char (c : ascii) : bool :=
  between 97 122 c || is_digit c || (code c =? 95).

(** The text holds a tag: a [<] with a [>] somewhere after it. *)
Fixpoint has_tag (l : list ascii) : bool :=
  match l with
  | [] => false
  | c :: r => (Ascii.eqb c "<"%char && existsb (Ascii.eqb ">"%char) r) || has_tag r
  end.

(** The distinct tokens two lists share, and those of either. *)
Definition shared (a b : list string) : list string :=
  nodup string_dec (filter (fun w => includes w b) a).

Definition either (a b : list string) : list string := nodup string_dec (a ++ b).

(** The polynomial in 31 whose coefficients are the character codes. *)
Definition polynomial (l : list ascii) : Z :=
  fold_left (fun p c => (31 * p + Z.of_nat (code c))%Z) l 0%Z.

(** The number a numeral in base 36 stands for. *)
Definition digit36_value (c : ascii) : option Z :=
  if is_digit c then Some (Z.of_nat (code c - 48))
  else if between 97 122 c then Some (Z.of_nat (code c - 87))
  else None.

Definition numeral36 (acc : option Z) (c : ascii) : option Z :=
  match acc, digit36_value c with
  | Some a, Some d => Some (a * 36 + d)%Z
  | _, _ => None
  end.

Definition base36 (s : string) : option Z :=
  match chars s with
  | [] => None
  | l => fold_left numeral36 l (Some 0%Z)
  end.

(** ** The section map and the index *)

(** The ids of the nodes of a tree whose extraction is not skipped, in
    document order. *)
Fixpoint extracted (throws : node -> bool) (n : node) : list string :=
  match n with
  | NText _ => []
  | NElem attrs _ children =>
      match attr "id" attrs with
      | Some i => if throws n then [] else [i]
      | None => []
      end
      ++ flat_map (fun entry => flat_map (extracted throws) (snd entry)) children
  end.

(** The sections that the traversal extracts, in the order in which it
    stores them. *)
Fixpoint extractions (throws : node -> bool) (n : node) (parentId : option string)
    (level : nat) : list section :=
  match n with
  | NText _ => []
  | NElem attrs _ children =>
      match extractSectionDataSimple throws n parentId level with
      | Some section => [section]
      | None => []
      end
      ++ flat_map
           (fun entry =>
              flat_map
                (fun item =>
                   match item with
                   | NText _ => []
                   | NElem iattrs _ _ =>
                       match attr "id" iattrs with
                       | Some _ =>
                           extractions throws item
                             (match attr "id" attrs with Some i => Some i | None => parentId end)
                             (S level)
                       | None => extractions throws item parentId level
                       end
                   end)
                (snd entry))
           children
  end.

(** The ids under which the assignment [sections[id] = section] makes a
    key: all but [__proto__]. *)
Definition makes_key (i : string) : bool := negb (String.eqb i "__proto__").

(** A section stored under its id. *)
Definition store (sections : obj section) (s : section) : obj section :=
  set (id s) s sections.

(** The map before the traversal. *)
Definition no_sections : section_map :=
  {| own_sections := []; replaced_prototype := None |}.

(** The tokens under which a section is indexed: those of its title and
    those of its full text. *)
Definition section_keywords (s : section) : list string :=
  extractKeywords (vstr (title s)) ++ extractKeywords (vstr (fullText s)).

(** The index has no own list under a member name of [Object.prototype]. *)
Definition no_member_key (searchIndex : obj (list string)) : Prop :=
  forall k, In k prototype_members -> get k searchIndex = None.

(** The tokens on which a lookup in the index finds an inherited member. *)
Definition member_token (k : string) : bool :=
  String.eqb k "constructor" || String.eqb k "__proto__".

(** ** Payloads of the tools *)

(** The string under a property of a payload. *)
Definition string_property (k : string) (payload : json) : option string :=
  match payload with
  | JObj props => match get k props with
                  | Some (JStr s) => Some s
                  | _ => None
                  end
  | _ => None
  end.

(** An entry of a result list whose two texts are within their bounds. *)
Definition entry_within (contentLength : nat) (entry : json) : Prop :=
  exists content excerpt,
    string_property "content" entry = Some content
    /\ String.length content <= contentLength + 3
    /\ string_property "excerpt" entry = Some excerpt
    /\ String.length excerpt <= 203.

(** The three tools that search. *)
Definition search_tools : list string :=
  ["search_sections"; "search_by_topic"; "search_financial_impact"].

(** What [get_section_by_id] returns for a section without children. *)
Definition section_payload (s : section) : json :=
  JObj [ ("id", JStr (id s));
         ("title", JStr (title s));
         ("content", JStr (truncateText (vstr (fullText s)) 600));
         ("level", JNum (Z.of_nat (level s)));
         ("type", JStr (type s));
         ("children", JArr []) ].

(** ** Rounds of the conversation *)

(** A trace made of rounds, for the reply [reply] at hand, the history
    [history] sent so far and [left] requests to go before the closing one.
    A round is the execution of the tool calls that the reply at hand asks
    for, then one request.  The request carries the tools [tools] and the
    history followed by the reply at hand and by the results of its calls;
    the reply of the model to it is the reply at hand of the next round,
    and a request that fails ends the trace.  When no request is left, the
    request is the closing one: it also carries the final instruction, and
    it ends the trace. *)
Fixpoint rounds (post : payload -> result response) (this : DP.parser) (tools : list tool)
    (left : nat) (history : list message) (reply : response) (t : list event)
    {struct t} : Prop :=
  match t with
  | [] => True
  | Executed results :: Posted request :: t' =>
      requests_tools reply = true
      /\ executeToolCalls this reply = Return results
      /\ payload_tools request = tools
      /\ match left with
         | 0 =>
             messages request
             = history ++ [assistant_turn reply; results_turn results; final_turn]
             /\ t' = []
         | S left' =>
             messages request = history ++ [assistant_turn reply; results_turn results]
             /\ match post request with
                | Return next => rounds post this tools left' (messages request) next t'
                | Throw _ => t' = []
                end
         end
  | _ => False
  end.

(** ** Replies and responses *)

(** The text that [parseResponse] hands to [JSON.parse]: from the first
    opening brace to the last closing brace when there are such, else the
    whole text. *)
Definition candidate (text : string) : string :=
  match match_braces text with
  | Some jsonMatch => jsonMatch
  | None => text
  end.

(** The fields of an answer. *)
Definition answer_fields : list string :=
  ["answer"; "sections"; "keyPoints"; "implications"; "confidence"].

(** ** Classes of queries *)

(** A word that [extractKeywords] keeps when it meets it. *)
Definition kept_word (w : string) : bool :=
  (2 <? String.length w) && negb (includes w stopWords) && negb (purely_numeric w)
  && forallb is_word (chars w).

Definition tax_words : list string :=
  ["tax"; "taxes"; "taxation"; "income"; "deduction"; "credit"].

(** ** Requests to the API *)

(** The options that the handler passes on: those of the body, or an empty
    object. *)
Definition options_of (b : json) : value :=
  match Routes.property "options" b with
  | None => Some (JObj [])
  | given => given
  end.

(** A query that the API processes: a string that is not blank and has at
    most 1000 characters. *)
Definition acceptable (q : string) : Prop := trim q <> "" /\ String.length q <= 1000.

(** ** Searches by a table of keywords *)

(** The search tokens of a list of keywords: those of each keyword, in
    order. *)
Definition keyword_tokens (keywords : list string) : list string :=
  flat_map (fun k => extractKeywords (vstr k)) keywords.

(** What a search by a table answers for the name [name] with the keywords
    [keywords]: the name and the keywords as given, and one entry for each
    section found, each of which is stored in the section map under its id
    and has a token of one of the keywords among the tokens of its title or
    text. *)
Definition table_answer (d : documentData) (argName name : string)
    (keywords : list string) (payload : json) : Prop :=
  exists (found : list ranked) (results : list json),
    payload = JObj [ (argName, JStr name);
                     ("searchKeywords", JArr (map JStr keywords));
                     ("results", JArr results);
                     ("totalFound", JNum (Z.of_nat (List.length found))) ]
    /\ mapM (result_entry 250) found = Return results
    /\ List.length results = List.length found
    /\ forall r, In r found ->
         exists s w,
           ranked_section r = Some s
           /\ get (DP.id s) (sections d) = Some s
           /\ In w (keyword_tokens keywords)
           /\ In w (section_keywords s).

(** The check of one entry of a table: the tokens of the joined keywords
    are the tokens of the keywords, and none of them is a member name. *)
Definition joined_plainly (keywords : list string) : bool :=
  let tokens := extractKeywords (vstr (join " OR " keywords)) in
  (if list_eq_dec string_dec tokens (keyword_tokens keywords) then true else false)
  && negb (existsb member_token tokens).

(* ================================================================= *)
(** * Cases

    Replies, calls and bills at which the statements are run. *)

Definition section_S1 : section :=
  match get "S1" (sections Sample.snapshot) with
  | Some s => s
  | None => {| id := ""; type := ""; title := ""; content := ""; fullText := "";
               level := 0; parentId := None; children := [];
               metadata := {| sectionType := ""; changed := None; displayStyle := None |} |}
  end.


Definition newline : string := str [ascii_of_nat 10].

Definition reply_with_all_fields : response :=
  Sample.text_reply
    (quoted "Here is info: {'answer':'x','sections':['S1'],'keyPoints':['p1'],'implications':'i','confidence':'high'}").

Definition reply_with_bullets : response :=
  Sample.text_reply ("- point one" ++ newline ++ "- point two").

Definition reply_without_confidence : response :=
  Sample.text_reply
    (quoted "{'answer':'x','sections':['S1'],'keyPoints':['p1'],'implications':'i'}").

Definition reply_with_number : response := Sample.text_reply "42".

Definition farm_below_zero : tool_input :=
  {| query := Some (JStr "farm"); sectionId := None; topic := None; impactType := None;
     maxResults := Some (-1)%Z |}.

Definition agriculture_below_zero : tool_call :=
  {| call_id := "toolu_6"; call_name := "search_by_topic";
     call_input := {| query := None; sectionId := None; topic := Some (JStr "agriculture");
                      impactType := None; maxResults := Some (-1)%Z |} |}.

Definition impact_below_zero : tool_call :=
  {| call_id := "toolu_7"; call_name := "search_financial_impact";
     call_input := {| query := None; sectionId := None; topic := None;
                      impactType := Some (JStr "farm"); maxResults := Some (-1)%Z |} |}.

Definition farm_query : value := Some (JStr "farm subsidy farm").

Definition farm_found : list ranked :=
  match searchSections Sample.library farm_query 3 with
  | Return found => found
  | Throw _ => []
  end.

(** A bill in which one section has an array index for id. *)
Definition numbered_bill : node :=
  NElem [] ""
    [ ("section", [ Sample.leaf "b" "Alpha" "alpha grants";
                    Sample.leaf "2" "Beta" "beta grants" ]) ].

Definition numbered_library : parser :=
  match buildDocumentStructure Sample.never numbered_bill with
  | Return d => Some d
  | Throw _ => None
  end.

(** A bill in which a section has the name of a member of
    [Object.prototype] for id. *)
Definition member_bill : node :=
  NElem [] ""
    [ ("section", [ Sample.leaf "toString" "Alpha" "alpha grants";
                    Sample.leaf "b" "Beta" "alpha loans" ]) ].

Definition member_library : parser :=
  match buildDocumentStructure Sample.never member_bill with
  | Return d => Some d
  | Throw _ => None
  end.



Definition topic_missing : tool_call :=
  {| call_id := "toolu_3"; call_name := "search_by_topic"; call_input := Sample.no_input |}.

Definition topic_outside_enum : tool_call :=
  {| call_id := "toolu_4"; call_name := "search_by_topic";
     call_input := {| query := None; sectionId := None; topic := Some (JStr "farm");
                      impactType := None; maxResults := None |} |}.

Definition query_missing : tool_call :=
  {| call_id := "toolu_5"; call_name := "search_sections"; call_input := Sample.no_input |}.

Definition farm_search : tool_call :=
  {| call_id := "toolu_8"; call_name := "search_sections";
     call_input := {| query := Some (JStr "farm"); sectionId := None; topic := None;
                      impactType := None; maxResults := None |} |}.

(** The arguments of a call that fetches a section. *)
Definition fetch (i : string) : tool_input :=
  {| query := None; sectionId := Some (JStr i); topic := None; impactType := None;
     maxResults := None |}.

(** A transport that fails on every request. *)
Definition transport_down (request : payload) : result response :=
  Throw (Error "Network error connecting to Claude API").

Definition model_name : string := "claude-3-5-sonnet-20241022".

(** The arguments of a search by topic. *)
Definition about (name : string) : tool_input :=
  {| query := None; sectionId := None; topic := Some (JStr name); impactType := None;
     maxResults := None |}.

(* ================================================================= *)
(** * Properties *)

(** ** Lists of strings *)

Lemma includes_In (x : string) (l : list string) : includes x l = true <-> In x l.
Proof.
  unfold includes. rewrite existsb_exists. split.
  - intros (y & Hy & E). apply String.eqb_eq in E. now subst.
  - intros H. exists x. split; [assumption | apply String.eqb_refl].
Qed.

Lemma includes_false (x : string) (l : list string) : includes x l = false <-> ~ In x l.
Proof.
  rewrite <- includes_In. destruct (includes x l); split; congruence.
Qed.

Lemma Set_add_In (s : list string) (x y : string) :
  In y (Set_add s x) <-> In y s \/ y = x.
Proof.
  unfold Set_add. destruct (includes x s) eqn:E.
  - apply includes_In in E. split; [tauto | intros [H | ->]; assumption].
  - rewrite in_app_iff. simpl. intuition (subst; auto).
Qed.

Lemma Set_add_NoDup (s : list string) (x : string) : NoDup s -> NoDup (Set_add s x).
Proof.
  intros H. unfold Set_add. destruct (includes x s) eqn:E; [assumption |].
  apply includes_false in E.
  apply NoDup_app; [assumption | repeat constructor; simpl; tauto |].
  intros y Hy [<- | []]. contradiction.
Qed.

Lemma fold_Set_add_In (l s : list string) (y : string) :
  In y (fold_left Set_add l s) <-> In y s \/ In y l.
Proof.
  revert s. induction l as [| x l IH]; intros s; simpl.
  - tauto.
  - rewrite IH, Set_add_In. split; intros H; intuition (subst; auto).
Qed.

Lemma fold_Set_add_NoDup (l s : list string) : NoDup s -> NoDup (fold_left Set_add l s).
Proof.
  revert s. induction l as [| x l IH]; intros s H; simpl; [assumption |].
  apply IH. now apply Set_add_NoDup.
Qed.

Lemma Set_from_In (l : list string) (y : string) : In y (Set_from l) <-> In y l.
Proof. unfold Set_from. rewrite fold_Set_add_In. simpl. tauto. Qed.

Lemma Set_from_NoDup (l : list string) : NoDup (Set_from l).
Proof. apply fold_Set_add_NoDup. constructor. Qed.

(** Two duplicate-free lists with the same members have the same length. *)
Lemma same_members_same_size (a b : list string) :
  NoDup a -> NoDup b -> (forall x, In x a <-> In x b) -> List.length a = List.length b.
Proof.
  intros Ha Hb H. apply Permutation_length. now apply NoDup_Permutation.
Qed.

(** ** Tokens (C8) *)

(** C8.  For every input, each token returned by [extractKeywords] has more
    than two characters, is no stop word and is not made of digits only. *)
Theorem extractKeywords_filters (t : value) :
  Forall (fun word => 2 < String.length word
                      /\ ~ In word stopWords
                      /\ purely_numeric word = false)
         (extractKeywords t).
Proof.
  unfold extractKeywords. destruct (as_string t); [| constructor].
  apply Forall_forall. intros word H.
  apply filter_In in H. destruct H as [H Hnum].
  apply filter_In in H. destruct H as [_ H].
  apply andb_true_iff in H. destruct H as [Hlen Hstop].
  apply Nat.ltb_lt in Hlen. apply negb_true_iff in Hstop, Hnum.
  apply includes_false in Hstop. auto.
Qed.

(** What the tokenizer keeps of two sample texts. *)
Example extractKeywords_sample :
  extractKeywords (Some (JStr "The Farm  subsidy, program of 2025 and x9!"))
  = ["farm"; "subsidy"; "program"]
  /\ extractKeywords (Some (JStr "the of and")) = []
  /\ extractKeywords (Some (JNum 7)) = [].
Proof. repeat split; reflexivity. Qed.

(** ** Similarity (C9) *)

Lemma Set_from_size_nodup (l : list string) :
  Set_size (Set_from l) = List.length (nodup string_dec l).
Proof.
  apply same_members_same_size.
  - apply Set_from_NoDup.
  - apply NoDup_nodup.
  - intros x. rewrite Set_from_In, nodup_In. tauto.
Qed.

Lemma Set_from_nil (l : list string) : Set_from l = [] <-> l = [].
Proof.
  split; [| intros ->; reflexivity].
  intros H. destruct l as [| x l]; [reflexivity |].
  assert (Hx : In x (Set_from (x :: l))) by (apply Set_from_In; now left).
  rewrite H in Hx. destruct Hx.
Qed.

Lemma Set_size_zero (l : list string) : (Set_size (Set_from l) =? 0) = true <-> l = [].
Proof.
  rewrite Nat.eqb_eq. unfold Set_size. rewrite length_zero_iff_nil. apply Set_from_nil.
Qed.

Lemma extractKeywords_falsy (t : value) : truthy t = false -> extractKeywords t = [].
Proof.
  unfold extractKeywords, as_string.
  destruct t as [[| | | s | |] |]; try reflexivity.
  simpl. destruct (String.eqb s ""); [reflexivity | discriminate].
Qed.

Lemma calculateSimilarity_sizes (a b : value) :
  extractKeywords a <> [] -> extractKeywords b <> [] ->
  calculateSimilarity a b
  = Z.of_nat (Set_size (Set_from (filter (fun w => includes w (Set_from (extractKeywords b)))
                                    (Set_from (extractKeywords a)))))
    # Pos.of_nat (Set_size (Set_from (Set_from (extractKeywords a)
                                       ++ Set_from (extractKeywords b)))).
Proof.
  intros Ha Hb. unfold calculateSimilarity.
  destruct (truthy a) eqn:Ta; [| now apply extractKeywords_falsy in Ta].
  destruct (truthy b) eqn:Tb; [| now apply extractKeywords_falsy in Tb].
  simpl.
  destruct (Set_size (Set_from (extractKeywords a)) =? 0) eqn:Ea;
    [now apply Set_size_zero in Ea |].
  destruct (Set_size (Set_from (extractKeywords b)) =? 0) eqn:Eb;
    [now apply Set_size_zero in Eb |].
  reflexivity.
Qed.

Lemma calculateSimilarity_empty (a b : value) :
  extractKeywords a = [] \/ extractKeywords b = [] -> calculateSimilarity a b = 0%Q.
Proof.
  intros H. unfold calculateSimilarity.
  destruct (negb (truthy a) || negb (truthy b)); [reflexivity |].
  destruct H as [H | H]; rewrite H; simpl; [reflexivity |].
  now rewrite orb_true_r.
Qed.

Lemma calculateSimilarity_is_jaccard (a b : value) :
  calculateSimilarity a b = jaccard_index (extractKeywords a) (extractKeywords b).
Proof.
  destruct (extractKeywords a) as [| x l] eqn:Ea.
  { rewrite calculateSimilarity_empty by auto. reflexivity. }
  destruct (extractKeywords b) as [| y m] eqn:Eb.
  { rewrite calculateSimilarity_empty by auto. reflexivity. }
  rewrite calculateSimilarity_sizes by congruence. rewrite Ea, Eb.
  unfold jaccard_index. f_equal.
  - f_equal. apply same_members_same_size.
    + apply Set_from_NoDup.
    + apply NoDup_nodup.
    + intros w. rewrite Set_from_In, nodup_In, !filter_In, Set_from_In.
      rewrite !includes_In, Set_from_In. tauto.
  - f_equal. apply same_members_same_size.
    + apply Set_from_NoDup.
    + apply NoDup_nodup.
    + intros w. rewrite Set_from_In, nodup_In, !in_app_iff, !Set_from_In. tauto.
Qed.

Lemma jaccard_index_sym (a b : list string) : jaccard_index a b = jaccard_index b a.
Proof.
  destruct a as [| x a], b as [| y b]; try reflexivity.
  unfold jaccard_index. f_equal.
  - f_equal. apply same_members_same_size; try apply NoDup_nodup.
    intros w. rewrite !nodup_In, !filter_In, !includes_In. tauto.
  - f_equal. apply same_members_same_size; try apply NoDup_nodup.
    intros w. rewrite !nodup_In, !in_app_iff. tauto.
Qed.

Lemma jaccard_index_self (a : list string) : a <> [] -> (jaccard_index a a == 1)%Q.
Proof.
  intros Ha. destruct a as [| x a]; [congruence |].
  unfold jaccard_index.
  assert (E : List.length (nodup string_dec (filter (fun w => includes w (x :: a)) (x :: a)))
              = List.length (nodup string_dec ((x :: a) ++ x :: a))).
  { apply same_members_same_size; try apply NoDup_nodup.
    intros w. rewrite !nodup_In, filter_In, includes_In, in_app_iff. tauto. }
  rewrite E.
  assert (Hpos : List.length (nodup string_dec ((x :: a) ++ x :: a)) <> 0).
  { rewrite length_zero_iff_nil. intros H.
    assert (Hx : In x (nodup string_dec ((x :: a) ++ x :: a)))
      by (apply nodup_In; now left).
    rewrite H in Hx. destruct Hx. }
  destruct (List.length (nodup string_dec ((x :: a) ++ x :: a))) as [| n];
    [congruence |].
  unfold Qeq. cbn [Qnum Qden]. rewrite <- Pos.of_nat_succ. lia.
Qed.

(** C9.  [calculateSimilarity] is the Jaccard index of the token sets of its
    two arguments; it is 1 on a text compared with itself when the text has a
    token, it is symmetric, and it is 0 when one of the texts has no token. *)
Theorem calculateSimilarity_jaccard :
  (forall a b, calculateSimilarity a b
               = jaccard_index (extractKeywords a) (extractKeywords b))
  /\ (forall t, extractKeywords t <> [] -> (calculateSimilarity t t == 1)%Q)
  /\ (forall a b, calculateSimilarity a b = calculateSimilarity b a)
  /\ (forall a b, extractKeywords a = [] \/ extractKeywords b = [] ->
                  calculateSimilarity a b = 0%Q).
Proof.
  split; [exact calculateSimilarity_is_jaccard |].
  split; [| split].
  - intros t Ht. rewrite calculateSimilarity_is_jaccard. now apply jaccard_index_self.
  - intros a b. rewrite !calculateSimilarity_is_jaccard. apply jaccard_index_sym.
  - exact calculateSimilarity_empty.
Qed.

Lemma calculateSimilarity_jaccard_witness :
  (calculateSimilarity (Some (JStr "farm subsidy program"))
                       (Some (JStr "farm subsidy program")) == 1)%Q
  /\ calculateSimilarity (Some (JStr "the of and")) (Some (JStr "farm subsidy")) = 0%Q.
Proof.
  destruct calculateSimilarity_jaccard as (_ & Hself & _ & Hempty).
  split.
  - apply Hself. vm_compute. discriminate.
  - apply Hempty. left. vm_compute. reflexivity.
Defined.

(** ** Query validation (C10) *)

Lemma trim_empty_of_empty : trim "" = "".
Proof. reflexivity. Qed.

Lemma length_zero_empty (s : string) : (String.length s =? 0) = true <-> s = "".
Proof.
  rewrite Nat.eqb_eq. destruct s; simpl; split; congruence.
Qed.

(** On strings the validator returns, and accepts exactly the strings that
    are not blank and have at most 1000 characters; a rejection comes with
    a message. *)
Lemma validateQuery_string (s : string) :
  exists v, validateQuery (Some (JStr s)) = Return v
            /\ (valid v = true <-> trim s <> "" /\ String.length s <= 1000)
            /\ (valid v = false -> errors v <> []).
Proof.
  unfold validateQuery, push_if. cbn [truthy negb].
  destruct (String.eqb s "") eqn:Es.
  - apply String.eqb_eq in Es. subst s. eexists. split; [reflexivity |].
    cbn. split; [| intros _; discriminate].
    split; [discriminate | intros [H _]; now elim H].
  - cbn [negb andb app].
    destruct (String.length (trim s) =? 0) eqn:Et.
    + apply length_zero_empty in Et.
      destruct (1000 <? String.length s); eexists; (split; [reflexivity |]); cbn;
        (split; [| intros _; discriminate]);
        (split; [discriminate | intros [H _]; contradiction]).
    + assert (Hne : trim s <> "").
      { intros H. rewrite H in Et. discriminate. }
      destruct (1000 <? String.length s) eqn:El; eexists; (split; [reflexivity |]); cbn.
      * apply Nat.ltb_lt in El. split; [| intros _; discriminate].
        split; [discriminate | intros [_ H]; lia].
      * apply Nat.ltb_ge in El. split; [| discriminate].
        split; [intros _; now split | reflexivity].
Qed.

(** A value that is falsy is rejected with messages, without an error. *)
Lemma validateQuery_falsy (q : value) :
  truthy q = false ->
  exists v, validateQuery q = Return v /\ valid v = false /\ errors v <> [].
Proof.
  intros H. unfold validateQuery, push_if. rewrite H.
  destruct q as [[| b | n | s | l | o] |]; cbn in *; try discriminate;
    eexists; (split; [reflexivity |]); cbn; split; try reflexivity; discriminate.
Qed.

(** C10, at the values that are truthy and no string (a number, [true], an
    array, an object): the validator notes that the query must be a string,
    then fails where it reads [query.trim], and returns no verdict. *)
Theorem validateQuery_throws (q : value) :
  truthy q = true -> (forall s, q <> Some (JStr s)) ->
  validateQuery q = Throw (TypeError "query.trim is not a function").
Proof.
  intros Ht Hs. unfold validateQuery. rewrite Ht.
  destruct q as [[| b | n | s | l | o] |]; try reflexivity.
  now elim (Hs s).
Qed.

Lemma validateQuery_throws_witness :
  validateQuery (Some (JNum 123)) = Throw (TypeError "query.trim is not a function").
Proof.
  apply validateQuery_throws; [reflexivity | intros s; discriminate].
Defined.

(** ** Tool results match tool calls (C1) *)

Lemma run_calls (this : DP.parser) (calls : list tool_call) (acc : list tool_result) :
  fold_left (run_call this) calls acc = acc ++ map (answer this) calls.
Proof.
  revert acc. induction calls as [| c calls IH]; intros acc; simpl.
  - now rewrite app_nil_r.
  - rewrite IH. unfold run_call, answer.
    destruct (dispatch this c); now rewrite <- app_assoc.
Qed.

Lemma no_fallback (ids all : list string) (results : list tool_result) :
  (forall i, In i ids -> In i all) ->
  fold_left (fun results toolUseId =>
               if includes toolUseId all then results
               else results ++ [fallback_result toolUseId]) ids results
  = results.
Proof.
  revert results. induction ids as [| i ids IH]; intros results H; simpl; [reflexivity |].
  assert (E : includes i all = true) by (apply includes_In, H; now left).
  rewrite E. apply IH. intros j Hj. apply H. now right.
Qed.

Lemma executeToolCalls_answers (this : DP.parser) (r : response) (items : list block) :
  LLMService.content r = Some items ->
  executeToolCalls this r = Return (map (answer this) (tool_uses items)).
Proof.
  intros H. unfold executeToolCalls. rewrite H. rewrite run_calls. simpl.
  rewrite no_fallback; [reflexivity |].
  intros i Hi. rewrite map_map. exact Hi.
Qed.

Lemma answers_answered (this : DP.parser) (items : list block) :
  answered this items (results_turn (map (answer this) (tool_uses items))).
Proof.
  split; [reflexivity |]. exists (map (answer this) (tool_uses items)).
  split; [reflexivity |]. split; [apply length_map |].
  split; [now rewrite map_map |].
  intros i call e Hi He. rewrite nth_error_map, Hi. simpl.
  unfold answer. simpl. now rewrite He.
Qed.

Lemma paired_app (this : DP.parser) (h l : list message) :
  paired this h -> paired this l -> paired this (h ++ l).
Proof.
  induction h as [| m h IH]; intros Hh Hl; simpl; [assumption |].
  destruct Hh as [Hm Hh]. split; [| now apply IH].
  intros Ha. specialize (Hm Ha). destruct (msg_body m); [assumption |].
  destruct h; [contradiction | exact Hm].
Qed.

Lemma paired_round (this : DP.parser) (r : response) (items : list block) :
  LLMService.content r = Some items ->
  paired this [assistant_turn r; results_turn (map (answer this) (tool_uses items))].
Proof.
  intros H. simpl. split; [| split; [discriminate | exact I]].
  intros _. unfold assistant_turn. rewrite H. apply answers_answered.
Qed.

Lemma requests_tools_content (r : response) :
  requests_tools r = true -> exists items, LLMService.content r = Some items.
Proof.
  unfold requests_tools. destruct (LLMService.content r) as [items |]; [eauto | discriminate].
Qed.

Lemma posts_app (t u : list event) : posts (t ++ u) = posts t ++ posts u.
Proof. apply flat_map_app. Qed.

Lemma executions_app (t u : list event) : executions (t ++ u) = executions t ++ executions u.
Proof. apply flat_map_app. Qed.

Section ConversationFacts.
Variable post : payload -> result response.
Variable this : DP.parser.
Variable budget : nat.
Variable originalPayload : payload.

Let loop := tool_loop post this budget originalPayload.

(** One turn of the loop, spelled out. *)
Lemma tool_loop_step (fuel : nat) (st : loop_state) (items : list block) :
  requests_tools (currentResponse st) = true ->
  iterationCount st < budget ->
  LLMService.content (currentResponse st) = Some items ->
  let results := map (answer this) (tool_uses items) in
  let history := conversationHistory st ++ [assistant_turn (currentResponse st)]
                   ++ [results_turn results] in
  let request := {| messages := history; payload_tools := payload_tools originalPayload |} in
  loop (S fuel) st
  = match post request with
    | Return nextResponse =>
        let '(t, r) := loop fuel {| currentResponse := nextResponse;
                                    conversationHistory := history;
                                    iterationCount := iterationCount st + 1 |} in
        (Executed results :: Posted request :: t, r)
    | Throw e => ([Executed results; Posted request], Throw e)
    end.
Proof.
  intros Hreq Hlt Hc. cbn zeta. unfold loop. cbn [tool_loop].
  rewrite Hreq. apply Nat.ltb_lt in Hlt. rewrite Hlt. cbn [andb].
  unfold do_execute. rewrite (executeToolCalls_answers this _ items Hc).
  unfold bind_run, do_post.
  destruct (post _) as [next | e]; [| reflexivity].
  destruct (tool_loop _ _ _ _ _ _) as [t r]. reflexivity.
Qed.

Lemma tool_loop_stop (fuel : nat) (st : loop_state) :
  requests_tools (currentResponse st) && (iterationCount st <? budget) = false ->
  loop fuel st = ret st.
Proof.
  intros H. unfold loop. destruct fuel; [reflexivity |]. cbn [tool_loop]. now rewrite H.
Qed.

(** The histories sent by the loop, and the history it ends with, keep every
    assistant turn answered. *)
Lemma tool_loop_paired (fuel : nat) (st : loop_state) :
  paired this (conversationHistory st) ->
  Forall (fun q => paired this (messages q)) (posts (trace (loop fuel st)))
  /\ forall st', outcome (loop fuel st) = Return st' ->
                 paired this (conversationHistory st').
Proof.
  revert st. induction fuel as [| fuel IH]; intros st Hp.
  - split; [constructor | intros st' [= <-]; assumption].
  - destruct (requests_tools (currentResponse st) && (iterationCount st <? budget)) eqn:E.
    + apply andb_true_iff in E. destruct E as [Hreq Hlt]. apply Nat.ltb_lt in Hlt.
      destruct (requests_tools_content _ Hreq) as [items Hc].
      rewrite (tool_loop_step fuel st items Hreq Hlt Hc). cbn zeta.
      assert (Hh : paired this
                     (conversationHistory st ++ [assistant_turn (currentResponse st)]
                        ++ [results_turn (map (answer this) (tool_uses items))])).
      { apply paired_app; [assumption | now apply paired_round]. }
      destruct (post _) as [next | e].
      * specialize (IH {| currentResponse := next;
                          conversationHistory :=
                            conversationHistory st ++ [assistant_turn (currentResponse st)]
                              ++ [results_turn (map (answer this) (tool_uses items))];
                          iterationCount := iterationCount st + 1 |} Hh).
        destruct (loop fuel _) as [t r].
        destruct IH as [IH1 IH2]. split.
        -- cbn. constructor; assumption.
        -- exact IH2.
      * split; [| discriminate]. cbn. constructor; [assumption | constructor].
    + rewrite (tool_loop_stop (S fuel) st E).
      split; [constructor | intros st' [= <-]; assumption].
Qed.

(** The loop counts its turns: one execution and one request each. *)
Lemma tool_loop_counts (fuel : nat) (st : loop_state) (st' : loop_state) :
  outcome (loop fuel st) = Return st' ->
  iterationCount st' = iterationCount st + List.length (executions (trace (loop fuel st)))
  /\ List.length (posts (trace (loop fuel st)))
     = List.length (executions (trace (loop fuel st)))
  /\ List.length (executions (trace (loop fuel st))) <= fuel.
Proof.
  revert st. induction fuel as [| fuel IH]; intros st H.
  - cbn in *. injection H as <-. lia.
  - destruct (requests_tools (currentResponse st) && (iterationCount st <? budget)) eqn:E.
    + apply andb_true_iff in E. destruct E as [Hreq Hlt]. apply Nat.ltb_lt in Hlt.
      destruct (requests_tools_content _ Hreq) as [items Hc].
      rewrite (tool_loop_step fuel st items Hreq Hlt Hc) in *. cbn zeta in *.
      destruct (post _) as [next | e]; [| discriminate].
      specialize (IH {| currentResponse := next;
                        conversationHistory :=
                          conversationHistory st ++ [assistant_turn (currentResponse st)]
                            ++ [results_turn (map (answer this) (tool_uses items))];
                        iterationCount := iterationCount st + 1 |}).
      destruct (loop fuel _) as [t r]. cbn in *.
      specialize (IH H). lia.
    + rewrite (tool_loop_stop (S fuel) st E) in *. cbn in *. injection H as <-. lia.
Qed.

End ConversationFacts.

(** C1.  [executeToolCalls] returns one entry per tool call of the reply, in
    the order of the calls and under their ids, with the message of the
    failure where a call failed; and in every history that
    [handleToolCalls] sends to the model, each assistant turn is followed at
    once by the turn that answers its calls in this way. *)
Theorem tool_results_match_tool_calls :
  (forall this r items,
      LLMService.content r = Some items ->
      exists results,
        executeToolCalls this r = Return results
        /\ answered this items (results_turn results))
  /\ (forall post this budget r originalPayload,
        paired this (messages originalPayload) ->
        Forall (fun q => paired this (messages q))
               (posts (trace (handleToolCalls post this budget r originalPayload)))).
Proof.
  split.
  - intros this r items H. exists (map (answer this) (tool_uses items)). split.
    + exact (executeToolCalls_answers this r items H).
    + apply answers_answered.
  - intros post this budget r p Hp. unfold handleToolCalls.
    pose proof (tool_loop_paired post this budget p budget
                  {| currentResponse := r; conversationHistory := messages p;
                     iterationCount := 0 |} Hp) as [H1 H2].
    destruct (tool_loop _ _ _ _ _ _) as [t [st |e]]; cbn in *; [| assumption].
    specialize (H2 st eq_refl).
    destruct ((budget <=? iterationCount st) && requests_tools (currentResponse st)) eqn:E.
    + apply andb_true_iff in E. destruct E as [_ Hreq].
      destruct (requests_tools_content _ Hreq) as [items Hc].
      unfold do_execute. rewrite (executeToolCalls_answers this _ items Hc).
      cbn. rewrite posts_app. apply Forall_app. split; [assumption |].
      cbn. constructor; [| constructor].
      cbn. apply paired_app; [assumption |].
      change (paired this ([assistant_turn (currentResponse st);
                            results_turn (map (answer this) (tool_uses items))]
                             ++ [final_turn])).
      apply paired_app; [now apply paired_round |].
      cbn. split; [discriminate | exact I].
    + cbn. now rewrite app_nil_r.
Qed.

Lemma tool_results_match_tool_calls_witness :
  (exists results,
      executeToolCalls Sample.library Sample.search_reply = Return results
      /\ answered Sample.library
           (match LLMService.content Sample.search_reply with
            | Some items => items
            | None => []
            end)
           (results_turn results))
  /\ paired Sample.library (messages Sample.first_request)
  /\ Forall (fun q => paired Sample.library (messages q))
       (posts (trace (handleToolCalls Sample.always_tools Sample.library 2
                        Sample.search_reply Sample.first_request))).
Proof.
  assert (H : paired Sample.library (messages Sample.first_request)).
  { cbn. split; [discriminate | exact I]. }
  split; [| split; [exact H |]].
  - exact (proj1 tool_results_match_tool_calls Sample.library Sample.search_reply _ eq_refl).
  - exact (proj2 tool_results_match_tool_calls _ _ _ _ _ H).
Defined.

(** ** The iteration budget (C2) *)

Section Budget.
Variable post : payload -> result response.
Variable this : DP.parser.
Variable budget : nat.
Variable originalPayload : payload.

(** A model that always asks for tools keeps the loop going to its budget. *)
Lemma tool_loop_exhausts (fuel : nat) (st : loop_state) :
  (forall q, exists reply, post q = Return reply /\ requests_tools reply = true) ->
  requests_tools (currentResponse st) = true ->
  iterationCount st + fuel = budget ->
  exists st', outcome (tool_loop post this budget originalPayload fuel st) = Return st'
              /\ iterationCount st' = budget
              /\ requests_tools (currentResponse st') = true.
Proof.
  intros Hpost. revert st. induction fuel as [| fuel IH]; intros st Hreq Hsum.
  - exists st. split; [reflexivity | split; [| assumption]].
    rewrite <- Hsum. apply plus_n_O.
  - destruct (requests_tools_content _ Hreq) as [items Hc].
    assert (Hlt : iterationCount st < budget) by lia.
    rewrite (tool_loop_step post this budget originalPayload fuel st items Hreq Hlt Hc).
    cbn zeta. destruct (Hpost {| messages := conversationHistory st
                                   ++ [assistant_turn (currentResponse st)]
                                   ++ [results_turn (map (answer this) (tool_uses items))];
                                 payload_tools := payload_tools originalPayload |})
      as (reply & -> & Hreply).
    specialize (IH {| currentResponse := reply;
                      conversationHistory :=
                        conversationHistory st ++ [assistant_turn (currentResponse st)]
                          ++ [results_turn (map (answer this) (tool_uses items))];
                      iterationCount := iterationCount st + 1 |} Hreply).
    cbn [iterationCount] in IH.
    destruct IH as (st' & Hout & Hst'); [lia |]. exists st'.
    destruct (tool_loop _ _ _ _ _ _) as [t r]. cbn in *. auto.
Qed.

(** When the loop stops on its budget with calls pending, what follows is
    one execution of those calls and one request, the final one. *)
Lemma exhausted_run (r : response) (t : list event) (st : loop_state)
    (items : list block) :
  tool_loop post this budget originalPayload budget (start originalPayload r) = (t, Return st) ->
  budget <= iterationCount st ->
  requests_tools (currentResponse st) = true ->
  LLMService.content (currentResponse st) = Some items ->
  let results := map (answer this) (tool_uses items) in
  handleToolCalls post this budget r originalPayload
  = (t ++ [Executed results; Posted (final_request originalPayload st results)],
     post (final_request originalPayload st results))
  /\ List.length (executions t) = budget
  /\ List.length (posts t) = budget.
Proof.
  intros Hloop Hle Hreq Hc results. split.
  - unfold handleToolCalls. fold (start originalPayload r). rewrite Hloop. cbn [bind_run].
    apply Nat.leb_le in Hle. rewrite Hle, Hreq. cbn [andb].
    unfold do_execute. rewrite (executeToolCalls_answers this _ items Hc).
    cbn [bind_run do_post]. reflexivity.
  - pose proof (tool_loop_counts post this budget originalPayload budget (start originalPayload r) st) as H.
    rewrite Hloop in H. unfold trace, outcome in H. cbn [fst snd start iterationCount] in H.
    specialize (H eq_refl). lia.
Qed.

End Budget.

(** A model that always asks for tools drives the loop to its budget, and
    the run ends as [exhausted_run] tells. *)
Lemma always_asking_model_run
    (post : payload -> result response) (this : DP.parser) (budget : nat)
    (r : response) (originalPayload : payload) :
  (forall q, exists reply, post q = Return reply /\ requests_tools reply = true) ->
  requests_tools r = true ->
  exists t st items,
    tool_loop post this budget originalPayload budget (start originalPayload r)
    = (t, Return st)
    /\ budget <= iterationCount st
    /\ requests_tools (currentResponse st) = true
    /\ LLMService.content (currentResponse st) = Some items.
Proof.
  intros Hpost Hreq.
  destruct (tool_loop_exhausts post this budget originalPayload budget
              (start originalPayload r) Hpost Hreq eq_refl) as (st & Hout & Hcount & Hpending).
  destruct (tool_loop post this budget originalPayload budget (start originalPayload r))
    as [t o] eqn:Hloop.
  cbn in Hout. subst o.
  destruct (requests_tools_content _ Hpending) as [items Hc].
  exists t, st, items. repeat split; try assumption. lia.
Qed.


(** The loop of the source, with its budget of three: four executions
    and four requests against a model that always asks for tools. *)
Lemma handleToolCallsRecursively_rounds
    (post : payload -> result response) (this : DP.parser)
    (r : response) (originalPayload : payload) :
  (forall q, exists reply, post q = Return reply /\ requests_tools reply = true) ->
  requests_tools r = true ->
  let t := trace (handleToolCallsRecursively post this r originalPayload) in
  List.length (executions t) = 4 /\ List.length (posts t) = 4.
Proof.
  intros Hpost Hreq. unfold handleToolCallsRecursively.
  destruct (always_asking_model_run post this maxIterations r originalPayload Hpost Hreq)
    as (t & st & items & Hloop & Hle & Hpending & Hc).
  destruct (exhausted_run post this maxIterations originalPayload r t st items Hloop
              Hle Hpending Hc) as (Hrun & Hexec & Hposts).
  cbn zeta. rewrite Hrun. unfold trace. cbn [fst].
  rewrite executions_app, posts_app, !length_app, Hexec, Hposts. split; reflexivity.
Qed.



(** ** Objects as maps *)

Lemma get_set_same {V} (k : string) (v : V) (o : obj V) : get k (set k v o) = Some v.
Proof.
  induction o as [| [k' v'] o IH]; simpl.
  - now rewrite String.eqb_refl.
  - destruct (String.eqb k k') eqn:E; simpl; rewrite ?String.eqb_refl, ?E; auto.
Qed.

Lemma get_set_other {V} (k k' : string) (v : V) (o : obj V) :
  k' <> k -> get k' (set k v o) = get k' o.
Proof.
  intros H. induction o as [| [k0 v0] o IH]; simpl.
  - apply String.eqb_neq in H. now rewrite H.
  - destruct (String.eqb k k0) eqn:E; simpl.
    + apply String.eqb_eq in E. subst k0.
      apply String.eqb_neq in H. now rewrite H.
    + destruct (String.eqb k' k0); auto.
Qed.

(** The sort keeps the order of the elements of a class none of which
    comes after another. *)
Lemma sort_insert_keeps {A} (cmp : A -> A -> Z) (P : A -> bool) (x : A) (l : list A) :
  (forall y, P x = true -> P y = true -> (cmp x y <= 0)%Z) ->
  filter P (sort_insert cmp x l) = filter P (x :: l).
Proof.
  intros H. induction l as [| y l IH]; [reflexivity |].
  cbn [sort_insert]. destruct (cmp x y <=? 0)%Z eqn:E; [reflexivity |].
  apply Z.leb_gt in E. cbn [filter] in *. rewrite IH.
  destruct (P y) eqn:Ey; destruct (P x) eqn:Ex; try reflexivity.
  specialize (H y eq_refl Ey). lia.
Qed.

Lemma sort_keeps {A} (cmp : A -> A -> Z) (P : A -> bool) (l : list A) :
  (forall x y, P x = true -> P y = true -> (cmp x y <= 0)%Z) ->
  filter P (sort cmp l) = filter P l.
Proof.
  intros H. induction l as [| x l IH]; [reflexivity |].
  cbn [sort]. rewrite sort_insert_keeps by (intros y; apply H). cbn [filter]. now rewrite IH.
Qed.

Lemma filter_filter_all {A} (P Q : A -> bool) (l : list A) :
  (forall x, P x = true -> Q x = true) -> filter P (filter Q l) = filter P l.
Proof.
  intros H. induction l as [| x l IH]; [reflexivity |]. cbn [filter].
  destruct (Q x) eqn:Eq; cbn [filter]; rewrite IH; [reflexivity |].
  destruct (P x) eqn:Ep; [| reflexivity]. rewrite (H x Ep) in Eq. discriminate.
Qed.

Lemma filter_filter_none {A} (P Q : A -> bool) (l : list A) :
  (forall x, P x = true -> Q x = false) -> filter P (filter Q l) = [].
Proof.
  intros H. induction l as [| x l IH]; [reflexivity |]. cbn [filter].
  destruct (Q x) eqn:Eq; cbn [filter]; rewrite IH; [| reflexivity].
  destruct (P x) eqn:Ep; [| reflexivity]. rewrite (H x Ep) in Eq. discriminate.
Qed.

Lemma get_filter {V} (k : string) (o : obj V) :
  get k o = option_map snd (hd_error (filter (fun kv => String.eqb k (fst kv)) o)).
Proof.
  induction o as [| [k' v] o IH]; [reflexivity |]. cbn [get filter fst].
  destruct (String.eqb k k'); [reflexivity | exact IH].
Qed.

(** [Object.entries] lists the properties in another order; it holds the
    same value under each key. *)
Lemma get_entries {V} (k : string) (o : obj V) : get k (entries o) = get k o.
Proof.
  rewrite !get_filter. f_equal. f_equal. unfold entries. rewrite filter_app.
  rewrite sort_keeps.
  - destruct (is_index k) eqn:E.
    + rewrite filter_filter_all, filter_filter_none, app_nil_r; [reflexivity | |];
        intros [k' v] H; cbn [fst] in *; apply String.eqb_eq in H; subst k';
        now rewrite E.
    + rewrite filter_filter_none, filter_filter_all; [reflexivity | |];
        intros [k' v] H; cbn [fst] in *; apply String.eqb_eq in H; subst k';
        now rewrite E.
  - intros [k1 v1] [k2 v2] H1 H2. cbn [fst] in *.
    apply String.eqb_eq in H1, H2. subst. lia.
Qed.


Lemma In_set {V} (k : string) (v : V) (o : obj V) (e : string * V) :
  In e (set k v o) -> e = (k, v) \/ In e o.
Proof.
  induction o as [| [k' v'] o IH]; simpl.
  - intros [<- | []]. now left.
  - destruct (String.eqb k k'); simpl; intros [<- | H]; auto.
    destruct (IH H); auto.
Qed.

Lemma In_has {V} (k : string) (v : V) (o : obj V) : In (k, v) o -> has k o = true.
Proof.
  unfold has. induction o as [| [k' v'] o IH]; simpl; [tauto |].
  intros [[= -> ->] | H].
  - now rewrite String.eqb_refl.
  - destruct (String.eqb k k'); auto.
Qed.

Lemma has_In {V} (k : string) (o : obj V) : has k o = true -> exists v, In (k, v) o.
Proof.
  unfold has. induction o as [| [k' v'] o IH]; simpl; [discriminate |].
  destruct (String.eqb k k') eqn:E.
  - apply String.eqb_eq in E. subst. eauto.
  - intros H. destruct (IH H) as [v Hv]. eauto.
Qed.

(** ** Parent links of the section map (C6) *)

(** Induction on a parsed tree, with the property at hand for every child
    of every array. *)
Lemma node_ind (P : node -> Prop) :
  (forall s, P (NText s)) ->
  (forall attrs text children,
      Forall (fun entry => Forall P (snd entry)) children ->
      P (NElem attrs text children)) ->
  forall n, P n.
Proof.
  intros Htext Helem.
  fix IH 1. intros [s | attrs text children].
  - apply Htext.
  - apply Helem. induction children as [| [tag items] children IHc]; constructor.
    + simpl. induction items as [| item items IHi]; constructor; [apply IH | exact IHi].
    + exact IHc.
Qed.

Section ParentLinks.
Variable throws : node -> bool.
(** The ids that may be missing from the map. *)
Variable K : list string.





End ParentLinks.







(** ** The parsed reply (C4) *)

(** The two replies of the specification. *)
Example parseResponse_embedded_payload (model : string) :
  exists out,
    parseResponse Json.parse model reply_with_all_fields = Return out
    /\ get "answer" out = Some (JStr "x")
    /\ get "sections" out = Some (JArr [JStr "S1"])
    /\ get "confidence" out = Some (JStr "high").
Proof. eexists. split; [vm_compute; reflexivity | repeat split]. Qed.

Example parseResponse_bullet_lines (model : string) :
  exists out,
    parseResponse Json.parse model reply_with_bullets = Return out
    /\ get "keyPoints" out = Some (JArr [JStr "point one"; JStr "point two"])
    /\ get "sections" out = Some (JArr [])
    /\ get "confidence" out = Some (JStr "medium").
Proof. eexists. split; [vm_compute; reflexivity | repeat split]. Qed.

(** C4, at a payload that has the four required fields and no
    [confidence]: nothing is missing in the eyes of the check, no default is
    filled in, and the structure returned has no [confidence]. *)
Theorem parseResponse_confidence_left_out (model : string) :
  exists out,
    parseResponse Json.parse model reply_without_confidence = Return out
    /\ get "confidence" out = None
    /\ map fst out = ["answer"; "sections"; "keyPoints"; "implications"; "metadata"].
Proof. eexists. split; [vm_compute; reflexivity | split; reflexivity]. Qed.

(** A reply that is a JSON number is not normalized at all. *)
Example parseResponse_number (model : string) :
  parseResponse Json.parse model reply_with_number
  = Throw (Error "Failed to parse Claude response").
Proof. reflexivity. Qed.

Lemma truthy_fill (k : string) (default : json) (o : obj json) :
  truthy (Some default) = true -> truthy (get k (fill k default o)) = true.
Proof.
  intros H. unfold fill. destruct (truthy (get k o)) eqn:E; [assumption |].
  now rewrite get_set_same.
Qed.

Lemma truthy_fill_other (k k' : string) (default : json) (o : obj json) :
  truthy (get k' o) = true -> truthy (get k' (fill k default o)) = true.
Proof.
  intros H. unfold fill. destruct (truthy (get k o)) eqn:E; [assumption |].
  destruct (string_dec k' k) as [-> | Hne]; [congruence |].
  now rewrite get_set_other.
Qed.

(** Whatever [JSON.parse] is, a structure that is returned for a non-empty
    text has the four required fields; [confidence] comes with them when one
    of the four had to be filled in. *)
Lemma parseResponse_required_fields (JSON_parse : string -> option json)
    (model : string) (r : response) (items : list block) (text : string)
    (out : obj json) :
  LLMService.content r = Some items ->
  find is_text items = Some (TextBlock text) ->
  text <> "" ->
  parseResponse JSON_parse model r = Return out ->
  forall field, In field requiredFields -> truthy (get field out) = true.
Proof.
  intros Hc Hf Hne. unfold parseResponse. rewrite Hc.
  destruct items as [| item items]; [discriminate |]. rewrite Hf.
  destruct (parsed_content JSON_parse text) as [pc | e]; [| discriminate].
  intros [= <-] field Hin.
  assert (Hm : field <> "metadata").
  { intros ->. simpl in Hin. intuition discriminate. }
  rewrite get_set_other, get_entries by assumption.
  assert (Ht : truthy (Some (JStr text)) = true).
  { simpl. apply negb_true_iff. now apply String.eqb_neq. }
  unfold fill_missing.
  destruct (filter _ requiredFields) as [| m ms] eqn:Hmiss.
  - destruct (truthy (get field pc)) eqn:E; [reflexivity |].
    assert (Hx : In field (filter (fun field => negb (truthy (get field pc))) requiredFields)).
    { apply filter_In. split; [assumption | now rewrite E]. }
    rewrite Hmiss in Hx. destruct Hx.
  - simpl in Hin. destruct Hin as [<- | [<- | [<- | [<- | []]]]].
    + do 4 apply truthy_fill_other. now apply truthy_fill.
    + do 3 apply truthy_fill_other. now apply truthy_fill.
    + do 2 apply truthy_fill_other. now apply truthy_fill.
    + apply truthy_fill_other. now apply truthy_fill.
Qed.

(** ** The size of search payloads (C7) *)

Lemma mapM_length {A B} (f : A -> result B) (l : list A) (out : list B) :
  mapM f l = Return out -> List.length out = List.length l.
Proof.
  revert out. induction l as [| x l IH]; intros out; simpl.
  - now intros [= <-].
  - destruct (f x); [| discriminate]. simpl.
    destruct (mapM f l); [| discriminate]. simpl.
    intros [= <-]. simpl. f_equal. now apply IH.
Qed.

Lemma slice0_length {A} (n : Z) (l : list A) :
  (0 <= n)%Z -> List.length (slice0 n l) <= Z.to_nat n.
Proof.
  intros H. unfold slice0. destruct (n <? 0)%Z eqn:E; [lia |].
  rewrite length_firstn. lia.
Qed.

Lemma searchSections_length (this : parser) (query : value) (limit : Z)
    (found : list ranked) :
  (0 <= limit)%Z ->
  searchSections this query limit = Return found ->
  List.length found <= Z.to_nat limit.
Proof.
  intros Hl. unfold searchSections.
  destruct (getDocumentData this) as [d | e]; [| discriminate]. simpl.
  destruct (fold_left _ _ _) as [scores | e]; [| discriminate]. simpl.
  intros [= <-]. rewrite length_map. now apply slice0_length.
Qed.

(** For a requested size that is not negative, the three search tools
    return at most three results. *)
Lemma search_tools_capped (this : parser) (name : string) (input : tool_input)
    (payload : json) :
  In name ["search_sections"; "search_by_topic"; "search_financial_impact"] ->
  (0 <= requested input)%Z ->
  dispatch this {| call_id := "toolu"; call_name := name; call_input := input |}
  = Return payload ->
  exists results, results_of payload = Some results /\ List.length results <= 3.
Proof.
  intros Hname Hreq.
  assert (Hcap : forall q found out,
             searchSections this q (Z.min (requested input) 3) = Return found ->
             forall n, mapM (result_entry n) found = Return out ->
             List.length out <= 3).
  { intros q found out Hs n Hm. apply mapM_length in Hm. rewrite Hm.
    apply searchSections_length in Hs; lia. }
  assert (Htable : forall table argName arg,
             argName <> "results" ->
             search_by_table table argName this arg input = Return payload ->
             exists results, results_of payload = Some results /\ List.length results <= 3).
  { intros table argName arg Hne. unfold search_by_table.
    destruct arg as [[| | | s | |] |]; try discriminate.
    destruct (read (toLowerCase s) table); simpl; try discriminate.
    - destruct (searchSections _ _ _) as [found |] eqn:Hs; [| discriminate]. simpl.
      destruct (mapM _ found) as [out |] eqn:Hm; [| discriminate]. simpl.
      intros [= <-]. exists out. split; [| eapply Hcap; eassumption].
      assert (Hk : String.eqb "results" argName = false)
        by (apply String.eqb_neq; congruence).
      unfold results_of, get. rewrite Hk. reflexivity.
    - destruct (searchSections _ _ _) as [found |] eqn:Hs; [| discriminate]. simpl.
      destruct (mapM _ found) as [out |] eqn:Hm; [| discriminate]. simpl.
      intros [= <-]. exists out. split; [| eapply Hcap; eassumption].
      assert (Hk : String.eqb "results" argName = false)
        by (apply String.eqb_neq; congruence).
      unfold results_of, get. rewrite Hk. reflexivity. }
  simpl in Hname. destruct Hname as [<- | [<- | [<- | []]]]; unfold dispatch; simpl.
  - unfold executeSearchSections.
    destruct (getDocumentData this); [| discriminate]. simpl.
    destruct (searchSections _ _ _) as [found |] eqn:Hs; [| discriminate]. simpl.
    destruct (mapM _ found) as [out |] eqn:Hm; [| discriminate]. simpl.
    intros [= <-]. exists out. split; [| eapply Hcap; eassumption].
    unfold results_of. destruct (query input); reflexivity.
  - apply Htable. discriminate.
  - apply Htable. discriminate.
Qed.

(** C7, at a requested size of -1: the bound handed to the search is
    [Math.min(-1, 3)], the slice drops the last of the seven sections that
    mention a farm, and six results come back. *)
Theorem search_sections_negative_size :
  exists payload results,
    executeSearchSections Sample.library farm_below_zero = Return payload
    /\ results_of payload = Some results
    /\ List.length results = 6.
Proof. eexists. eexists. split; [vm_compute; reflexivity | split; reflexivity]. Qed.

(** The topic search and the financial-impact search bound the size by the
    same expression, and exceed three in the same way. *)
Example named_searches_negative_size :
  option_map (@List.length json)
    (results_of (result_content (answer Sample.library agriculture_below_zero))) = Some 6
  /\ option_map (@List.length json)
       (results_of (result_content (answer Sample.library impact_below_zero))) = Some 6.
Proof. vm_compute. split; reflexivity. Qed.

(** ** Ranking of search results (C3) *)

(** *** The stable sort *)

Lemma sort_insert_perm {A} (cmp : A -> A -> Z) (x : A) (l : list A) :
  Permutation (sort_insert cmp x l) (x :: l).
Proof.
  induction l as [| y l IH]; simpl; [reflexivity |].
  destruct (cmp x y <=? 0)%Z; [reflexivity |].
  rewrite IH. apply perm_swap.
Qed.

Lemma sort_perm {A} (cmp : A -> A -> Z) (l : list A) : Permutation (sort cmp l) l.
Proof.
  induction l as [| x l IH]; simpl; [reflexivity |].
  rewrite sort_insert_perm. now constructor.
Qed.

Lemma sort_insert_sorted (x : string * nat) (l : list (string * nat)) :
  StronglySorted higher_first l ->
  StronglySorted higher_first (sort_insert by_count_desc x l).
Proof.
  induction 1 as [| y l Hl IH Hy]; simpl; [repeat constructor |].
  unfold by_count_desc at 1. destruct (_ <=? 0)%Z eqn:E.
  - apply Z.leb_le in E. constructor; [now constructor |].
    constructor; [unfold higher_first; lia |].
    eapply Forall_impl; [| exact Hy]. unfold higher_first. intros z Hz. lia.
  - apply Z.leb_gt in E. constructor; [assumption |].
    eapply Permutation_Forall.
    + symmetry. apply sort_insert_perm.
    + constructor; [unfold higher_first; lia | assumption].
Qed.

Lemma sort_sorted (l : list (string * nat)) :
  StronglySorted higher_first (sort by_count_desc l).
Proof.
  induction l as [| x l IH]; simpl; [constructor | now apply sort_insert_sorted].
Qed.

(** Stability: the entries of one score keep their order. *)
Lemma sort_insert_stable (n : nat) (x : string * nat) (l : list (string * nat)) :
  filter (scored n) (sort_insert by_count_desc x l) = filter (scored n) (x :: l).
Proof.
  induction l as [| y l IH]; [reflexivity |].
  cbn [sort_insert]. unfold by_count_desc at 1. destruct (_ <=? 0)%Z eqn:E; [reflexivity |].
  apply Z.leb_gt in E. cbn [filter] in *. rewrite IH. unfold scored.
  destruct (snd y =? n) eqn:Ey; destruct (snd x =? n) eqn:Ex; try reflexivity.
  apply Nat.eqb_eq in Ey, Ex. lia.
Qed.

Lemma sort_stable (n : nat) (l : list (string * nat)) :
  filter (scored n) (sort by_count_desc l) = filter (scored n) l.
Proof.
  induction l as [| x l IH]; [reflexivity |].
  cbn [sort]. rewrite sort_insert_stable. cbn [filter]. now rewrite IH.
Qed.

(** *** The score object *)

Lemma get_None_keys {V} (k : string) (o : obj V) : get k o = None <-> ~ In k (map fst o).
Proof.
  induction o as [| [k' v'] o IH]; simpl; [tauto |].
  destruct (String.eqb k k') eqn:E.
  - apply String.eqb_eq in E. subst. split; [discriminate | tauto].
  - apply String.eqb_neq in E. rewrite IH. intuition congruence.
Qed.

Lemma set_present_keys {V} (k : string) (v : V) (o : obj V) :
  In k (map fst o) -> map fst (set k v o) = map fst o.
Proof.
  induction o as [| [k' v'] o IH]; simpl; [tauto |].
  destruct (String.eqb k k') eqn:E.
  - apply String.eqb_eq in E. now subst.
  - apply String.eqb_neq in E. intros [H | H]; [congruence |]. simpl. now rewrite IH.
Qed.

Lemma set_absent {V} (k : string) (v : V) (o : obj V) :
  ~ In k (map fst o) -> set k v o = o ++ [(k, v)].
Proof.
  induction o as [| [k' v'] o IH]; simpl; [reflexivity |].
  intros H. destruct (String.eqb k k') eqn:E.
  - apply String.eqb_eq in E. subst. tauto.
  - rewrite IH; tauto.
Qed.

Lemma keys_count_up (scores : obj nat) (i : string) :
  map fst (count_up scores i) = Set_add (map fst scores) i.
Proof.
  unfold count_up, Set_add. destruct (get i scores) as [n |] eqn:E.
  - assert (H : In i (map fst scores)).
    { destruct (in_dec string_dec i (map fst scores)) as [H | H]; [assumption |].
      apply get_None_keys in H. congruence. }
    rewrite set_present_keys by assumption.
    apply includes_In in H. now rewrite H.
  - apply get_None_keys in E. rewrite set_absent by assumption.
    apply includes_false in E. rewrite E. now rewrite map_app.
Qed.

Lemma keys_tally (l : list string) (scores : obj nat) :
  map fst (fold_left count_up l scores) = fold_left Set_add l (map fst scores).
Proof.
  revert scores. induction l as [| i l IH]; intros scores; simpl; [reflexivity |].
  now rewrite IH, keys_count_up.
Qed.

Lemma score_count_up (scores : obj nat) (i j : string) :
  score_of (count_up scores i) j = score_of scores j + (if string_dec i j then 1 else 0).
Proof.
  unfold score_of, count_up. destruct (string_dec i j) as [-> | H].
  - destruct (get j scores); rewrite get_set_same; lia.
  - destruct (get i scores); rewrite get_set_other by congruence; lia.
Qed.

Lemma score_tally (l : list string) (scores : obj nat) (j : string) :
  score_of (fold_left count_up l scores) j = score_of scores j + count_occ string_dec l j.
Proof.
  revert scores. induction l as [| i l IH]; intros scores; simpl; [lia |].
  rewrite IH, score_count_up. destruct (string_dec i j); lia.
Qed.

Lemma obj_by_keys (o : obj nat) :
  NoDup (map fst o) -> o = map (fun k => (k, score_of o k)) (map fst o).
Proof.
  induction o as [| [k v] o IH]; simpl; [reflexivity |].
  intros H. inversion H as [| ? ? Hk Ho]; subst.
  unfold score_of at 1. simpl. rewrite String.eqb_refl. f_equal.
  rewrite IH at 1 by assumption. apply map_ext_in. intros k' Hk'.
  f_equal. unfold score_of. simpl.
  destruct (String.eqb k' k) eqn:E; [| reflexivity].
  apply String.eqb_eq in E. subst. contradiction.
Qed.

(** The tally after the ids [l] have been counted: one entry per id,
    in the order the ids were first met, with the number of times each was
    met. *)
Lemma tally_entries (l : list string) :
  fold_left count_up l [] = map (fun i => (i, count_occ string_dec l i)) (Set_from l).
Proof.
  assert (Hk : map fst (fold_left count_up l []) = Set_from l) by apply keys_tally.
  rewrite (obj_by_keys (fold_left count_up l [])) at 1.
  - rewrite Hk. apply map_ext. intros i. f_equal. now rewrite score_tally.
  - rewrite Hk. apply Set_from_NoDup.
Qed.

(** The score object counts as the tally does, as long as no id names a
    member of [Object.prototype]. *)
Lemma get_counted (scores : obj nat) (i : string) :
  get i (map counted scores) = option_map Count (get i scores).
Proof.
  induction scores as [| [k n] scores IH]; [reflexivity |]. cbn [map counted get fst snd].
  destruct (String.eqb i k); [reflexivity | exact IH].
Qed.

Lemma set_counted (scores : obj nat) (i : string) (n : nat) :
  set i (Count n) (map counted scores) = map counted (set i n scores).
Proof.
  induction scores as [| [k m] scores IH]; [reflexivity |]. cbn [map counted set fst snd].
  destruct (String.eqb i k); [reflexivity |]. cbn [map counted fst snd]. now rewrite IH.
Qed.

Lemma bump_counted (scores : obj nat) (i : string) :
  ~ In i prototype_members ->
  bump (map counted scores) i = map counted (count_up scores i).
Proof.
  intros H. apply includes_false in H. unfold bump, count_up, read.
  rewrite get_counted. destruct (get i scores) as [n |]; cbn [option_map].
  - apply set_counted.
  - rewrite H. apply set_counted.
Qed.

Lemma tally_counted (l : list string) (scores : obj nat) :
  (forall i, In i l -> ~ In i prototype_members) ->
  fold_left bump l (map counted scores) = map counted (fold_left count_up l scores).
Proof.
  revert scores. induction l as [| i l IH]; intros scores H; [reflexivity |].
  cbn [fold_left]. rewrite bump_counted by (apply H; now left).
  apply IH. intros j Hj. apply H. now right.
Qed.

(** Whatever the ids are, the keys of the score object are the ids counted,
    each once, in the order in which they were first met. *)
Lemma keys_set {V} (k : string) (v : V) (o : obj V) :
  map fst (set k v o) = Set_add (map fst o) k.
Proof.
  unfold Set_add. destruct (includes k (map fst o)) eqn:E.
  - apply includes_In in E. now apply set_present_keys.
  - apply includes_false in E. rewrite set_absent by assumption. now rewrite map_app.
Qed.

Lemma keys_bump (scores : obj score_value) (i : string) :
  i <> "__proto__" -> map fst (bump scores i) = Set_add (map fst scores) i.
Proof.
  intros H. apply String.eqb_neq in H. unfold bump.
  destruct (read i scores) as [[n | t] | |]; try rewrite H; apply keys_set.
Qed.

Lemma keys_bumped (l : list string) (scores : obj score_value) :
  ~ In "__proto__" l ->
  map fst (fold_left bump l scores) = fold_left Set_add l (map fst scores).
Proof.
  revert scores. induction l as [| i l IH]; intros scores H; [reflexivity |].
  cbn [fold_left]. rewrite IH by (intros Hin; apply H; now right).
  rewrite keys_bump; [reflexivity |]. intros ->. apply H. now left.
Qed.

(** Sorting, slicing and listing the entries of a tally, and then passing
    to the score object, or the other way round. *)
Lemma sort_insert_map {A B} (f : A -> B) (cmp : A -> A -> Z) (cmp' : B -> B -> Z)
    (x : A) (l : list A) :
  (forall a b, cmp' (f a) (f b) = cmp a b) ->
  sort_insert cmp' (f x) (map f l) = map f (sort_insert cmp x l).
Proof.
  intros H. induction l as [| y l IH]; [reflexivity |].
  cbn [map sort_insert]. rewrite H. destruct (cmp x y <=? 0)%Z; [reflexivity |].
  cbn [map]. now rewrite IH.
Qed.

Lemma sort_map {A B} (f : A -> B) (cmp : A -> A -> Z) (cmp' : B -> B -> Z) (l : list A) :
  (forall a b, cmp' (f a) (f b) = cmp a b) ->
  sort cmp' (map f l) = map f (sort cmp l).
Proof.
  intros H. induction l as [| x l IH]; [reflexivity |].
  cbn [map sort]. rewrite IH. now apply sort_insert_map.
Qed.

Lemma filter_map_commute {A B} (f : A -> B) (P : B -> bool) (l : list A) :
  filter P (map f l) = map f (filter (fun x => P (f x)) l).
Proof.
  induction l as [| x l IH]; [reflexivity |]. cbn [map filter].
  destruct (P (f x)); cbn [map]; now rewrite IH.
Qed.

Lemma entries_counted (scores : obj nat) :
  entries (map counted scores) = map counted (entries scores).
Proof.
  unfold entries. rewrite map_app, !filter_map_commute. f_equal.
  apply sort_map. intros a b. reflexivity.
Qed.

Lemma slice0_map {A B} (f : A -> B) (limit : Z) (l : list A) :
  slice0 limit (map f l) = map f (slice0 limit l).
Proof.
  unfold slice0. rewrite length_map.
  destruct (limit <? 0)%Z; now rewrite firstn_map.
Qed.

(** *** The index *)

Lemma distinct_NoDup (l : list string) : distinct l = true <-> NoDup l.
Proof.
  induction l as [| x l IH]; simpl.
  - split; [constructor | reflexivity].
  - rewrite andb_true_iff, negb_true_iff, includes_false, IH.
    split; [intros [H1 H2]; now constructor | intros H; now inversion H].
Qed.

Lemma get_In {V} (k : string) (v : V) (o : obj V) : get k o = Some v -> In (k, v) o.
Proof.
  induction o as [| [k' v'] o IH]; simpl; [discriminate |].
  destruct (String.eqb k k') eqn:E.
  - apply String.eqb_eq in E. intros [= ->]. subst. now left.
  - auto.
Qed.

Lemma matches_listed (searchIndex : obj (list string)) (keyword : string) :
  matches searchIndex keyword = []
  \/ In (keyword, matches searchIndex keyword) searchIndex.
Proof.
  unfold matches, read. destruct (get keyword searchIndex) as [ids |] eqn:E.
  - right. now apply get_In.
  - left. now destruct (includes keyword prototype_members).
Qed.

Lemma matches_distinct (searchIndex : obj (list string)) (keyword : string) :
  distinct_lists searchIndex = true -> NoDup (matches searchIndex keyword).
Proof.
  intros H. destruct (matches_listed searchIndex keyword) as [-> | Hin]; [constructor |].
  unfold distinct_lists in H. rewrite forallb_forall in H.
  apply distinct_NoDup. exact (H _ Hin).
Qed.

Lemma matches_plain (searchIndex : obj (list string)) (keyword i : string) :
  plain_ids searchIndex = true -> In i (matches searchIndex keyword) -> is_index i = false.
Proof.
  intros H Hi. destruct (matches_listed searchIndex keyword) as [E | Hin].
  - rewrite E in Hi. destruct Hi.
  - unfold plain_ids in H. rewrite forallb_forall in H. specialize (H _ Hin).
    rewrite forallb_forall in H. apply negb_true_iff. exact (H _ Hi).
Qed.

Lemma count_occ_NoDup (l : list string) (i : string) :
  NoDup l -> count_occ string_dec l i = if includes i l then 1 else 0.
Proof.
  intros H. destruct (includes i l) eqn:E.
  - apply includes_In in E.
    exact (proj1 (NoDup_count_occ' string_dec l) H i E).
  - apply includes_false in E. now apply count_occ_not_In.
Qed.

Lemma count_matches (searchIndex : obj (list string)) (keywords : list string) (i : string) :
  distinct_lists searchIndex = true ->
  count_occ string_dec (flat_map (matches searchIndex) keywords) i
  = occurrences searchIndex keywords i.
Proof.
  intros H. unfold occurrences. induction keywords as [| k keywords IH]; [reflexivity |].
  cbn [flat_map filter]. rewrite count_occ_app, IH.
  rewrite count_occ_NoDup by now apply matches_distinct.
  destruct (includes i (matches searchIndex k)); reflexivity.
Qed.

Lemma score_fold_throw (searchIndex : obj (list string)) (keywords : list string)
    (e : error) :
  fold_left (fun acc keyword => s <- acc ;; score_keyword searchIndex s keyword)
    keywords (Throw e) = Throw e.
Proof. induction keywords as [| k keywords IH]; simpl; [reflexivity | exact IH]. Qed.

(** The loop over the keywords counts, in order, the ids they list; it
    fails when a keyword finds an inherited member instead of a list. *)
Lemma score_fold (searchIndex : obj (list string)) (keywords : list string)
    (scores : obj score_value) :
  fold_left (fun acc keyword => s <- acc ;; score_keyword searchIndex s keyword)
    keywords (Return scores)
  = if existsb (fun keyword => match read keyword searchIndex with
                               | Inherited => true
                               | _ => false
                               end) keywords
    then Throw (TypeError "matchingSections.forEach is not a function")
    else Return (fold_left bump (flat_map (matches searchIndex) keywords) scores).
Proof.
  revert scores. induction keywords as [| k keywords IH]; intros scores; [reflexivity |].
  cbn [fold_left flat_map existsb bind]. unfold score_keyword at 2, matches at 1.
  destruct (read k searchIndex) as [ids | |]; cbn [orb].
  - rewrite IH, fold_left_app. reflexivity.
  - apply score_fold_throw.
  - rewrite IH. reflexivity.
Qed.

Lemma entries_plain {V} (o : obj V) :
  (forall k, In k (map fst o) -> is_index k = false) -> entries o = o.
Proof.
  intros H. unfold entries.
  assert (H1 : filter (fun kv => is_index (fst kv)) o = []).
  { induction o as [| [k v] o IH]; [reflexivity |]. simpl.
    rewrite (H k) by now left. apply IH. intros k' Hk'. apply H. now right. }
  assert (H2 : filter (fun kv => negb (is_index (fst kv))) o = o).
  { induction o as [| [k v] o IH]; [reflexivity |]. simpl.
    rewrite (H k) by now left. simpl. f_equal. apply IH.
    - intros k' Hk'. apply H. now right.
    - simpl in H1. rewrite (H k) in H1 by now left. exact H1. }
  now rewrite H1, H2.
Qed.

(** *** Snapshots that were built *)

Lemma fold_result_inv {A B} (P : A -> Prop) (f : A -> B -> result A) (l : list B) :
  (forall a b a', P a -> f a b = Return a' -> P a') ->
  forall init out,
    P init ->
    fold_left (fun acc b => a <- acc ;; f a b) l (Return init) = Return out ->
    P out.
Proof.
  intros Hf. induction l as [| b l IH]; intros init out Hinit; simpl.
  - now intros [= <-].
  - destruct (f init b) as [a' | e] eqn:E.
    + apply IH. now apply (Hf init b).
    + intros H. exfalso. revert H. clear. induction l as [| b' l IH]; simpl;
        [discriminate | exact IH].
Qed.

Lemma forallb_set {V} (P : string * V -> bool) (k : string) (v : V) (o : obj V) :
  P (k, v) = true -> forallb P o = true -> forallb P (set k v o) = true.
Proof.
  intros Hv Ho. apply forallb_forall. intros e He.
  apply In_set in He. destruct He as [-> | He]; [assumption |].
  rewrite forallb_forall in Ho. now apply Ho.
Qed.

Lemma distinct_snoc (l : list string) (x : string) :
  distinct l = true -> includes x l = false -> distinct (l ++ [x]) = true.
Proof.
  rewrite !distinct_NoDup, includes_false. intros Hl Hx.
  apply NoDup_app; [assumption | repeat constructor; simpl; tauto |].
  intros y Hy [<- | []]. contradiction.
Qed.

Lemma index_keyword_distinct (sectionId : string) (idx idx' : obj (list string))
    (keyword : string) :
  distinct_lists idx = true ->
  index_keyword sectionId idx keyword = Return idx' ->
  distinct_lists idx' = true.
Proof.
  intros H. unfold index_keyword, read.
  destruct (get keyword idx) as [ids |] eqn:E.
  - destruct (includes sectionId ids) eqn:Ei; intros [= <-]; [assumption |].
    apply forallb_set; [| assumption]. cbn [snd]. apply distinct_snoc; [| assumption].
    apply get_In in E. unfold distinct_lists in H. rewrite forallb_forall in H.
    exact (H _ E).
  - destruct (includes keyword prototype_members); [discriminate |].
    intros [= <-]. apply forallb_set; [reflexivity | assumption].
Qed.

(** The index of a snapshot that was built names no section twice under a
    keyword. *)
Lemma built_index_distinct (throws : node -> bool) (parsedXml : node) (d : documentData) :
  buildDocumentStructure throws parsedXml = Return d ->
  distinct_lists (searchIndex d) = true.
Proof.
  unfold buildDocumentStructure, buildSearchIndex.
  destruct (fold_left _ _ _) as [idx | e] eqn:E; [| discriminate].
  intros [= <-]. cbn [searchIndex].
  refine (fold_result_inv (fun a => distinct_lists a = true) index_section _ _ [] idx
            eq_refl E).
  intros a [sectionId s] a' Ha Hs. unfold index_section in Hs.
  refine (fold_result_inv (fun a => distinct_lists a = true) (index_keyword sectionId)
            _ _ a a' Ha Hs).
  intros b keyword b'. apply index_keyword_distinct.
Qed.

(** *** Where the claim, as stated, fails *)

(** C3, as stated: a token that stands twice in the query counts twice
    towards the score; sections of equal score whose ids are array indices
    come first, whatever the order in which the query met them; a negative
    limit drops entries from the end; and a token that names a member of
    [Object.prototype] makes the search fail. *)
Lemma searchSections_counts_repeated_tokens :
  (exists found r,
      searchSections Sample.library (Some (JStr "subsidy subsidy")) 10 = Return found
      /\ In r found
      /\ ranked_id r = Some "S1"
      /\ score r = Count 2
      /\ distinct_matches (searchIndex Sample.snapshot)
           (extractKeywords (Some (JStr "subsidy subsidy"))) "S1" = 1)
  /\ (exists found,
         searchSections numbered_library (Some (JStr "alpha beta")) 10 = Return found
         /\ map ranked_id found = [Some "2"; Some "b"]
         /\ map score found = [Count 1; Count 1]
         /\ match numbered_library with
            | Some d => map fst (met (searchIndex d) (extractKeywords (Some (JStr "alpha beta"))))
            | None => []
            end = ["b"; "2"])
  /\ (exists found,
         searchSections Sample.library (Some (JStr "farm")) (-1) = Return found
         /\ List.length found = 6)
  /\ searchSections Sample.library (Some (JStr "constructor")) 10
     = Throw (TypeError "matchingSections.forEach is not a function").
Proof.
  split; [| split; [| split]].
  - eexists. eexists. split; [vm_compute; reflexivity |].
    split; [right; left; reflexivity |]. repeat split.
  - eexists. split; [vm_compute; reflexivity |]. repeat split.
  - eexists. split; [vm_compute; reflexivity |]. reflexivity.
  - vm_compute. reflexivity.
Qed.

(** Where a section id names a member of [Object.prototype], the first
    addition to its score meets the member, and the score is a text. *)
Example searchSections_member_id :
  exists found r,
    searchSections member_library (Some (JStr "alpha")) 10 = Return found
    /\ In r found
    /\ ranked_id r = Some "toString"
    /\ score r = Text "function toString() { [native code] }1".
Proof.
  eexists. eexists. split; [vm_compute; reflexivity |].
  split; [left; reflexivity |]. split; reflexivity.
Qed.

(** ** Arguments outside the declared schema (C5) *)

Lemma named_search_dispatch (this : parser) (call : tool_call)
    (table : obj (list string)) (arg : value) :
  named_search call = Some (table, arg) ->
  exists argName,
    (argName = "topic" \/ argName = "impactType")
    /\ dispatch this call = search_by_table table argName this arg (call_input call).
Proof.
  unfold named_search, dispatch.
  destruct (String.eqb (call_name call) "search_by_topic") eqn:E1.
  - apply String.eqb_eq in E1. rewrite E1. intros [= <- <-].
    exists "topic". split; [now left | reflexivity].
  - destruct (String.eqb (call_name call) "search_financial_impact") eqn:E2; [| discriminate].
    apply String.eqb_eq in E2. rewrite E2. intros [= <- <-].
    exists "impactType". split; [now right | reflexivity].
Qed.

(** C5, as stated: a topic outside the enumerated values, and a keyword
    search without its required query, fail the declared schema, and the
    conversation gets an ordinary result for each, not an error. *)
Lemma schema_failures_answered_without_error :
  (accepted_by_schema topic_outside_enum = Some false
   /\ is_error_payload (result_content (answer Sample.library topic_outside_enum)) = false
   /\ option_map (@List.length json)
        (results_of (result_content (answer Sample.library topic_outside_enum))) = Some 3)
  /\ (accepted_by_schema query_missing = Some false
      /\ is_error_payload (result_content (answer Sample.library query_missing)) = false
      /\ results_of (result_content (answer Sample.library query_missing)) = Some []).
Proof. vm_compute. repeat split. Qed.

(** ** The fuel of the loop *)

(** The loop of [handleToolCalls] never stops for want of fuel: where the
    model stops at the budget or before, the reply it stops on asks for no
    tool or the budget is used up. *)
Lemma tool_loop_stops_by_itself
    (post : payload -> result response) (this : parser) (budget : nat)
    (originalPayload : payload) (fuel : nat) (st st' : loop_state) :
  budget <= iterationCount st + fuel ->
  outcome (tool_loop post this budget originalPayload fuel st) = Return st' ->
  requests_tools (currentResponse st') && (iterationCount st' <? budget) = false.
Proof.
  revert st. induction fuel as [| fuel IH]; intros st Hle H.
  - cbn in H. injection H as <-.
    assert (E : (iterationCount st <? budget) = false) by (apply Nat.ltb_ge; lia).
    rewrite E. apply andb_false_r.
  - destruct (requests_tools (currentResponse st) && (iterationCount st <? budget)) eqn:E.
    + apply andb_true_iff in E. destruct E as [Hreq Hlt]. apply Nat.ltb_lt in Hlt.
      destruct (requests_tools_content _ Hreq) as [items Hc].
      rewrite (tool_loop_step post this budget originalPayload fuel st items Hreq Hlt Hc) in H.
      cbn zeta in H. destruct (post _) as [next | e]; [| discriminate].
      specialize (IH {| currentResponse := next;
                        conversationHistory :=
                          conversationHistory st ++ [assistant_turn (currentResponse st)]
                            ++ [results_turn (map (answer this) (tool_uses items))];
                        iterationCount := iterationCount st + 1 |}).
      cbn [iterationCount] in IH.
      destruct (tool_loop _ _ _ _ fuel _) as [t r]. cbn in H, IH.
      apply IH; [lia | exact H].
    + rewrite (tool_loop_stop post this budget originalPayload (S fuel) st E) in H.
      cbn in H. injection H as <-. exact E.
Qed.

(* ================================================================= *)
(** * The text utilities *)

(** ** Trimming and the normal form of a text *)

Lemma chars_str (l : list ascii) : chars (str l) = l.
Proof. apply list_ascii_of_string_of_list_ascii. Qed.

Lemma str_chars (s : string) : str (chars s) = s.
Proof. apply string_of_list_ascii_of_string. Qed.

Lemma length_chars (s : string) : List.length (chars s) = String.length s.
Proof. induction s; simpl; congruence. Qed.

Lemma drop_spaces_split (l : list ascii) :
  exists a, l = a ++ drop_spaces l /\ forallb is_space a = true.
Proof.
  induction l as [| c r IH]; simpl.
  - exists []. split; reflexivity.
  - destruct (is_space c) eqn:E.
    + destruct IH as (a & Ha & Hs). exists (c :: a). simpl. rewrite E, Hs.
      split; [congruence | reflexivity].
    + exists []. split; reflexivity.
Qed.

Lemma drop_spaces_head (l : list ascii) : space_at (hd_error (drop_spaces l)) = false.
Proof.
  induction l as [| c r IH]; simpl; [reflexivity |].
  destruct (is_space c) eqn:E; [exact IH | simpl; exact E].
Qed.

Lemma drop_spaces_fixed (l : list ascii) :
  space_at (hd_error l) = false -> drop_spaces l = l.
Proof. destruct l as [| c r]; simpl; [reflexivity |]. intros ->. reflexivity. Qed.

(** What [trim] removes: white space in front and behind. *)
Lemma trim_chars_split (l : list ascii) :
  exists a b, l = a ++ trim_chars l ++ b
              /\ forallb is_space a = true /\ forallb is_space b = true.
Proof.
  unfold trim_chars.
  destruct (drop_spaces_split l) as (a & Ha & Hsa).
  destruct (drop_spaces_split (rev (drop_spaces l))) as (b & Hb & Hsb).
  exists a, (rev b). repeat split.
  - rewrite Ha at 1. f_equal.
    rewrite <- (rev_involutive (drop_spaces l)) at 1. rewrite Hb at 1.
    now rewrite rev_app_distr.
  - exact Hsa.
  - rewrite forallb_forall in *. intros x Hx. apply Hsb. now apply in_rev.
Qed.

Lemma hd_error_app_nonempty {A} (l r : list A) : l <> [] -> hd_error (l ++ r) = hd_error l.
Proof. destruct l; [congruence | reflexivity]. Qed.

Lemma trim_chars_ends (l : list ascii) :
  space_at (hd_error (trim_chars l)) = false
  /\ space_at (hd_error (rev (trim_chars l))) = false.
Proof.
  unfold trim_chars. split.
  - destruct (drop_spaces_split (rev (drop_spaces l))) as (b & Hb & _).
    set (t := drop_spaces (rev (drop_spaces l))) in *.
    destruct (rev t) as [| c r] eqn:Et; [reflexivity |].
    assert (H : drop_spaces l = rev t ++ rev b).
    { rewrite <- (rev_involutive (drop_spaces l)), Hb. now rewrite rev_app_distr. }
    pose proof (drop_spaces_head l) as Hh. rewrite H, Et in Hh. exact Hh.
  - rewrite rev_involutive. apply drop_spaces_head.
Qed.

Lemma trim_chars_fixed (l : list ascii) :
  space_at (hd_error l) = false -> space_at (hd_error (rev l)) = false ->
  trim_chars l = l.
Proof.
  intros H1 H2. unfold trim_chars.
  rewrite (drop_spaces_fixed l H1), (drop_spaces_fixed (rev l) H2).
  apply rev_involutive.
Qed.

Lemma trim_chars_idempotent (l : list ascii) : trim_chars (trim_chars l) = trim_chars l.
Proof. destruct (trim_chars_ends l). now apply trim_chars_fixed. Qed.

Lemma trim_idempotent (s : string) : trim (trim s) = trim s.
Proof. unfold trim. now rewrite chars_str, trim_chars_idempotent. Qed.

Lemma trim_chars_length (l : list ascii) : List.length (trim_chars l) <= List.length l.
Proof.
  destruct (trim_chars_split l) as (a & b & H & _).
  rewrite H at 2. rewrite !length_app. lia.
Qed.

Lemma trim_length (s : string) : String.length (trim s) <= String.length s.
Proof.
  unfold trim. rewrite <- !length_chars, chars_str. apply trim_chars_length.
Qed.

Lemma single_blanks_weaken (l : list ascii) :
  single_blanks true l = true -> single_blanks false l = true.
Proof.
  destruct l as [| c r]; simpl; [reflexivity |].
  destruct (is_space c); [| trivial].
  rewrite andb_false_r. discriminate.
Qed.

Lemma single_blanks_any (b : bool) (l : list ascii) :
  single_blanks b l = true -> single_blanks false l = true.
Proof. destruct b; [apply single_blanks_weaken | trivial]. Qed.

Lemma single_blanks_app (b : bool) (p q : list ascii) :
  single_blanks b (p ++ q) = true ->
  single_blanks b p = true /\ single_blanks false q = true.
Proof.
  revert b. induction p as [| c r IH]; intros b; simpl.
  - intros H. split; [reflexivity | now apply single_blanks_any with b].
  - destruct (is_space c).
    + rewrite !andb_true_iff. intros [[H1 H2] H3].
      destruct (IH _ H3) as [H4 H5]. now rewrite H1, H2, H4.
    + apply IH.
Qed.

Lemma collapse_single (b : bool) (l : list ascii) :
  single_blanks b (collapse_spaces b l) = true.
Proof.
  revert b. induction l as [| c r IH]; intros b; simpl; [reflexivity |].
  destruct (is_space c) eqn:E.
  - destruct b; [apply IH |]. simpl. apply IH.
  - simpl. rewrite E. apply IH.
Qed.

Lemma collapse_fixed (b : bool) (l : list ascii) :
  single_blanks b l = true -> collapse_spaces b l = l.
Proof.
  revert b. induction l as [| c r IH]; intros b; simpl; [reflexivity |].
  destruct (is_space c) eqn:E.
  - rewrite !andb_true_iff. intros [[H1 H2] H3].
    apply Ascii.eqb_eq in H1. destruct b; [discriminate |].
    subst c. f_equal. now apply IH.
  - intros H. f_equal. now apply IH.
Qed.

Lemma lower_space (c : ascii) : is_space (lower c) = is_space c.
Proof.
  unfold lower. destruct (between 65 90 c) eqn:E; [| reflexivity].
  unfold between in E. apply andb_true_iff in E. destruct E as [E1 E2].
  apply Nat.leb_le in E1, E2.
  unfold is_space, between, code in *.
  rewrite nat_ascii_embedding by lia.
  repeat match goal with
         | |- context [?a <=? ?b] => destruct (Nat.leb_spec a b)
         | |- context [?a =? ?b] => destruct (Nat.eqb_spec a b)
         end; simpl; try reflexivity; lia.
Qed.

Lemma lower_blank (c : ascii) : is_space c = true -> Ascii.eqb (lower c) " "%char = Ascii.eqb c " "%char.
Proof.
  intros H. unfold lower. destruct (between 65 90 c) eqn:E; [| reflexivity].
  exfalso. unfold between in E. apply andb_true_iff in E. destruct E as [E1 E2].
  apply Nat.leb_le in E1, E2. unfold is_space, between in H.
  repeat match type of H with
         | context [?a <=? ?b] => destruct (Nat.leb_spec a b)
         | context [?a =? ?b] => destruct (Nat.eqb_spec a b)
         end; simpl in H; try discriminate; lia.
Qed.

Lemma lower_not_upper (c : ascii) : is_upper (lower c) = false.
Proof.
  unfold is_upper, lower. destruct (between 65 90 c) eqn:E; [| exact E].
  unfold between in *. apply andb_true_iff in E. destruct E as [E1 E2].
  apply Nat.leb_le in E1, E2. unfold code in *.
  rewrite nat_ascii_embedding by lia.
  apply andb_false_iff. right. apply Nat.leb_gt. lia.
Qed.

Lemma lower_fixed (c : ascii) : is_upper c = false -> lower c = c.
Proof. unfold is_upper, lower. now intros ->. Qed.

Lemma single_blanks_lower (b : bool) (l : list ascii) :
  single_blanks b (map lower l) = single_blanks b l.
Proof.
  revert b. induction l as [| c r IH]; intros b; simpl; [reflexivity |].
  rewrite lower_space. destruct (is_space c) eqn:E.
  - now rewrite lower_blank, IH.
  - apply IH.
Qed.

Lemma hd_error_map {A B} (f : A -> B) (l : list A) :
  hd_error (map f l) = option_map f (hd_error l).
Proof. destruct l; reflexivity. Qed.

Lemma space_at_lower (c : option ascii) : space_at (option_map lower c) = space_at c.
Proof. destruct c; simpl; [apply lower_space | reflexivity]. Qed.

Lemma normalizeText_chars (s : string) :
  s <> "" -> normalizeText (Some (JStr s)) = str (normalized_chars (chars s)).
Proof.
  intros H. unfold normalizeText, as_string.
  destruct (String.eqb_spec s ""); [contradiction |].
  unfold toLowerCase, trim, normalized_chars. now rewrite !chars_str.
Qed.

Lemma normalized_chars_shape (l : list ascii) :
  is_normalized (str (normalized_chars l)) = true.
Proof.
  unfold is_normalized. rewrite chars_str. unfold normalized_chars.
  set (t := trim_chars (collapse_spaces false l)).
  assert (Hs : single_blanks false t = true).
  { destruct (trim_chars_split (collapse_spaces false l)) as (a & b & H & _).
    pose proof (collapse_single false l) as Hc. rewrite H in Hc.
    apply single_blanks_app in Hc. destruct Hc as [_ Hc].
    apply single_blanks_app in Hc. tauto. }
  destruct (trim_chars_ends (collapse_spaces false l)) as [H1 H2]. fold t in H1, H2.
  rewrite single_blanks_lower, Hs.
  rewrite hd_error_map, space_at_lower, H1.
  rewrite <- map_rev, hd_error_map, space_at_lower, H2. simpl.
  rewrite forallb_forall. intros c Hc. apply in_map_iff in Hc.
  destruct Hc as (d & <- & _). now rewrite lower_not_upper.
Qed.

Lemma map_lower_fixed (l : list ascii) :
  forallb (fun c => negb (is_upper c)) l = true -> map lower l = l.
Proof.
  induction l as [| c r IH]; simpl; [reflexivity |].
  rewrite andb_true_iff, negb_true_iff. intros [Hc Hr].
  now rewrite (lower_fixed c Hc), IH.
Qed.

Lemma normalized_chars_fixed (l : list ascii) :
  is_normalized (str l) = true -> normalized_chars l = l.
Proof.
  unfold is_normalized. rewrite chars_str. rewrite !andb_true_iff.
  intros [[[H1 H2] H3] H4]. apply negb_true_iff in H2, H3.
  unfold normalized_chars.
  rewrite (collapse_fixed false l H1), (trim_chars_fixed l H2 H3).
  now apply map_lower_fixed.
Qed.

Lemma normalizeText_shape_all (t : value) : is_normalized (normalizeText t) = true.
Proof.
  unfold normalizeText at 1. destruct (as_string t) as [s |] eqn:E; [| reflexivity].
  unfold toLowerCase, trim. rewrite !chars_str. apply normalized_chars_shape.
Qed.

Lemma normalizeText_fixed (s : string) :
  is_normalized s = true -> normalizeText (Some (JStr s)) = s.
Proof.
  intros H. destruct (String.eqb_spec s "") as [-> | Hne]; [reflexivity |].
  rewrite normalizeText_chars by assumption.
  rewrite normalized_chars_fixed; [apply str_chars |]. now rewrite str_chars.
Qed.

(** X1.  Normalizing is idempotent: [normalizeText]
    applied to its own result returns that result, for every input value. *)
Theorem normalizeText_idempotent (t : value) :
  normalizeText (Some (JStr (normalizeText t))) = normalizeText t.
Proof. apply normalizeText_fixed, normalizeText_shape_all. Qed.

(** X2.  The result of [normalizeText] is in normal
    form (its only white space is single blanks between other characters,
    and it has no upper-case letter), and a text in normal form is returned
    as it is. *)
Theorem normalizeText_normal_form :
  (forall t, is_normalized (normalizeText t) = true)
  /\ (forall s, is_normalized s = true -> normalizeText (Some (JStr s)) = s).
Proof. split; [apply normalizeText_shape_all | apply normalizeText_fixed]. Qed.

Lemma normalizeText_normal_form_witness :
  is_normalized "farm bill 2025" = true
  /\ normalizeText (Some (JStr "farm bill 2025")) = "farm bill 2025".
Proof.
  split; [reflexivity |].
  apply (proj2 normalizeText_normal_form "farm bill 2025"). reflexivity.
Defined.

(** ** Tokens, truncation and tags *)

Lemma split_nonword_pieces (l : list ascii) :
  Forall (fun piece => forall c, In c piece -> In c l /\ is_word c = true) (split_nonword l).
Proof.
  induction l as [| c r IH]; simpl.
  - constructor; [intros c [] | constructor].
  - assert (Hw : Forall (fun piece => forall x, In x piece -> In x (c :: r) /\ is_word x = true)
                   (split_nonword r)).
    { eapply Forall_impl; [| exact IH]. intros p Hp x Hx. destruct (Hp x Hx). simpl. tauto. }
    destruct (is_word c) eqn:E.
    + destruct (split_nonword r) as [| t ts].
      * constructor; [| constructor]. intros x [<- | []]. simpl. tauto.
      * inversion Hw as [| ? ? Ht Hts]; subst. constructor; [| exact Hts].
        intros x [<- | Hx]; [simpl; tauto | now apply Ht].
    + destruct r as [| c' r']; [| destruct (is_word c')]; try exact Hw;
        (constructor; [intros x [] | exact Hw]).
Qed.

Lemma lower_word_of_word (c : ascii) :
  is_word c = true -> is_upper c = false -> lower_word_char c = true.
Proof.
  unfold is_word, is_upper, lower_word_char. intros H U.
  rewrite U, orb_false_r in H. exact H.
Qed.

(** The characters of a token. *)
Lemma keyword_chars (t : value) (word : string) :
  In word (extractKeywords t) -> forallb lower_word_char (chars word) = true.
Proof.
  unfold extractKeywords. destruct (as_string t) eqn:E; [| intros []].
  intros Hw. apply filter_In in Hw. destruct Hw as [Hw _].
  apply filter_In in Hw. destruct Hw as [Hw _].
  apply in_map_iff in Hw. destruct Hw as (p & <- & Hp).
  rewrite chars_str. apply forallb_forall. intros c Hc.
  pose proof (split_nonword_pieces (chars (normalizeText t))) as Hall.
  rewrite Forall_forall in Hall. destruct (Hall p Hp c Hc) as [Hin Hword].
  apply lower_word_of_word; [exact Hword |].
  pose proof (normalizeText_shape_all t) as Hn. unfold is_normalized in Hn.
  rewrite !andb_true_iff in Hn. destruct Hn as [_ Hn].
  rewrite forallb_forall in Hn. apply negb_true_iff. now apply Hn.
Qed.

(** X3.  Every token that [extractKeywords]
    returns is a non-empty word of lower-case letters, digits and
    underscores: no upper-case letter, no white space and no punctuation
    reaches the index or the search. *)
Theorem extractKeywords_lowercase_words (t : value) :
  Forall (fun word => word <> "" /\ forallb lower_word_char (chars word) = true)
         (extractKeywords t).
Proof.
  apply Forall_forall. intros w Hw. split; [| exact (keyword_chars t w Hw)].
  unfold extractKeywords in Hw. destruct (as_string t); [| destruct Hw].
  apply filter_In in Hw. destruct Hw as [Hw _].
  apply filter_In in Hw. destruct Hw as [_ Hlen].
  apply andb_true_iff in Hlen. destruct Hlen as [Hlen _]. apply Nat.ltb_lt in Hlen.
  intros ->. simpl in Hlen. lia.
Qed.

Lemma length_append (a b : string) : String.length (a ++ b) = String.length a + String.length b.
Proof. induction a; simpl; congruence. Qed.

Lemma substring0_length (n : nat) (s : string) : String.length (substring0 n s) <= n.
Proof.
  unfold substring0. rewrite <- length_chars, chars_str, length_firstn. lia.
Qed.

Lemma truncateText_length (text : value) (maxLength : nat) :
  String.length (truncateText text maxLength) <= maxLength + 3.
Proof.
  unfold truncateText. destruct (as_string text) as [s |]; [| simpl; lia].
  destruct (Nat.leb_spec (String.length s) maxLength); [lia |].
  rewrite length_append. simpl.
  pose proof (trim_length (substring0 maxLength s)).
  pose proof (substring0_length maxLength s). lia.
Qed.

(** X4.  [truncateText] never returns more than
    [maxLength + 3] characters; a string of at most [maxLength] characters
    is returned unchanged, and a longer one is cut to at most [maxLength]
    characters without white space at either end, followed by three
    dots. *)
Theorem truncateText_bound (text : value) (maxLength : nat) :
  String.length (truncateText text maxLength) <= maxLength + 3
  /\ (forall s, text = Some (JStr s) -> String.length s <= maxLength ->
                truncateText text maxLength = s)
  /\ (forall s, text = Some (JStr s) -> maxLength < String.length s ->
                exists kept, truncateText text maxLength = (kept ++ "...")%string
                             /\ String.length kept <= maxLength
                             /\ trim kept = kept).
Proof.
  split; [apply truncateText_length | split].
  - intros s -> H. unfold truncateText, as_string.
    destruct (String.eqb_spec s ""); [now subst |].
    apply Nat.leb_le in H. now rewrite H.
  - intros s -> H. unfold truncateText, as_string.
    destruct (String.eqb_spec s ""); [subst; simpl in H; lia |].
    apply Nat.leb_gt in H. rewrite H.
    exists (trim (substring0 maxLength s)). repeat split.
    + pose proof (trim_length (substring0 maxLength s)).
      pose proof (substring0_length maxLength s). lia.
    + apply trim_idempotent.
Qed.

Lemma truncateText_bound_witness :
  truncateText (Some (JStr "farm")) 10 = "farm"
  /\ exists kept, truncateText (Some (JStr "farm subsidy program")) 5 = (kept ++ "...")%string
                  /\ String.length kept <= 5
                  /\ trim kept = kept.
Proof.
  split.
  - apply (proj1 (proj2 (truncateText_bound (Some (JStr "farm")) 10)) "farm");
      [reflexivity | simpl; lia].
  - apply (proj2 (proj2 (truncateText_bound (Some (JStr "farm subsidy program")) 5))
             "farm subsidy program"); [reflexivity | simpl; lia].
Defined.

Lemma strip_subset (b : bool) (l : list ascii) (c : ascii) :
  In c (strip_tags_chars b l) -> In c l.
Proof.
  revert b. induction l as [| d r IH]; intros b; simpl; [trivial |].
  destruct b.
  - destruct (Ascii.eqb d ">"%char); intros H; right; eapply IH; exact H.
  - destruct (Ascii.eqb d "<"%char && existsb (Ascii.eqb ">"%char) r).
    + intros H. right. eapply IH; exact H.
    + intros [H | H]; [now left | right; eapply IH; exact H].
Qed.

Lemma existsb_subset (f : ascii -> bool) (a b : list ascii) :
  (forall c, In c a -> In c b) -> existsb f b = false -> existsb f a = false.
Proof.
  intros Hs Hb. destruct (existsb f a) eqn:E; [| reflexivity].
  apply existsb_exists in E. destruct E as (x & Hx & Hf).
  assert (Ht : existsb f b = true) by (apply existsb_exists; exists x; auto).
  congruence.
Qed.

Lemma strip_no_tag (b : bool) (l : list ascii) : has_tag (strip_tags_chars b l) = false.
Proof.
  revert b. induction l as [| d r IH]; intros b; simpl; [destruct b; reflexivity |].
  destruct b.
  - destruct (Ascii.eqb d ">"%char); apply IH.
  - destruct (Ascii.eqb d "<"%char) eqn:E; simpl.
    + destruct (existsb (Ascii.eqb ">"%char) r) eqn:X; [apply IH |].
      simpl. rewrite E, IH. simpl.
      rewrite (existsb_subset _ (strip_tags_chars false r) r); [reflexivity | | exact X].
      intros c. apply strip_subset.
    + rewrite E, IH. reflexivity.
Qed.

Lemma has_tag_app (p q : list ascii) :
  has_tag (p ++ q) = false -> has_tag p = false /\ has_tag q = false.
Proof.
  induction p as [| c r IH]; simpl; [tauto |].
  rewrite !orb_false_iff. intros [H1 H2]. destruct (IH H2) as [H3 H4].
  repeat split; try assumption.
  destruct (Ascii.eqb c "<"%char); [| reflexivity]. simpl in *.
  rewrite existsb_app in H1. apply orb_false_iff in H1. tauto.
Qed.

Lemma has_tag_trim (l : list ascii) : has_tag l = false -> has_tag (trim_chars l) = false.
Proof.
  intros H. destruct (trim_chars_split l) as (a & b & E & _). rewrite E in H.
  apply has_tag_app in H. destruct H as [_ H]. apply has_tag_app in H. tauto.
Qed.

Lemma strip_fixed (l : list ascii) : has_tag l = false -> strip_tags_chars false l = l.
Proof.
  induction l as [| c r IH]; simpl; [reflexivity |].
  rewrite orb_false_iff. intros [H1 H2]. rewrite H1. f_equal. now apply IH.
Qed.

(** X5.  The result of [stripTags] holds no tag (no
    [<] that has a [>] after it), and stripping it again changes
    nothing. *)
Theorem stripTags_leaves_no_tag (text : value) :
  has_tag (chars (stripTags text)) = false
  /\ stripTags (Some (JStr (stripTags text))) = stripTags text.
Proof.
  assert (H : has_tag (chars (stripTags text)) = false).
  { unfold stripTags. destruct (as_string text) as [s |]; [| reflexivity].
    unfold trim. rewrite !chars_str. apply has_tag_trim, strip_no_tag. }
  split; [exact H |].
  set (out := stripTags text) in *.
  unfold stripTags at 1. unfold as_string.
  destruct (String.eqb_spec out ""); [congruence |].
  rewrite (strip_fixed _ H), str_chars.
  unfold out, stripTags. destruct (as_string text); [apply trim_idempotent | reflexivity].
Qed.

(** ** The range of the similarity *)

Lemma Zpos_of_nat (u : nat) : u <> 0 -> Z.pos (Pos.of_nat u) = Z.of_nat u.
Proof.
  destruct u as [| u]; [congruence | intros _].
  rewrite <- Pos.of_nat_succ. lia.
Qed.

Lemma shared_In (a b : list string) (w : string) : In w (shared a b) <-> In w a /\ In w b.
Proof. unfold shared. rewrite nodup_In, filter_In, includes_In. tauto. Qed.

Lemma either_In (a b : list string) (w : string) : In w (either a b) <-> In w a \/ In w b.
Proof. unfold either. rewrite nodup_In, in_app_iff. tauto. Qed.

Lemma shared_le_either (a b : list string) : List.length (shared a b) <= List.length (either a b).
Proof.
  apply NoDup_incl_length; [apply NoDup_nodup |].
  intros w H. apply shared_In in H. apply either_In. tauto.
Qed.

Lemma either_nonempty (a b : list string) : a <> [] -> List.length (either a b) <> 0.
Proof.
  destruct a as [| x a]; [congruence | intros _ H].
  apply length_zero_iff_nil in H.
  assert (In x (either (x :: a) b)) by (apply either_In; simpl; tauto).
  rewrite H in *. contradiction.
Qed.

Lemma jaccard_index_eq (a b : list string) :
  a <> [] -> b <> [] ->
  jaccard_index a b
  = Z.of_nat (List.length (shared a b)) # Pos.of_nat (List.length (either a b)).
Proof. destruct a; [congruence |]. destruct b; [congruence |]. reflexivity. Qed.

Lemma jaccard_index_range (a b : list string) : (0 <= jaccard_index a b <= 1)%Q.
Proof.
  destruct a as [| x a]; [split; discriminate |].
  destruct b as [| y b]; [split; discriminate |].
  rewrite jaccard_index_eq by discriminate.
  pose proof (shared_le_either (x :: a) (y :: b)) as Hle.
  pose proof (either_nonempty (x :: a) (y :: b) ltac:(discriminate)) as Hne.
  unfold Qle. cbn [Qnum Qden]. rewrite Zpos_of_nat by exact Hne. lia.
Qed.

Lemma jaccard_index_zero (a b : list string) :
  (jaccard_index a b == 0)%Q <-> forall w, In w a -> ~ In w b.
Proof.
  destruct a as [| x a]; [split; [intros _ w [] | reflexivity] |].
  destruct b as [| y b]; [split; [intros _ w _ [] | reflexivity] |].
  rewrite jaccard_index_eq by discriminate.
  unfold Qeq. cbn [Qnum Qden]. split.
  - intros H w Ha Hb.
    assert (Hl : List.length (shared (x :: a) (y :: b)) = 0) by lia.
    apply length_zero_iff_nil in Hl.
    assert (Hin : In w (shared (x :: a) (y :: b))) by (apply shared_In; tauto).
    rewrite Hl in Hin. contradiction.
  - intros H.
    assert (Hl : shared (x :: a) (y :: b) = []).
    { destruct (shared (x :: a) (y :: b)) as [| w l] eqn:E; [reflexivity |].
      assert (Hin : In w (shared (x :: a) (y :: b))) by (rewrite E; simpl; tauto).
      apply shared_In in Hin. destruct Hin as [Ha Hb]. destruct (H w Ha Hb). }
    rewrite Hl. reflexivity.
Qed.

Lemma jaccard_index_one (a b : list string) :
  (jaccard_index a b == 1)%Q <-> a <> [] /\ forall w, In w a <-> In w b.
Proof.
  destruct a as [| x a].
  { split; [discriminate | intros [H _]; congruence]. }
  destruct b as [| y b].
  { split; [discriminate |]. intros [_ H]. destruct (proj1 (H x)). simpl. tauto. }
  rewrite jaccard_index_eq by discriminate.
  pose proof (either_nonempty (x :: a) (y :: b) ltac:(discriminate)) as Hne.
  unfold Qeq. cbn [Qnum Qden]. rewrite Zpos_of_nat by exact Hne.
  set (A := x :: a) in *. set (B := y :: b) in *.
  split.
  - intros H. split; [discriminate |].
    assert (Hl : List.length (either A B) <= List.length (shared A B)) by lia.
    assert (Hincl : incl (either A B) (shared A B)).
    { apply NoDup_length_incl; [apply NoDup_nodup | exact Hl |].
      intros w Hw. apply shared_In in Hw. apply either_In. tauto. }
    intros w. split; intros Hw.
    + assert (In w (either A B)) by (apply either_In; tauto).
      apply Hincl, shared_In in H0. tauto.
    + assert (In w (either A B)) by (apply either_In; tauto).
      apply Hincl, shared_In in H0. tauto.
  - intros [_ H].
    assert (Hl : List.length (shared A B) = List.length (either A B)).
    { apply same_members_same_size; try apply NoDup_nodup.
      intros w. rewrite shared_In, either_In. specialize (H w). tauto. }
    lia.
Qed.

(** X6.  The similarity of two values lies between
    0 and 1; it is 0 exactly when the two have no token in common, and 1
    exactly when they have the same tokens and at least one. *)
Theorem calculateSimilarity_range (a b : value) :
  (0 <= calculateSimilarity a b <= 1)%Q
  /\ ((calculateSimilarity a b == 0)%Q
      <-> forall w, In w (extractKeywords a) -> ~ In w (extractKeywords b))
  /\ ((calculateSimilarity a b == 1)%Q
      <-> extractKeywords a <> []
          /\ forall w, In w (extractKeywords a) <-> In w (extractKeywords b)).
Proof.
  rewrite calculateSimilarity_is_jaccard.
  split; [apply jaccard_index_range |].
  split; [apply jaccard_index_zero | apply jaccard_index_one].
Qed.

(** ** The hash of a text *)

Lemma to_int32_shift (x k : Z) : to_int32 (x + k * 4294967296) = to_int32 x.
Proof.
  unfold to_int32. f_equal.
  replace (x + k * 4294967296 + 2147483648)%Z with (x + 2147483648 + k * 4294967296)%Z by lia.
  apply Z_mod_plus_full.
Qed.

Lemma to_int32_offset (x : Z) : exists k, to_int32 x = (x + k * 4294967296)%Z.
Proof.
  exists (- ((x + 2147483648) / 4294967296))%Z. unfold to_int32.
  rewrite Z.mod_eq by lia. lia.
Qed.

Lemma to_int32_range (x : Z) : (- 2147483648 <= to_int32 x < 2147483648)%Z.
Proof.
  unfold to_int32.
  pose proof (Z.mod_pos_bound (x + 2147483648) 4294967296 ltac:(lia)). lia.
Qed.

Lemma hash_step_int32 (p : Z) (c : ascii) :
  hash_step (to_int32 p) c = to_int32 (31 * p + Z.of_nat (code c)).
Proof.
  unfold hash_step, bit_and, shift_left. rewrite Z.land_diag.
  rewrite Z.shiftl_mul_pow2 by lia.
  destruct (to_int32_offset p) as (k1 & E1).
  destruct (to_int32_offset (to_int32 p)) as (k0 & E0).
  destruct (to_int32_offset (to_int32 (to_int32 p) * 2 ^ 5)) as (k2 & E2).
  rewrite E2, E0, E1.
  replace ((p + k1 * 4294967296 + k0 * 4294967296) * 2 ^ 5 + k2 * 4294967296
           - (p + k1 * 4294967296) + Z.of_nat (code c))%Z
    with (31 * p + Z.of_nat (code c) + (31 * k1 + 32 * k0 + k2) * 4294967296)%Z by lia.
  apply to_int32_shift.
Qed.

Lemma hash_fold (l : list ascii) (p : Z) :
  fold_left hash_step l (to_int32 p)
  = to_int32 (fold_left (fun p c => (31 * p + Z.of_nat (code c))%Z) l p).
Proof.
  revert p. induction l as [| c r IH]; intros p; simpl; [reflexivity |].
  rewrite hash_step_int32. apply IH.
Qed.

Lemma digit36_round_trip (d : Z) : (0 <= d < 36)%Z -> digit36_value (digit36 d) = Some d.
Proof.
  intros H. rewrite <- (Z2Nat.id d) by lia.
  assert (Hk : Z.to_nat d < 36) by lia.
  revert Hk. generalize (Z.to_nat d). clear. intros k Hk.
  do 36 (destruct k as [| k]; [reflexivity |]). lia.
Qed.

Lemma digits36_value (fuel : nat) (n : Z) (acc : list ascii) :
  (0 <= n < 2 ^ Z.of_nat fuel)%Z ->
  fold_left numeral36 (digits36 fuel n acc) (Some 0%Z)
  = fold_left numeral36 acc (Some n).
Proof.
  revert n acc. induction fuel as [| fuel IH]; intros n acc Hn.
  - simpl in *. replace n with 0%Z by lia. reflexivity.
  - cbn [digits36].
    assert (Hd : digit36_value (digit36 (n mod 36)) = Some (n mod 36)%Z).
    { apply digit36_round_trip. apply Z.mod_pos_bound. lia. }
    destruct (Z.ltb_spec n 36).
    + simpl. unfold numeral36 at 2. rewrite Hd. rewrite Z.mod_small by lia. reflexivity.
    + rewrite IH.
      * simpl. unfold numeral36 at 2. rewrite Hd. f_equal. f_equal.
        rewrite (Z.div_mod n 36) at 3 by lia. lia.
      * split; [apply Z.div_pos; lia |].
        apply Z.div_lt_upper_bound; [lia |].
        rewrite Nat2Z.inj_succ, Z.pow_succ_r in Hn by lia. lia.
Qed.

Lemma digits36_nonempty (fuel : nat) (n : Z) (acc : list ascii) :
  digits36 (S fuel) n acc <> [].
Proof.
  revert n acc. induction fuel as [| fuel IH]; intros n acc.
  - cbn. destruct (n <? 36)%Z; discriminate.
  - cbn [digits36]. destruct (n <? 36)%Z; [discriminate |]. apply IH.
Qed.

Lemma toString36_round_trip (n : Z) : (0 <= n)%Z -> base36 (toString36 n) = Some n.
Proof.
  intros Hn. unfold base36, toString36. rewrite chars_str.
  destruct (digits36 (S (Z.to_nat (Z.log2 n))) n []) as [| c l] eqn:E.
  { now apply digits36_nonempty in E. }
  rewrite <- E, digits36_value; [reflexivity |].
  split; [exact Hn |].
  rewrite Nat2Z.inj_succ, Z2Nat.id by apply Z.log2_nonneg.
  destruct (Z.eq_dec n 0) as [-> | Hz]; [reflexivity |].
  apply Z.log2_spec. lia.
Qed.

(** X7.  For a non-empty string [generateHash]
    returns the numeral in base 36 of the absolute value of the polynomial
    hash of the character codes (multiplier 31, most significant first)
    wrapped to a signed 32-bit integer; the number is at most [2^31].  For
    any other value it returns the empty string. *)
Theorem generateHash_polynomial (text : value) :
  (as_string text = None -> generateHash text = "")
  /\ (forall s, as_string text = Some s ->
        base36 (generateHash text) = Some (Z.abs (to_int32 (polynomial (chars s))))
        /\ (Z.abs (to_int32 (polynomial (chars s))) <= 2147483648)%Z).
Proof.
  unfold generateHash. split; [now intros -> |].
  intros s ->. change 0%Z with (to_int32 0) at 1. rewrite hash_fold.
  fold (polynomial (chars s)). split.
  - apply toString36_round_trip, Z.abs_nonneg.
  - pose proof (to_int32_range (polynomial (chars s))). lia.
Qed.

Lemma generateHash_polynomial_witness :
  generateHash (Some (JNum 7)) = ""
  /\ base36 (generateHash (Some (JStr "farm subsidy")))
     = Some (Z.abs (to_int32 (polynomial (chars "farm subsidy")))).
Proof.
  split.
  - apply (proj1 (generateHash_polynomial (Some (JNum 7)))). reflexivity.
  - apply (proj2 (generateHash_polynomial (Some (JStr "farm subsidy"))) "farm subsidy").
    reflexivity.
Defined.

(** ** Relevant sentences *)

Lemma in_run_after_cons (b : bool) (c : ascii) (p : list ascii) :
  in_run_after b (c :: p) = in_run_after (is_space c) p.
Proof.
  unfold in_run_after. simpl. destruct (rev p) as [| d r] eqn:E; reflexivity.
Qed.

Lemma collapse_app (b : bool) (p q : list ascii) :
  collapse_spaces b (p ++ q)
  = collapse_spaces b p ++ collapse_spaces (in_run_after b p) q.
Proof.
  revert b. induction p as [| c r IH]; intros b; [reflexivity |].
  rewrite in_run_after_cons. simpl.
  destruct (is_space c); [destruct b |]; simpl; now rewrite IH.
Qed.

Lemma collapse_blank (b : bool) (a : list ascii) :
  forallb is_space a = true -> forallb is_space (collapse_spaces b a) = true.
Proof.
  revert b. induction a as [| c r IH]; intros b; simpl; [reflexivity |].
  intros H. apply andb_true_iff in H. destruct H as [H1 H2]. rewrite H1.
  destruct b; simpl; auto.
Qed.

Lemma collapse_head (b : bool) (t : list ascii) :
  space_at (hd_error t) = false -> collapse_spaces b t = collapse_spaces false t.
Proof. destruct t as [| c r]; simpl; [reflexivity |]. now intros ->. Qed.

Lemma drop_spaces_blank (a x : list ascii) :
  forallb is_space a = true -> drop_spaces (a ++ x) = drop_spaces x.
Proof.
  induction a as [| c r IH]; simpl; [reflexivity |].
  intros H. apply andb_true_iff in H. destruct H as [-> H]. auto.
Qed.

Lemma forallb_rev {A} (f : A -> bool) (l : list A) : forallb f (rev l) = forallb f l.
Proof.
  induction l as [| x r IH]; simpl; [reflexivity |].
  rewrite forallb_app, IH. simpl. rewrite andb_true_r. apply andb_comm.
Qed.

Lemma trim_chars_blank (a x b : list ascii) :
  forallb is_space a = true -> forallb is_space b = true ->
  trim_chars (a ++ x ++ b) = trim_chars x.
Proof.
  intros Ha Hb. unfold trim_chars. rewrite (drop_spaces_blank a _ Ha).
  destruct (drop_spaces_split x) as (a' & Ex & Ha').
  destruct (drop_spaces x) as [| c r] eqn:E.
  - (* x is blank *)
    assert (Hx : forallb is_space x = true) by (rewrite Ex, app_nil_r; exact Ha').
    rewrite <- (app_nil_r (x ++ b)), drop_spaces_blank; [reflexivity |].
    rewrite forallb_app, Hx, Hb. reflexivity.
  - assert (Hd : drop_spaces (x ++ b) = drop_spaces x ++ b).
    { rewrite Ex at 1. rewrite <- app_assoc, (drop_spaces_blank a' _ Ha'), E. simpl.
      pose proof (drop_spaces_head x) as Hh. rewrite E in Hh. simpl in Hh. now rewrite Hh. }
    rewrite Hd, rev_app_distr, drop_spaces_blank; [now rewrite E |].
    now rewrite forallb_rev.
Qed.

Lemma collapse_last (b : bool) (t : list ascii) :
  space_at (hd_error (rev t)) = false ->
  space_at (hd_error (rev (collapse_spaces b t))) = false.
Proof.
  destruct (rev t) as [| z r] eqn:E; simpl.
  - intros _. apply (f_equal (@rev ascii)) in E. rewrite rev_involutive in E.
    subst t. destruct b; reflexivity.
  - intros Hz. apply (f_equal (@rev ascii)) in E. rewrite rev_involutive in E.
    simpl in E. subst t. rewrite collapse_app. simpl. rewrite Hz.
    rewrite rev_app_distr. simpl. exact Hz.
Qed.

Lemma collapse_first (t : list ascii) :
  space_at (hd_error t) = false ->
  space_at (hd_error (collapse_spaces false t)) = false.
Proof. destruct t as [| c r]; simpl; [reflexivity |]. intros H. rewrite H. simpl. exact H. Qed.

Lemma trim_collapse (l : list ascii) :
  trim_chars (collapse_spaces false l) = collapse_spaces false (trim_chars l).
Proof.
  destruct (trim_chars_split l) as (a & b & E & Ha & Hb).
  destruct (trim_chars_ends l) as [H1 H2].
  set (t := trim_chars l) in *.
  rewrite E at 1. rewrite !collapse_app.
  rewrite trim_chars_blank by (apply collapse_blank; assumption).
  rewrite (collapse_head _ t H1).
  apply trim_chars_fixed; [now apply collapse_first | now apply collapse_last].
Qed.

Lemma normalized_chars_trim (l : list ascii) :
  normalized_chars (trim_chars l) = normalized_chars l.
Proof.
  unfold normalized_chars. f_equal.
  now rewrite !trim_collapse, trim_chars_idempotent.
Qed.

Lemma normalizeText_trim (s : string) :
  normalizeText (Some (JStr (trim s))) = normalizeText (Some (JStr s)).
Proof.
  destruct (String.eqb_spec s "") as [-> | Hs]; [reflexivity |].
  destruct (String.eqb_spec (trim s) "") as [E | Ht].
  - rewrite E. rewrite (normalizeText_chars s Hs).
    rewrite <- normalized_chars_trim.
    unfold trim in E. apply (f_equal chars) in E. rewrite chars_str in E. rewrite E.
    reflexivity.
  - rewrite (normalizeText_chars s Hs), (normalizeText_chars _ Ht).
    unfold trim. now rewrite chars_str, normalized_chars_trim.
Qed.

Lemma split_runs_pieces (sep : ascii -> bool) (l : list ascii) :
  Forall (fun piece => forall c, In c piece -> In c l /\ sep c = false) (split_runs sep l).
Proof.
  induction l as [| c r IH]; simpl.
  - constructor; [intros c [] | constructor].
  - assert (Hw : Forall (fun piece => forall x, In x piece -> In x (c :: r) /\ sep x = false)
                   (split_runs sep r)).
    { eapply Forall_impl; [| exact IH]. intros p Hp x Hx. destruct (Hp x Hx). simpl. tauto. }
    destruct (sep c) eqn:E.
    + destruct r as [| c' r']; [| destruct (sep c')]; try exact Hw;
        (constructor; [intros x [] | exact Hw]).
    + destruct (split_runs sep r) as [| t ts].
      * constructor; [| constructor]. intros x [<- | []]. simpl. tauto.
      * inversion Hw as [| ? ? Ht Hts]; subst. constructor; [| exact Hts].
        intros x [<- | Hx]; [simpl; tauto | now apply Ht].
Qed.

Lemma trim_chars_In (l : list ascii) (c : ascii) : In c (trim_chars l) -> In c l.
Proof.
  intros H. destruct (trim_chars_split l) as (a & b & E & _). rewrite E.
  apply in_or_app. right. apply in_or_app. now left.
Qed.

Lemma slice0_In {A} (n : Z) (l : list A) (x : A) : In x (slice0 n l) -> In x l.
Proof.
  unfold slice0. destruct (n <? 0)%Z; intros H;
    match type of H with
    | In _ (firstn ?k _) => rewrite <- (firstn_skipn k l); apply in_or_app; now left
    end.
Qed.

(** X8.  When [extractRelevantSentences]
    returns, it returns at most [maxSentences] sentences (for a
    [maxSentences] that is not negative), and each of them is non-empty,
    has no white space around it, holds none of the characters [.], [!]
    and [?], and contains the normal form of at least one of the terms in
    its own normal form. *)
Theorem extractRelevantSentences_sound (text terms : value) (maxSentences : Z)
    (out : list string) :
  extractRelevantSentences text terms maxSentences = Return out ->
  ((0 <= maxSentences)%Z -> List.length out <= Z.to_nat maxSentences)
  /\ Forall (fun s =>
               s <> "" /\ trim s = s
               /\ forallb (fun c => negb (is_terminator c)) (chars s) = true
               /\ exists items term,
                    terms = Some (JArr items) /\ In term items
                    /\ string_includes (normalizeText (Some (JStr s)))
                         (normalizeText (Some term)) = true)
       out.
Proof.
  unfold extractRelevantSentences.
  destruct (negb (truthy text) || negb (truthy terms) || no_terms terms).
  { intros [= <-]. split; [simpl; lia | constructor]. }
  destruct text as [[| | | s | |] |]; try discriminate.
  set (sentences := filter _ _).
  assert (Hnil : Return (A := list string) [] = Return out ->
                 ((0 <= maxSentences)%Z -> List.length out <= Z.to_nat maxSentences)
                 /\ Forall (fun s =>
                              s <> "" /\ trim s = s
                              /\ forallb (fun c => negb (is_terminator c)) (chars s) = true
                              /\ exists items term,
                                   terms = Some (JArr items) /\ In term items
                                   /\ string_includes (normalizeText (Some (JStr s)))
                                        (normalizeText (Some term)) = true) out).
  { intros [= <-]. split; [simpl; lia | constructor]. }
  destruct terms as [[| | | | items |] |];
    try (destruct sentences; [exact Hnil | discriminate]).
  clear Hnil. intros [= <-]. split.
  - intros H. rewrite length_map. now apply slice0_length.
  - apply Forall_forall. intros x Hx.
    apply in_map_iff in Hx. destruct Hx as (r & <- & Hr).
    apply slice0_In in Hr.
    apply (Permutation_in _ (sort_perm _ _)) in Hr.
    apply in_flat_map in Hr. destruct Hr as (each & Heach & Hr).
    destruct (Nat.ltb_spec 0 (List.length
               (filter (fun term => string_includes (normalizeText (Some (JStr each)))
                                      (normalizeText (Some term))) items))) as [Hpos |];
      [| destruct Hr].
    destruct Hr as [<- | []]. cbn [sentence].
    apply filter_In in Heach. destruct Heach as [Hpiece Hlen].
    apply Nat.ltb_lt in Hlen.
    repeat split.
    + intros E. rewrite E in Hlen. simpl in Hlen. lia.
    + apply trim_idempotent.
    + apply in_map_iff in Hpiece. destruct Hpiece as (p & <- & Hp).
      apply forallb_forall. intros c Hc. unfold trim in Hc. rewrite !chars_str in Hc.
      apply trim_chars_In in Hc.
      pose proof (split_runs_pieces is_terminator (chars s)) as Hall.
      rewrite Forall_forall in Hall. destruct (Hall p Hp c Hc) as [_ ->]. reflexivity.
    + destruct (filter _ items) as [| term rest] eqn:E; [simpl in Hpos; lia |].
      assert (Hin : In term (filter (fun term => string_includes (normalizeText (Some (JStr each)))
                                      (normalizeText (Some term))) items))
        by (rewrite E; simpl; tauto).
      apply filter_In in Hin. destruct Hin as [Hin Hmatch].
      exists items, term. repeat split; [exact Hin |].
      now rewrite normalizeText_trim.
Qed.

Lemma extractRelevantSentences_sound_witness :
  exists out,
    extractRelevantSentences
      (Some (JStr "A farm subsidy is paid. Nothing else! Each FARM gets it."))
      (Some (JArr [JStr "farm"; JStr "Subsidy"])) 1 = Return out
    /\ List.length out <= 1
    /\ Forall (fun s => s <> "" /\ trim s = s) out.
Proof.
  eexists. split; [reflexivity |].
  destruct (extractRelevantSentences_sound
              (Some (JStr "A farm subsidy is paid. Nothing else! Each FARM gets it."))
              (Some (JArr [JStr "farm"; JStr "Subsidy"])) 1 _ eq_refl) as [Hlen Hall].
  split; [apply Hlen; lia |].
  eapply Forall_impl; [| exact Hall]. cbn beta. tauto.
Defined.

(* ================================================================= *)
(** * Built snapshots *)

(** ** The section map *)

Lemma fold_left_flat_map {A B C} (f : A -> B -> A) (g : C -> list B) (l : list C) (a : A) :
  fold_left f (flat_map g l) a = fold_left (fun a x => fold_left f (g x) a) l a.
Proof.
  revert a. induction l as [| x r IH]; intros a; simpl; [reflexivity |].
  now rewrite fold_left_app, IH.
Qed.

Lemma fold_left_ext_Forall {A B} (f g : A -> B -> A) (l : list B) :
  Forall (fun x => forall a, f a x = g a x) l ->
  forall a, fold_left f l a = fold_left g l a.
Proof.
  induction 1 as [| x r Hx _ IH]; intros a; simpl; [reflexivity |].
  now rewrite Hx, IH.
Qed.

Section Traversal.
Variable throws : node -> bool.

Lemma processSectionsSimple_stores (n : node) :
  forall (sections : section_map) (p : option string) (level : nat),
    processSectionsSimple throws n sections p level
    = fold_left assign (extractions throws n p level) sections.
Proof.
  induction n as [s | attrs text children IH] using node_ind; intros S p level.
  - reflexivity.
  - cbn [processSectionsSimple extractions].
    rewrite fold_left_app, fold_left_flat_map.
    assert (E : match attr "id" attrs with
                | Some _ =>
                    match extractSectionDataSimple throws (NElem attrs text children) p level with
                    | Some section => assign S section
                    | None => S
                    end
                | None => S
                end
                = fold_left assign
                    match extractSectionDataSimple throws (NElem attrs text children) p level with
                    | Some section => [section]
                    | None => []
                    end S).
    { destruct (attr "id" attrs) eqn:Hi.
      - destruct (extractSectionDataSimple _ _ _ _); reflexivity.
      - cbn [extractSectionDataSimple]. rewrite Hi. reflexivity. }
    rewrite E. generalize (fold_left assign
                             match extractSectionDataSimple throws (NElem attrs text children) p level with
                             | Some section => [section]
                             | None => []
                             end S).
    apply fold_left_ext_Forall.
    eapply Forall_impl; [| exact IH]. cbn beta.
    intros [tag items] Hitems a. cbn [snd] in *.
    rewrite fold_left_flat_map. revert a. apply fold_left_ext_Forall.
    eapply Forall_impl; [| exact Hitems]. cbn beta.
    intros [t | iattrs itext ichildren] Hitem a; [reflexivity |].
    destruct (attr "id" iattrs); apply Hitem.
Qed.

Lemma extractions_ids (n : node) :
  forall (p : option string) (level : nat),
    map id (extractions throws n p level) = extracted throws n.
Proof.
  induction n as [s | attrs text children IH] using node_ind; intros p level.
  - reflexivity.
  - cbn [extractions extracted]. rewrite map_app. f_equal.
    + cbn [extractSectionDataSimple]. destruct (attr "id" attrs) as [i |]; [| reflexivity].
      destruct (throws _); reflexivity.
    + rewrite flat_map_concat_map, concat_map, map_map, <- flat_map_concat_map.
      rewrite !flat_map_concat_map. f_equal.
      apply map_ext_Forall. eapply Forall_impl; [| exact IH]. cbn beta.
      intros [tag items] Hitems. cbn [snd] in *.
      rewrite flat_map_concat_map, concat_map, map_map, <- !flat_map_concat_map.
      rewrite !flat_map_concat_map. f_equal.
      apply map_ext_Forall. eapply Forall_impl; [| exact Hitems]. cbn beta.
      intros [t | iattrs itext ichildren] Hitem; [reflexivity |].
      destruct (attr "id" iattrs); apply Hitem.
Qed.

Lemma extractions_plain (n : node) :
  forall (p : option string) (level : nat),
    Forall (fun s => children s = []) (extractions throws n p level).
Proof.
  induction n as [s | attrs text children IH] using node_ind; intros p level.
  - constructor.
  - cbn [extractions]. apply Forall_app. split.
    + cbn [extractSectionDataSimple]. destruct (attr "id" attrs); [| constructor].
      destruct (throws _); constructor; [reflexivity | constructor].
    + apply Forall_flat_map. eapply Forall_impl; [| exact IH]. cbn beta.
      intros [tag items] Hitems. cbn [snd] in *.
      apply Forall_flat_map. eapply Forall_impl; [| exact Hitems]. cbn beta.
      intros [t | iattrs itext ichildren] Hitem; [constructor |].
      destruct (attr "id" iattrs); apply Hitem.
Qed.
End Traversal.

(** The assignments make the keys of the ids other than [__proto__]; the
    last section assigned under [__proto__] is the prototype. *)
Lemma own_assigned (l : list section) (S : section_map) :
  own_sections (fold_left assign l S)
  = fold_left store (filter (fun s => makes_key (id s)) l) (own_sections S).
Proof.
  revert S. induction l as [| s r IH]; intros S; [reflexivity |].
  cbn [fold_left filter]. rewrite IH. unfold assign, makes_key.
  destruct (String.eqb (id s) "__proto__"); reflexivity.
Qed.

Lemma prototype_assigned (l : list section) (S : section_map) :
  Forall (fun s => makes_key (id s) = true) l ->
  replaced_prototype (fold_left assign l S) = replaced_prototype S.
Proof.
  intros H. revert S. induction H as [| s r Hs _ IH]; intros S; [reflexivity |].
  cbn [fold_left]. rewrite IH. unfold assign. unfold makes_key in Hs.
  apply negb_true_iff in Hs. now rewrite Hs.
Qed.

Lemma keys_stored (l : list section) (S : obj section) :
  map fst (fold_left store l S) = fold_left Set_add (map id l) (map fst S).
Proof.
  revert S. induction l as [| s r IH]; intros S; simpl; [reflexivity |].
  rewrite IH. unfold store. now rewrite keys_set.
Qed.

Lemma NoDup_keys_get {V} (o : obj V) (k : string) (v : V) :
  NoDup (map fst o) -> In (k, v) o -> get k o = Some v.
Proof.
  induction o as [| [k' v'] r IH]; simpl; [intros _ [] |].
  intros Hnd [[= -> ->] | Hin].
  - now rewrite String.eqb_refl.
  - inversion Hnd as [| ? ? Hk Hr]; subst.
    destruct (String.eqb_spec k k') as [-> | _].
    + exfalso. apply Hk. apply in_map_iff. now exists (k', v).
    + now apply IH.
Qed.

Lemma stored_entries (l : list section) (S : obj section) :
  (forall k s, In (k, s) S -> id s = k /\ children s = []) ->
  Forall (fun s => children s = []) l ->
  forall k s, In (k, s) (fold_left store l S) -> id s = k /\ children s = [].
Proof.
  revert S. induction l as [| x r IH]; intros S HS Hl; simpl; [exact HS |].
  inversion Hl as [| ? ? Hx Hr]; subst. apply IH; [| exact Hr].
  intros k s Hin. apply In_set in Hin. destruct Hin as [E | Hin]; [| auto].
  injection E as -> ->. tauto.
Qed.

Lemma filter_map_id (l : list section) :
  map id (filter (fun s => makes_key (id s)) l) = filter makes_key (map id l).
Proof.
  induction l as [| s r IH]; [reflexivity |]. cbn [filter map].
  destruct (makes_key (id s)); cbn [map]; now rewrite IH.
Qed.

Lemma built_sections (throws : node -> bool) (parsedXml : node) :
  let S := own_sections (processSectionsSimple throws parsedXml no_sections None 0) in
  map fst S = Set_from (filter makes_key (extracted throws parsedXml))
  /\ forall k s, In (k, s) S -> id s = k /\ children s = [] /\ get k S = Some s.
Proof.
  cbn zeta. rewrite processSectionsSimple_stores, own_assigned.
  set (l := filter (fun s => makes_key (id s)) (extractions throws parsedXml None 0)).
  assert (Hk : map fst (fold_left store l (own_sections no_sections))
               = Set_from (filter makes_key (extracted throws parsedXml))).
  { rewrite keys_stored. unfold l. rewrite filter_map_id, extractions_ids. reflexivity. }
  split; [exact Hk |].
  intros k s Hin.
  assert (Hl : Forall (fun s => children s = []) l).
  { apply Forall_forall. intros x Hx. apply filter_In in Hx. destruct Hx as [Hx _].
    revert x Hx. apply Forall_forall. apply extractions_plain. }
  destruct (stored_entries _ [] ltac:(intros ? ? []) Hl k s Hin) as [H1 H2].
  repeat split; try assumption.
  apply NoDup_keys_get; [| exact Hin]. rewrite Hk. apply Set_from_NoDup.
Qed.

Lemma built_snapshot (throws : node -> bool) (parsedXml : node) (d : documentData) :
  buildDocumentStructure throws parsedXml = Return d ->
  sections d = own_sections (processSectionsSimple throws parsedXml no_sections None 0)
  /\ buildSearchIndex (sections d) [] = Return (searchIndex d).
Proof.
  unfold buildDocumentStructure. intros H. fold no_sections in H.
  destruct (buildSearchIndex _ _) as [idx |] eqn:E; [| discriminate].
  injection H as <-. cbn [sections searchIndex]. split; [reflexivity | exact E].
Qed.

(** The prototype of the map of a built snapshot is replaced only by a
    node whose id is [__proto__]. *)
Lemma built_prototype (throws : node -> bool) (parsedXml : node) (d : documentData) :
  buildDocumentStructure throws parsedXml = Return d ->
  ~ In "__proto__" (extracted throws parsedXml) ->
  sections_prototype d = None.
Proof.
  unfold buildDocumentStructure. intros H Hn.
  destruct (buildSearchIndex _ _) as [idx |] eqn:E; [| discriminate].
  injection H as <-. cbn [sections_prototype].
  rewrite processSectionsSimple_stores, prototype_assigned; [reflexivity |].
  apply Forall_forall. intros s Hs. unfold makes_key. apply negb_true_iff, String.eqb_neq.
  intros Hid. apply Hn. rewrite <- Hid, <- (extractions_ids throws parsedXml None 0).
  now apply in_map.
Qed.

(** No key of the map of a built snapshot is [__proto__]. *)
Lemma built_keys_plain (throws : node -> bool) (parsedXml : node) (d : documentData) :
  buildDocumentStructure throws parsedXml = Return d ->
  get "__proto__" (sections d) = None.
Proof.
  intros H. apply built_snapshot in H. destruct H as [-> _].
  destruct (built_sections throws parsedXml) as [Hk _]. cbn zeta in Hk.
  apply get_None_keys. rewrite Hk. intros Hin.
  apply (proj1 (Set_from_In _ _)) in Hin. apply filter_In in Hin. destruct Hin as [_ Hin].
  discriminate Hin.
Qed.

(** X9.  In a built snapshot the keys of the section map are, in the order
    of their insertion, the ids of the nodes whose extraction was not
    skipped, in document order and each once, the id [__proto__] apart,
    under which the assignment makes no key; every section is stored under
    its own id, is the only one under that key, and has an empty list of
    children. *)
Theorem section_map_keys (throws : node -> bool) (parsedXml : node) (d : documentData) :
  buildDocumentStructure throws parsedXml = Return d ->
  map fst (sections d) = Set_from (filter makes_key (extracted throws parsedXml))
  /\ forall k s, In (k, s) (sections d) ->
                 id s = k /\ children s = [] /\ get k (sections d) = Some s.
Proof.
  intros H. apply built_snapshot in H. destruct H as [-> _].
  apply built_sections.
Qed.

Lemma section_map_keys_witness :
  map fst (sections Sample.snapshot)
  = Set_from (filter makes_key (extracted Sample.never Sample.bill))
  /\ forall k s, In (k, s) (sections Sample.snapshot) ->
                 id s = k /\ children s = [] /\ get k (sections Sample.snapshot) = Some s.
Proof. apply (section_map_keys Sample.never Sample.bill). vm_compute. reflexivity. Defined.

(** ** The index *)

Lemma filter_partition_perm {A} (p : A -> bool) (l : list A) :
  Permutation (filter p l ++ filter (fun x => negb (p x)) l) l.
Proof.
  induction l as [| x r IH]; simpl; [constructor |].
  destruct (p x); simpl.
  - now constructor.
  - apply Permutation_sym, Permutation_cons_app, Permutation_sym, IH.
Qed.

Lemma entries_perm {V} (o : obj V) : Permutation (entries o) o.
Proof.
  unfold entries.
  eapply Permutation_trans; [| apply (filter_partition_perm (fun kv => is_index (fst kv)))].
  apply Permutation_app_tail, sort_perm.
Qed.

Lemma entries_In {V} (o : obj V) (e : string * V) : In e (entries o) <-> In e o.
Proof.
  split; apply Permutation_in; [| apply Permutation_sym]; apply entries_perm.
Qed.

Lemma fold_result_throw {A B} (f : A -> B -> result A) (l : list B) (e : error) :
  fold_left (fun acc b => a <- acc ;; f a b) l (Throw e) = Throw e.
Proof. induction l as [| b l IH]; simpl; [reflexivity | exact IH]. Qed.

(** What a fold that gathers contributions has gathered in the end. *)
Lemma fold_result_gathers {A B X} (M : A -> X -> Prop) (contrib : B -> X -> Prop)
    (f : A -> B -> result A) :
  (forall a b a', f a b = Return a' -> forall x, M a' x <-> M a x \/ contrib b x) ->
  forall l init out,
    fold_left (fun acc b => a <- acc ;; f a b) l (Return init) = Return out ->
    forall x, M out x <-> M init x \/ exists b, In b l /\ contrib b x.
Proof.
  intros Hstep. induction l as [| b l IH]; intros init out H x.
  - injection H as <-. split; [tauto | intros [? | (b & [] & _)]; assumption].
  - cbn [fold_left Js.bind] in H. destruct (f init b) as [a1 |] eqn:E.
    + rewrite (IH a1 out H x), (Hstep _ _ _ E x). split.
      * intros [[? | ?] | (b' & ? & ?)]; [tauto | right; exists b; simpl; tauto
                                            | right; exists b'; simpl; tauto].
      * intros [? | (b' & [<- | ?] & ?)]; [tauto | tauto | right; exists b'; tauto].
    + rewrite fold_result_throw in H. discriminate.
Qed.

Lemma matches_set (idx : obj (list string)) (k0 k : string) (ids : list string) :
  matches (set k0 ids idx) k = if String.eqb k k0 then ids else matches idx k.
Proof.
  unfold matches, read. destruct (String.eqb_spec k k0) as [-> | Hne].
  - now rewrite get_set_same.
  - now rewrite get_set_other.
Qed.

Lemma index_keyword_matches (i0 : string) (idx : obj (list string)) (k0 : string)
    (idx' : obj (list string)) :
  index_keyword i0 idx k0 = Return idx' ->
  forall x : string * string,
    In (snd x) (matches idx' (fst x))
    <-> In (snd x) (matches idx (fst x)) \/ (i0, k0) = (snd x, fst x).
Proof.
  unfold index_keyword. intros H [k i]. cbn [fst snd].
  assert (Hm : matches idx k0 = match read k0 idx with Own ids => ids | _ => [] end)
    by reflexivity.
  destruct (read k0 idx) as [ids | |] eqn:R; [| discriminate |].
  - destruct (includes i0 ids) eqn:E; injection H as <-.
    + apply includes_In in E. split; [tauto |].
      intros [? | [= <- <-]]; [assumption | now rewrite Hm].
    + rewrite matches_set. destruct (String.eqb_spec k k0) as [-> | Hne].
      * rewrite in_app_iff, Hm. simpl. split.
        -- intros [? | [<- | []]]; [tauto | now right].
        -- intros [? | [= <-]]; tauto.
      * split; [tauto | intros [? | [= _ E']]; [assumption | congruence]].
  - injection H as <-. rewrite matches_set.
    destruct (String.eqb_spec k k0) as [-> | Hne].
    + rewrite Hm. simpl. split.
      * intros [<- | []]. now right.
      * intros [[] | [= <-]]. tauto.
    + split; [tauto | intros [? | [= _ E']]; [assumption | congruence]].
Qed.

Lemma index_section_matches (idx : obj (list string)) (entry : string * section)
    (idx' : obj (list string)) :
  index_section idx entry = Return idx' ->
  forall x : string * string,
    In (snd x) (matches idx' (fst x))
    <-> In (snd x) (matches idx (fst x))
        \/ (fst entry = snd x /\ In (fst x) (section_keywords (snd entry))).
Proof.
  destruct entry as [i0 s0]. unfold index_section. intros H x.
  rewrite (fold_result_gathers
             (fun idx x => In (snd x) (matches idx (fst x)))
             (fun k0 x => (i0, k0) = (snd x, fst x))
             (index_keyword i0) (index_keyword_matches i0) _ _ _ H x).
  cbn [fst snd]. unfold section_keywords. split.
  - intros [? | (k0 & Hk & [= -> ->])]; tauto.
  - intros [? | [-> Hk]]; [tauto |]. right. exists (fst x). tauto.
Qed.

Lemma buildSearchIndex_matches (S : obj section) (idx : obj (list string)) :
  buildSearchIndex S [] = Return idx ->
  forall k i,
    In i (matches idx k)
    <-> exists s, In (i, s) S /\ In k (section_keywords s).
Proof.
  unfold buildSearchIndex. intros H k i.
  rewrite (fold_result_gathers
             (fun idx x => In (snd x) (matches idx (fst x)))
             (fun entry x => fst entry = snd x /\ In (fst x) (section_keywords (snd entry)))
             (fun idx entry => index_section idx entry) index_section_matches _ _ _ H (k, i)).
  cbn [fst snd]. split.
  - intros [Hin | (e & Hin & He & Hk)].
    + unfold matches, read in Hin. cbn [get] in Hin.
      destruct (includes k prototype_members); destruct Hin.
    + destruct e as [i0 s]. cbn [fst snd] in *. subst i0.
      exists s. split; [now apply entries_In | exact Hk].
  - intros (s & Hin & Hk). right. exists (i, s). cbn [fst snd].
    split; [now apply entries_In | tauto].
Qed.

Lemma index_lists_exactly_of_built (throws : node -> bool) (parsedXml : node)
    (d : documentData) :
  buildDocumentStructure throws parsedXml = Return d ->
  forall keyword i,
    In i (matches (searchIndex d) keyword)
    <-> exists s, get i (sections d) = Some s /\ In keyword (section_keywords s).
Proof.
  intros H keyword i. apply built_snapshot in H. destruct H as [HS Hidx].
  rewrite (buildSearchIndex_matches _ _ Hidx). rewrite HS.
  destruct (built_sections throws parsedXml) as [_ Hentries]. cbn zeta in Hentries.
  split.
  - intros (s & Hin & Hk). exists s. split; [| exact Hk]. now apply Hentries.
  - intros (s & Hg & Hk). exists s. split; [now apply get_In | exact Hk].
Qed.

(** X10.  In a built snapshot the index lists a section
    under a keyword exactly when the section is in the section map and
    the keyword is a token of its title or of its full text. *)
Theorem index_lists_exactly (throws : node -> bool) (parsedXml : node) (d : documentData) :
  buildDocumentStructure throws parsedXml = Return d ->
  forall keyword i,
    In i (matches (searchIndex d) keyword)
    <-> exists s, get i (sections d) = Some s /\ In keyword (section_keywords s).
Proof.
  intros H keyword i. split.
  - intros Hi. now apply (index_lists_exactly_of_built throws parsedXml d H).
  - intros Hs. now apply (index_lists_exactly_of_built throws parsedXml d H).
Qed.

Lemma index_lists_exactly_witness :
  In "S1" (matches (searchIndex Sample.snapshot) "subsidy")
  <-> exists s, get "S1" (sections Sample.snapshot) = Some s
                /\ In "subsidy" (section_keywords s).
Proof. apply (index_lists_exactly Sample.never Sample.bill). reflexivity. Defined.

(** ** Searching a built snapshot *)

Lemma index_keyword_no_member (i : string) (idx : obj (list string)) (k : string)
    (idx' : obj (list string)) :
  no_member_key idx -> index_keyword i idx k = Return idx' -> no_member_key idx'.
Proof.
  unfold index_keyword, read. intros P H.
  assert (Hk : ~ In k prototype_members \/ idx' = idx).
  { destruct (get k idx) as [ids |] eqn:G.
    - left. intros Hin. rewrite (P k Hin) in G. discriminate.
    - destruct (includes k prototype_members) eqn:E; [discriminate |].
      left. now apply includes_false. }
  destruct Hk as [Hk | ->]; [| exact P].
  assert (Hset : forall ids, no_member_key (set k ids idx)).
  { intros ids m Hm. rewrite get_set_other by (intros ->; contradiction). now apply P. }
  destruct (get k idx) as [ids |].
  - destruct (includes i ids); injection H as <-; [exact P | apply Hset].
  - destruct (includes k prototype_members); [discriminate |].
    injection H as <-. apply Hset.
Qed.

Lemma built_index_no_member (throws : node -> bool) (parsedXml : node) (d : documentData) :
  buildDocumentStructure throws parsedXml = Return d -> no_member_key (searchIndex d).
Proof.
  intros H. apply built_snapshot in H. destruct H as [_ H].
  unfold buildSearchIndex in H.
  refine (fold_result_inv no_member_key (fun idx entry => index_section idx entry)
            _ _ [] _ _ H); [| intros k _; reflexivity].
  intros idx [i s] idx' P Hs. unfold index_section in Hs.
  refine (fold_result_inv no_member_key (index_keyword i) _ _ idx _ P Hs).
  intros a k a'. apply index_keyword_no_member.
Qed.

Lemma member_token_spec (t : value) (k : string) :
  In k (extractKeywords t) ->
  (In k prototype_members <-> member_token k = true).
Proof.
  intros Hk. apply keyword_chars in Hk. unfold member_token. split.
  - intros Hin. rewrite orb_true_iff, !String.eqb_eq.
    simpl in Hin.
    repeat (destruct Hin as [<- | Hin]; [try (now left); try (now right); discriminate Hk |]).
    destruct Hin.
  - rewrite orb_true_iff, !String.eqb_eq. intros [-> | ->]; simpl; tauto.
Qed.

Lemma read_inherited (idx : obj (list string)) (k : string) :
  no_member_key idx ->
  (match read k idx with Inherited => true | _ => false end) = includes k prototype_members.
Proof.
  intros P. unfold read. destruct (includes k prototype_members) eqn:E.
  - apply includes_In in E. now rewrite (P k E).
  - destruct (get k idx); reflexivity.
Qed.

Lemma existsb_ext_in {A} (f g : A -> bool) (l : list A) :
  (forall x, In x l -> f x = g x) -> existsb f l = existsb g l.
Proof.
  induction l as [| x r IH]; intros H; simpl; [reflexivity |].
  rewrite H by (simpl; tauto). f_equal. apply IH. intros y Hy. apply H. simpl. tauto.
Qed.

(** The search on a built snapshot, as a count of the index lists. *)
Lemma searchSections_built (throws : node -> bool) (parsedXml : node) (d : documentData)
    (query : value) (limit : Z) :
  buildDocumentStructure throws parsedXml = Return d ->
  searchSections (Some d) query limit
  = if existsb member_token (extractKeywords query)
    then Throw (TypeError "matchingSections.forEach is not a function")
    else Return (map (rank d)
                   (slice0 limit
                      (sort by_score_desc
                         (entries (fold_left bump
                                     (flat_map (matches (searchIndex d)) (extractKeywords query))
                                     []))))).
Proof.
  intros H. unfold searchSections. cbn [getDocumentData Js.bind].
  rewrite score_fold.
  rewrite (existsb_ext_in _ member_token).
  - destruct (existsb member_token (extractKeywords query)); reflexivity.
  - intros k Hk. rewrite (read_inherited _ _ (built_index_no_member _ _ _ H)).
    destruct (member_token k) eqn:E.
    + apply includes_In. now apply (member_token_spec query).
    + apply includes_false. intros Hin. apply (member_token_spec query k Hk) in Hin. congruence.
Qed.

Lemma tally_In (l : list string) (e : string * nat) :
  In e (fold_left count_up l []) <-> In (fst e) l /\ snd e = count_occ string_dec l (fst e).
Proof.
  rewrite tally_entries, in_map_iff. split.
  - intros (i & <- & Hi). apply (proj1 (Set_from_In _ _)) in Hi. cbn [fst snd]. tauto.
  - intros [Hi Hc]. exists (fst e). split; [| now apply (proj2 (Set_from_In _ _))].
    destruct e; cbn [fst snd] in *. now rewrite Hc.
Qed.

Lemma tally_keys_NoDup (l : list string) : NoDup (map fst (fold_left count_up l [])).
Proof.
  rewrite tally_entries, map_map. cbn [fst]. rewrite map_id. apply Set_from_NoDup.
Qed.

Lemma slice0_all {A} (n : Z) (l : list A) :
  (Z.of_nat (List.length l) <= n)%Z -> slice0 n l = l.
Proof.
  intros H. unfold slice0. destruct (Z.ltb_spec n 0); [lia |].
  apply firstn_all2. lia.
Qed.

Lemma NoDup_firstn {A} (n : nat) (l : list A) : NoDup l -> NoDup (firstn n l).
Proof.
  intros H. rewrite <- (firstn_skipn n l) in H. now apply NoDup_app_remove_r in H.
Qed.

Lemma slice0_NoDup {A} (n : Z) (l : list A) : NoDup l -> NoDup (slice0 n l).
Proof. unfold slice0. destruct (n <? 0)%Z; apply NoDup_firstn. Qed.

Lemma NoDup_map_injective {A B} (f : A -> B) (l : list A) :
  (forall a b, f a = f b -> a = b) -> NoDup l -> NoDup (map f l).
Proof.
  intros Hf. induction 1 as [| x r Hx _ IH]; simpl; constructor; [| exact IH].
  intros Hin. apply in_map_iff in Hin. destruct Hin as (y & E & Hy).
  apply Hf in E. now subst y.
Qed.

(** The score of an id that names no member of [Object.prototype] is the
    number of times the id was counted. *)
Lemma tallied_bump (scores : obj score_value) (i j : string) (n : nat) :
  ~ In i prototype_members ->
  tallied scores i = Some n ->
  tallied (bump scores j) i = Some (n + if string_dec j i then 1 else 0).
Proof.
  intros Hm Ht. unfold tallied in *. destruct (string_dec j i) as [-> | Hne].
  - apply includes_false in Hm. unfold bump, read.
    destruct (get i scores) as [[m | t] |] eqn:E.
    + injection Ht as <-. now rewrite get_set_same.
    + discriminate.
    + injection Ht as <-. rewrite Hm. now rewrite get_set_same.
  - assert (E : get i (bump scores j) = get i scores).
    { unfold bump. destruct (read j scores) as [[m | t] | |];
        try (destruct (String.eqb j "__proto__"); [reflexivity |]);
        apply get_set_other; congruence. }
    rewrite E. destruct (get i scores) as [[m | t] |]; try discriminate;
      injection Ht as <-; f_equal; lia.
Qed.

Lemma tallied_bumped (l : list string) (scores : obj score_value) (i : string) (n : nat) :
  ~ In i prototype_members ->
  tallied scores i = Some n ->
  tallied (fold_left bump l scores) i = Some (n + count_occ string_dec l i).
Proof.
  intros Hm. revert scores n. induction l as [| j l IH]; intros scores n Ht.
  - cbn. now rewrite Nat.add_0_r.
  - cbn [fold_left count_occ]. rewrite (IH _ _ (tallied_bump scores i j n Hm Ht)).
    f_equal. destruct (string_dec j i); lia.
Qed.

Lemma section_at_own (d : documentData) (i : string) (s : section) :
  get i (sections d) = Some s -> section_at i d = Stored s.
Proof. unfold section_at. now intros ->. Qed.

(** The sections that the tokens of a query meet in a built snapshot. *)
Lemma built_matches (throws : node -> bool) (parsedXml : node) (d : documentData)
    (query : value) :
  buildDocumentStructure throws parsedXml = Return d ->
  forall i,
    In i (flat_map (matches (searchIndex d)) (extractKeywords query))
    <-> exists s k, get i (sections d) = Some s /\ id s = i
                    /\ In k (extractKeywords query) /\ In k (section_keywords s).
Proof.
  intros Hd i. rewrite in_flat_map. split.
  - intros (k & Hk & Hi).
    apply (index_lists_exactly_of_built throws parsedXml d Hd) in Hi.
    destruct Hi as (s & Hg & Hks). exists s, k. repeat split; try assumption.
    apply get_In in Hg.
    apply built_snapshot in Hd. destruct Hd as [HS _].
    destruct (built_sections throws parsedXml) as [_ He]. cbn zeta in He.
    rewrite <- HS in He. now apply He in Hg.
  - intros (s & k & Hg & _ & Hk & Hks). exists k. split; [exact Hk |].
    apply (index_lists_exactly_of_built throws parsedXml d Hd). now exists s.
Qed.

(** What a search on a built snapshot returns: the sections whose keywords
    the query meets, each once, in some order, cut to the limit; the score
    of a section whose id names no member of [Object.prototype] is the
    number of places of the query that meet it. *)
Lemma built_found (throws : node -> bool) (parsedXml : node) (d : documentData)
    (query : value) (limit : Z) (found : list ranked) :
  buildDocumentStructure throws parsedXml = Return d ->
  searchSections (Some d) query limit = Return found ->
  let L := flat_map (matches (searchIndex d)) (extractKeywords query) in
  exists ranking : list (string * score_value),
    found = map (rank d) (slice0 limit ranking)
    /\ NoDup (map fst ranking)
    /\ (forall i, In i (map fst ranking) <-> In i L)
    /\ (forall e, In e ranking -> ~ In (fst e) prototype_members ->
                  snd e = Count (count_occ string_dec L (fst e))).
Proof.
  intros Hd Hs L. rewrite (searchSections_built _ _ _ _ _ Hd) in Hs.
  destruct (existsb member_token (extractKeywords query)); [discriminate |].
  injection Hs as <-. fold L.
  assert (Hproto : ~ In "__proto__" L).
  { intros Hin. apply (built_matches _ _ _ query Hd) in Hin.
    destruct Hin as (s & _ & Hg & _). rewrite (built_keys_plain _ _ _ Hd) in Hg.
    discriminate. }
  assert (Hkeys : map fst (fold_left bump L []) = Set_from L).
  { now rewrite keys_bumped. }
  assert (Hperm : Permutation (sort by_score_desc (entries (fold_left bump L [])))
                    (fold_left bump L [])).
  { eapply Permutation_trans; [apply sort_perm | apply entries_perm]. }
  exists (sort by_score_desc (entries (fold_left bump L []))).
  split; [reflexivity |]. split; [| split].
  - eapply Permutation_NoDup; [apply Permutation_sym, Permutation_map, Hperm |].
    rewrite Hkeys. apply Set_from_NoDup.
  - intros i. rewrite <- (Set_from_In L i), <- Hkeys.
    split; apply Permutation_in; [| apply Permutation_sym]; apply Permutation_map, Hperm.
  - intros [i v] He Hm. cbn [fst snd] in *.
    apply (Permutation_in _ Hperm) in He.
    assert (Hg : get i (fold_left bump L []) = Some v).
    { apply NoDup_keys_get; [| exact He]. rewrite Hkeys. apply Set_from_NoDup. }
    pose proof (tallied_bumped L [] i 0 Hm eq_refl) as Ht.
    unfold tallied in Ht. rewrite Hg in Ht. destruct v as [n | t]; [| discriminate].
    injection Ht as ->. reflexivity.
Qed.

(** On a built snapshot whose section ids name no member of
    [Object.prototype], a search returns a ranking by count. *)
Lemma built_search (throws : node -> bool) (parsedXml : node) (d : documentData)
    (query : value) (limit : Z) :
  buildDocumentStructure throws parsedXml = Return d ->
  member_free (sections d) = true ->
  existsb member_token (extractKeywords query) = false ->
  searchSections (Some d) query limit
  = Return (map (view d)
              (slice0 limit
                 (sort by_count_desc
                    (entries (met (searchIndex d) (extractKeywords query)))))).
Proof.
  intros Hd Hfree Hq. rewrite (searchSections_built _ _ _ _ _ Hd), Hq. f_equal.
  set (L := flat_map (matches (searchIndex d)) (extractKeywords query)).
  assert (HL : forall i, In i L -> ~ In i prototype_members).
  { intros i Hi. apply (built_matches _ _ _ query Hd) in Hi.
    destruct Hi as (s & _ & Hg & _). apply get_In in Hg.
    unfold member_free in Hfree. rewrite forallb_forall in Hfree.
    specialize (Hfree _ Hg). cbn [fst] in Hfree.
    apply negb_true_iff in Hfree. now apply includes_false. }
  change (@nil (string * score_value)) with (map counted []).
  rewrite (tally_counted L [] HL), entries_counted.
  rewrite (sort_map counted by_count_desc by_score_desc) by reflexivity.
  rewrite slice0_map, map_map, tally_entries.
  assert (Hmet : map (fun i => (i, count_occ string_dec L i)) (Set_from L)
                 = met (searchIndex d) (extractKeywords query)).
  { unfold met. fold L. apply map_ext. intros i. f_equal.
    apply count_matches. exact (built_index_distinct _ _ _ Hd). }
  rewrite Hmet. reflexivity.
Qed.

(** C3, as the search computes it.  On a built snapshot none of whose
    section ids names a member of [Object.prototype], a search that
    returns, for a limit that is not negative, returns the first [limit]
    entries of a ranking of the sections that the tokens of the query meet;
    the score of a section is the number of places of the query, repeated
    tokens counted each time, whose token lists the section; the ranking is
    in descending order of score; and where no section id is an array
    index, sections of equal score stand in the order in which the query
    first met them. *)
Theorem searchSections_ranking
    (throws : node -> bool) (parsedXml : node) (d : documentData)
    (query : value) (limit : Z) (found : list ranked) :
  buildDocumentStructure throws parsedXml = Return d ->
  member_free (sections d) = true ->
  (0 <= limit)%Z ->
  searchSections (Some d) query limit = Return found ->
  exists ranking : list (string * nat),
    found = map (view d) (firstn (Z.to_nat limit) ranking)
    /\ Permutation ranking (met (searchIndex d) (extractKeywords query))
    /\ StronglySorted higher_first ranking
    /\ (plain_ids (searchIndex d) = true ->
        forall n, filter (scored n) ranking
                  = filter (scored n) (met (searchIndex d) (extractKeywords query)))
    /\ List.length found <= Z.to_nat limit.
Proof.
  intros Hd Hfree Hl Hs.
  pose proof (searchSections_length _ _ _ _ Hl Hs) as Hlen.
  assert (Hq : existsb member_token (extractKeywords query) = false).
  { rewrite (searchSections_built _ _ _ _ _ Hd) in Hs.
    destruct (existsb member_token (extractKeywords query)); [discriminate | reflexivity]. }
  rewrite (built_search _ _ _ _ _ Hd Hfree Hq) in Hs. injection Hs as <-.
  exists (sort by_count_desc (entries (met (searchIndex d) (extractKeywords query)))).
  split.
  { unfold slice0. destruct (limit <? 0)%Z eqn:E; [lia | reflexivity]. }
  split; [eapply Permutation_trans; [apply sort_perm | apply entries_perm] |].
  split; [apply sort_sorted |]. split; [| exact Hlen].
  intros Hp n. rewrite entries_plain; [apply sort_stable |].
  intros k Hk. unfold met in Hk. rewrite map_map in Hk. cbn [fst] in Hk.
  rewrite map_id in Hk. apply (proj1 (Set_from_In _ _)) in Hk.
  apply (proj1 (in_flat_map _ _ _)) in Hk. destruct Hk as (kw & _ & Hk).
  exact (matches_plain _ _ _ Hp Hk).
Qed.

Lemma searchSections_ranking_witness :
  exists ranking : list (string * nat),
    farm_found = map (view Sample.snapshot) (firstn (Z.to_nat 3) ranking)
    /\ Permutation ranking
         (met (searchIndex Sample.snapshot) (extractKeywords farm_query))
    /\ StronglySorted higher_first ranking
    /\ (forall n, filter (scored n) ranking
                  = filter (scored n)
                      (met (searchIndex Sample.snapshot) (extractKeywords farm_query)))
    /\ List.length farm_found <= Z.to_nat 3.
Proof.
  destruct (searchSections_ranking Sample.never Sample.bill Sample.snapshot farm_query 3
              farm_found)
    as (ranking & H1 & H2 & H3 & H4 & H5).
  - vm_compute. reflexivity.
  - vm_compute. reflexivity.
  - lia.
  - vm_compute. reflexivity.
  - exists ranking. repeat split; try assumption.
    apply H4. vm_compute. reflexivity.
Defined.

(** X11.  On a built snapshot, every section that a search returns is in
    the section map and shares a token with the query, and no section is
    returned twice; the score of a section whose id names no member of
    [Object.prototype] is a number, at least 1 and at most the number of
    tokens of the query (under such a name the score is a text); when the
    limit is at least the number of sections, every section that shares a
    token with the query is returned. *)
Theorem searchSections_finds_matching_sections
    (throws : node -> bool) (parsedXml : node) (d : documentData)
    (query : value) (limit : Z) (found : list ranked) :
  buildDocumentStructure throws parsedXml = Return d ->
  searchSections (Some d) query limit = Return found ->
  (forall r, In r found ->
     exists s keyword,
       ranked_section r = Some s
       /\ get (id s) (sections d) = Some s
       /\ In keyword (extractKeywords query)
       /\ In keyword (section_keywords s)
       /\ (~ In (id s) prototype_members ->
           exists n, score r = Count n /\ 1 <= n <= List.length (extractKeywords query)))
  /\ NoDup (map ranked_id found)
  /\ ((Z.of_nat (List.length (sections d)) <= limit)%Z ->
      forall i s keyword,
        get i (sections d) = Some s ->
        In keyword (extractKeywords query) ->
        In keyword (section_keywords s) ->
        exists r, In r found /\ ranked_section r = Some s).
Proof.
  intros Hd Hs.
  destruct (built_found _ _ _ _ _ _ Hd Hs) as (ranking & -> & Hnd & Hkeys & Hcount).
  pose proof (built_matches _ _ _ query Hd) as HL.
  set (L := flat_map (matches (searchIndex d)) (extractKeywords query)) in *.
  split; [| split].
  - intros r Hr. apply in_map_iff in Hr. destruct Hr as ([i v] & <- & He).
    apply slice0_In in He.
    assert (Hi : In i L) by (apply Hkeys, in_map_iff; now exists (i, v)).
    destruct (proj1 (HL i) Hi) as (s & k & Hg & Hid & Hk & Hks).
    exists s, k. unfold rank, ranked_section. cbn [ranked_value score fst snd].
    rewrite (section_at_own _ _ _ Hg), Hid. repeat split; try assumption.
    intros Hm. specialize (Hcount _ He Hm). cbn [fst snd] in Hcount.
    exists (count_occ string_dec L i). split; [exact Hcount |]. split.
    + apply (count_occ_In string_dec) in Hi. lia.
    + unfold L. rewrite count_matches by exact (built_index_distinct _ _ _ Hd).
      unfold occurrences. apply filter_length_le.
  - assert (Hids : map ranked_id (map (rank d) (slice0 limit ranking))
                   = map (fun e => Some (fst e)) (slice0 limit ranking)).
    { rewrite map_map. apply map_ext_in. intros [i v] He.
      apply slice0_In in He.
      assert (Hi : In i L) by (apply Hkeys, in_map_iff; now exists (i, v)).
      destruct (proj1 (HL i) Hi) as (s & k & Hg & Hid & _).
      unfold ranked_id, ranked_section, rank. cbn [ranked_value fst].
      rewrite (section_at_own _ _ _ Hg). cbn. now rewrite Hid. }
    rewrite Hids, <- (map_map fst Some).
    apply NoDup_map_injective; [intros a b [= ->]; reflexivity |].
    unfold slice0. destruct (limit <? 0)%Z; rewrite <- firstn_map; now apply NoDup_firstn.
  - intros Hlimit i s k Hg Hk Hks.
    assert (Hid : id s = i).
    { apply get_In in Hg. apply built_snapshot in Hd. destruct Hd as [HS _].
      destruct (built_sections throws parsedXml) as [_ He]. cbn zeta in He.
      rewrite <- HS in He. now apply He in Hg. }
    assert (Hi : In i L) by (apply HL; exists s, k; tauto).
    apply Hkeys, in_map_iff in Hi. destruct Hi as ([j v] & Hj & He). cbn [fst] in Hj. subst j.
    exists (rank d (i, v)). split.
    + apply in_map. rewrite slice0_all; [exact He |].
      assert (Hlen : List.length ranking <= List.length (sections d)).
      { rewrite <- (length_map fst ranking), <- (length_map fst (sections d)).
        apply NoDup_incl_length; [exact Hnd |].
        intros j Hj. apply Hkeys in Hj.
        destruct (proj1 (HL _) Hj) as (s' & _ & Hg' & _). apply get_In in Hg'.
        apply in_map_iff. now exists (j, s'). }
      lia.
    + unfold rank, ranked_section. cbn [ranked_value fst].
      now rewrite (section_at_own _ _ _ Hg).
Qed.

Lemma searchSections_finds_matching_sections_witness :
  exists found,
    searchSections Sample.library (Some (JStr "Which farm gets a subsidy?")) 8 = Return found
    /\ NoDup (map ranked_id found)
    /\ exists r, In r found /\ ranked_section r = Some section_S1.
Proof.
  assert (Hd : buildDocumentStructure Sample.never Sample.bill = Return Sample.snapshot)
    by (vm_compute; reflexivity).
  destruct (searchSections Sample.library (Some (JStr "Which farm gets a subsidy?")) 8)
    as [found | e] eqn:Hs; [| vm_compute in Hs; discriminate].
  exists found. split; [reflexivity |].
  destruct (searchSections_finds_matching_sections Sample.never Sample.bill Sample.snapshot
              (Some (JStr "Which farm gets a subsidy?")) 8 found Hd Hs)
    as (_ & Hnd & Hall).
  split; [exact Hnd |].
  apply (Hall ltac:(vm_compute; discriminate) "S1" section_S1 "subsidy");
    [vm_compute; reflexivity | vm_compute; tauto | vm_compute; tauto].
Defined.

Lemma mapM_total {A B} (f : A -> result B) (l : list A) :
  Forall (fun x => exists y, f x = Return y) l -> exists out, mapM f l = Return out.
Proof.
  induction 1 as [| x r (y & Hy) _ (out & IH)]; simpl.
  - now exists [].
  - rewrite Hy, IH. cbn. now exists (y :: out).
Qed.

(** X12.  On a built snapshot the tool
    [search_sections] fails on exactly the queries that have the token
    [constructor] or [__proto__] (the lookup in the index then finds a
    member of [Object.prototype]); on every other input it returns the
    query, one entry per section found, and their number. *)
Theorem search_sections_on_built_snapshot
    (throws : node -> bool) (parsedXml : node) (d : documentData) (input : tool_input) :
  buildDocumentStructure throws parsedXml = Return d ->
  (existsb member_token (extractKeywords (query input)) = true ->
   executeSearchSections (Some d) input
   = Throw (TypeError "matchingSections.forEach is not a function"))
  /\ (existsb member_token (extractKeywords (query input)) = false ->
      exists found results,
        searchSections (Some d) (query input) (Z.min (requested input) 3) = Return found
        /\ List.length results = List.length found
        /\ executeSearchSections (Some d) input
           = Return (JObj (field "query" (query input)
                           ++ [ ("results", JArr results);
                                ("totalFound", JNum (Z.of_nat (List.length results))) ]))).
Proof.
  intros Hd. unfold executeSearchSections. cbn [DP.getDocumentData Js.bind].
  pose proof (searchSections_built _ _ _ (query input) (Z.min (requested input) 3) Hd) as Hs.
  split; intros E; rewrite E in Hs.
  - rewrite Hs. reflexivity.
  - destruct (built_found _ _ _ _ _ _ Hd Hs) as (ranking & Hfound & _ & Hkeys & _).
    pose proof (built_matches _ _ _ (query input) Hd) as HL.
    rewrite Hs. cbn [Js.bind]. rewrite Hfound.
    destruct (mapM_total (result_entry 300)
                (map (rank d) (slice0 (Z.min (requested input) 3) ranking)))
      as (results & Hr).
    { apply Forall_forall. intros r Hin.
      apply in_map_iff in Hin. destruct Hin as ([i v] & <- & He).
      apply slice0_In in He.
      assert (Hi : In i (flat_map (matches (searchIndex d))
                           (extractKeywords (query input))))
        by (apply Hkeys, in_map_iff; now exists (i, v)).
      destruct (proj1 (HL i) Hi) as (s & k & Hg & _).
      unfold result_entry, rank. cbn [DP.ranked_value fst].
      rewrite (section_at_own _ _ _ Hg). eauto. }
    rewrite Hr. cbn [Js.bind].
    eexists _, results. split; [reflexivity |].
    apply mapM_length in Hr. split; [exact Hr | now rewrite Hr].
Qed.

Lemma search_sections_on_built_snapshot_witness :
  executeSearchSections Sample.library
    {| query := Some (JStr "the constructor of a farm"); sectionId := None; topic := None;
       impactType := None; maxResults := None |}
  = Throw (TypeError "matchingSections.forEach is not a function").
Proof.
  apply (search_sections_on_built_snapshot Sample.never Sample.bill Sample.snapshot);
    vm_compute; reflexivity.
Defined.

(* ================================================================= *)
(** * The tools and the conversation *)

(** ** What the tools send back *)

Lemma mapM_Forall {A B} (P : B -> Prop) (f : A -> result B) (l : list A) (out : list B) :
  (forall x y, f x = Return y -> P y) -> mapM f l = Return out -> Forall P out.
Proof.
  intros Hf. revert out. induction l as [| x r IH]; intros out; simpl.
  - intros [= <-]. constructor.
  - destruct (f x) as [y |] eqn:E; [| discriminate]. cbn [Js.bind].
    destruct (mapM f r) as [ys |]; [| discriminate]. cbn [Js.bind].
    intros [= <-]. constructor; [eapply Hf; eassumption | now apply IH].
Qed.

(** The shape of what a search tool returns. *)
Lemma search_tool_payload (this : parser) (call : tool_call) (payload : json) :
  In (call_name call) search_tools ->
  dispatch this call = Return payload ->
  exists q n found results,
    searchSections this q (Z.min (requested (call_input call)) 3) = Return found
    /\ mapM (result_entry n) found = Return results
    /\ n <= 300
    /\ results_of payload = Some results.
Proof.
  intros Hname.
  assert (Htable : forall table argName arg,
             argName <> "results" ->
             search_by_table table argName this arg (call_input call) = Return payload ->
             exists q n found results,
               searchSections this q (Z.min (requested (call_input call)) 3) = Return found
               /\ mapM (result_entry n) found = Return results
               /\ n <= 300
               /\ results_of payload = Some results).
  { intros table argName arg Hne. unfold search_by_table.
    destruct arg as [[| | | s | |] |]; try discriminate.
    assert (Hk : String.eqb "results" argName = false)
      by (apply String.eqb_neq; congruence).
    destruct (read (toLowerCase s) table); cbn [Js.bind]; try discriminate.
    - destruct (DP.searchSections _ _ _) as [found |] eqn:Hs; [| discriminate]. cbn [Js.bind].
      destruct (mapM _ found) as [out |] eqn:Hm; [| discriminate]. cbn [Js.bind].
      intros [= <-]. eexists _, 250, found, out. repeat split; try eassumption; [lia |].
      unfold results_of, get. rewrite Hk. reflexivity.
    - destruct (DP.searchSections _ _ _) as [found |] eqn:Hs; [| discriminate]. cbn [Js.bind].
      destruct (mapM _ found) as [out |] eqn:Hm; [| discriminate]. cbn [Js.bind].
      intros [= <-]. eexists _, 250, found, out. repeat split; try eassumption; [lia |].
      unfold results_of, get. rewrite Hk. reflexivity. }
  unfold search_tools in Hname. simpl in Hname.
  destruct Hname as [E | [E | [E | []]]]; unfold dispatch; rewrite <- E; simpl.
  - unfold executeSearchSections.
    destruct (DP.getDocumentData this); [| discriminate]. cbn [Js.bind].
    destruct (DP.searchSections _ _ _) as [found |] eqn:Hs; [| discriminate]. cbn [Js.bind].
    destruct (mapM _ found) as [out |] eqn:Hm; [| discriminate]. cbn [Js.bind].
    intros [= <-]. eexists _, 300, found, out. repeat split; try eassumption; [lia |].
    unfold results_of. destruct (query (call_input call)); reflexivity.
  - apply Htable. discriminate.
  - apply Htable. discriminate.
Qed.

Lemma result_entry_within (n : nat) (r : ranked) (entry : json) :
  result_entry n r = Return entry -> entry_within n entry.
Proof.
  unfold result_entry. destruct (DP.ranked_value r) as [s | t | |]; try discriminate;
    intros [= <-]; unfold entry_within, string_property; cbn;
    eexists _, _; repeat split; first [apply truncateText_length | simpl; lia].
Qed.

(** X13.  Whatever the snapshot and the arguments, every
    entry of the result list of a search tool carries a content of at most
    303 characters and an excerpt of at most 203, and the content that
    [get_section_by_id] returns has at most 603. *)
Theorem tool_payload_sizes (this : parser) (call : tool_call) (payload : json) :
  dispatch this call = Return payload ->
  (In (call_name call) search_tools ->
   exists results,
     results_of payload = Some results
     /\ Forall (entry_within 300) results)
  /\ (call_name call = "get_section_by_id" ->
      exists content,
        string_property "content" payload = Some content
        /\ String.length content <= 603).
Proof.
  intros H. split.
  - intros Hname.
    destruct (search_tool_payload this call payload Hname H)
      as (q & n & found & results & _ & Hm & Hn & Hr).
    exists results. split; [exact Hr |].
    eapply Forall_impl; [| exact (mapM_Forall _ _ _ _ (result_entry_within n) Hm)].
    intros entry (c & x & H1 & H2 & H3 & H4). exists c, x. repeat split; try assumption. lia.
  - intros Hname. unfold dispatch in H. rewrite Hname in H. simpl in H.
    unfold executeGetSectionById in H.
    destruct (DP.getDocumentData this) as [d |]; [| discriminate]. cbn [Js.bind] in H.
    destruct (DP.section_at _ _) as [s | [|] | |]; try discriminate; injection H as <-.
    + eexists. split; [reflexivity |]. apply truncateText_length.
    + exists "". split; [reflexivity | simpl; lia].
Qed.

Lemma tool_payload_sizes_witness :
  exists payload results,
    dispatch Sample.library farm_search = Return payload
    /\ results_of payload = Some results
    /\ Forall (entry_within 300) results.
Proof.
  destruct (dispatch Sample.library farm_search) as [payload | e] eqn:H;
    [| vm_compute in H; discriminate].
  exists payload.
  destruct (proj1 (tool_payload_sizes _ _ _ H)) as (results & Hr & Hall);
    [vm_compute; tauto |].
  exists results. auto.
Defined.

Lemma dispatch_uninitialised (call : tool_call) :
  match dispatch None call with
  | Return payload => is_error_payload payload = true
  | Throw _ => True
  end.
Proof.
  assert (Htable : forall table argName arg,
             match search_by_table table argName None arg (call_input call) with
             | Return payload => is_error_payload payload = true
             | Throw _ => True
             end).
  { intros table argName arg. unfold search_by_table.
    destruct arg as [[| | | s | |] |]; try exact I.
    destruct (read (toLowerCase s) table); exact I. }
  unfold dispatch.
  destruct (String.eqb _ "search_sections"); [exact I |].
  destruct (String.eqb _ "get_section_by_id"); [exact I |].
  destruct (String.eqb _ "search_by_topic"); [apply Htable |].
  destruct (String.eqb _ "get_bill_overview"); [exact I |].
  destruct (String.eqb _ "search_financial_impact"); [apply Htable |].
  reflexivity.
Qed.

(** X14.  While the document parser is
    not initialised, [executeToolCalls] still returns one entry per tool
    call, under the id of the call, and every entry is an error payload:
    no tool call aborts the conversation. *)
Theorem uninitialised_parser_reports_errors (r : response) (items : list block) :
  LLMService.content r = Some items ->
  exists results,
    executeToolCalls None r = Return results
    /\ map result_id results = map call_id (tool_uses items)
    /\ Forall (fun entry => is_error_payload (result_content entry) = true) results.
Proof.
  intros H. exists (map (answer None) (tool_uses items)).
  split; [now apply executeToolCalls_answers |]. split.
  - rewrite map_map. reflexivity.
  - apply Forall_forall. intros entry Hin. apply in_map_iff in Hin.
    destruct Hin as (call & <- & _). unfold answer. cbn [result_content].
    pose proof (dispatch_uninitialised call) as Hd.
    destruct (dispatch None call); [exact Hd | reflexivity].
Qed.

Lemma uninitialised_parser_reports_errors_witness :
  exists results,
    executeToolCalls None Sample.search_reply = Return results
    /\ map result_id results = ["toolu_1"; "toolu_2"]
    /\ Forall (fun entry => is_error_payload (result_content entry) = true) results.
Proof.
  destruct (uninitialised_parser_reports_errors Sample.search_reply _ eq_refl)
    as (results & H1 & H2 & H3).
  exists results. repeat split; assumption.
Defined.

(** ** Fetching a section *)

Lemma built_keys (throws : node -> bool) (parsedXml : node) (d : documentData) (i : string) :
  buildDocumentStructure throws parsedXml = Return d ->
  (In i (extracted throws parsedXml) /\ i <> "__proto__"
   <-> exists s, get i (sections d) = Some s).
Proof.
  intros H. apply built_snapshot in H. destruct H as [HS _].
  destruct (built_sections throws parsedXml) as [Hk _]. cbn zeta in Hk. rewrite <- HS in Hk.
  assert (E : In i (extracted throws parsedXml) /\ i <> "__proto__"
              <-> In i (map fst (sections d))).
  { rewrite Hk, Set_from_In, filter_In. unfold makes_key.
    rewrite negb_true_iff, String.eqb_neq. reflexivity. }
  rewrite E. split.
  - intros Hin. destruct (get i (sections d)) as [s |] eqn:G; [now exists s |].
    apply (proj1 (get_None_keys _ _)) in G. contradiction.
  - intros (s & G). apply get_In in G. apply in_map_iff. now exists (i, s).
Qed.

(** X15.  On a built snapshot [get_section_by_id] returns, for the id of
    every node whose extraction was not skipped, the id [__proto__] apart,
    the section stored under that id, with that id, its content cut to 600
    characters and an empty list of children; for any other string it
    fails with the message that the section was not found, provided that
    the string names no member of [Object.prototype] and that no node of
    the document has the id [__proto__] (such a node becomes the prototype
    of the map, and its properties are then found under their names). *)
Theorem get_section_by_id_fetches
    (throws : node -> bool) (parsedXml : node) (d : documentData)
    (input : tool_input) (i : string) :
  buildDocumentStructure throws parsedXml = Return d ->
  sectionId input = Some (JStr i) ->
  (In i (extracted throws parsedXml) -> i <> "__proto__" ->
   exists s, get i (sections d) = Some s
             /\ id s = i
             /\ executeGetSectionById (Some d) input = Return (section_payload s))
  /\ (~ In i (extracted throws parsedXml) -> ~ In i prototype_members ->
      ~ In "__proto__" (extracted throws parsedXml) ->
      executeGetSectionById (Some d) input
      = Throw (Error ("Section with ID " ++ quote ++ i ++ quote ++ " not found"))).
Proof.
  intros Hd Hi. unfold executeGetSectionById. cbn [DP.getDocumentData Js.bind].
  rewrite Hi. cbn [to_string json_to_string]. unfold section_at. split.
  - intros Hin Hne. destruct (proj1 (built_keys _ _ _ i Hd) (conj Hin Hne)) as (s & G).
    exists s. rewrite G.
    assert (Hs : id s = i /\ children s = []).
    { apply get_In in G. apply built_snapshot in Hd. destruct Hd as [HS _].
      destruct (built_sections throws parsedXml) as [_ He]. cbn zeta in He.
      rewrite <- HS in He. apply He in G. tauto. }
    destruct Hs as [Hid Hch]. repeat split; try assumption.
    unfold section_payload. now rewrite Hch.
  - intros Hn Hm Hp.
    destruct (get i (DP.sections d)) as [s |] eqn:G.
    + exfalso. apply Hn. apply (built_keys _ _ _ i Hd). now exists s.
    + rewrite (built_prototype _ _ _ Hd Hp).
      apply includes_false in Hm. now rewrite Hm.
Qed.

Lemma get_section_by_id_fetches_witness :
  (exists s, get "S3" (sections Sample.snapshot) = Some s
             /\ id s = "S3"
             /\ executeGetSectionById Sample.library (fetch "S3") = Return (section_payload s))
  /\ executeGetSectionById Sample.library (fetch "S99")
     = Throw (Error ("Section with ID " ++ quote ++ "S99" ++ quote ++ " not found")).
Proof.
  assert (Hd : buildDocumentStructure Sample.never Sample.bill = Return Sample.snapshot)
    by (vm_compute; reflexivity).
  split.
  - apply (proj1 (get_section_by_id_fetches _ _ _ (fetch "S3") "S3" Hd eq_refl)).
    + vm_compute. tauto.
    + discriminate.
  - apply (proj2 (get_section_by_id_fetches _ _ _ (fetch "S99") "S99" Hd eq_refl)).
    + vm_compute. intuition discriminate.
    + vm_compute. intuition discriminate.
    + vm_compute. intuition discriminate.
Defined.

(** ** Searching by topic and by financial impact *)

Lemma search_by_known_name (throws : node -> bool) (parsedXml : node) (d : documentData)
    (table : obj (list string)) (argName name : string) (keywords : list string)
    (input : tool_input) :
  forallb (fun entry => joined_plainly (snd entry)) table = true ->
  buildDocumentStructure throws parsedXml = Return d ->
  get (toLowerCase name) table = Some keywords ->
  exists payload,
    search_by_table table argName (Some d) (Some (JStr name)) input = Return payload
    /\ table_answer d argName name keywords payload.
Proof.
  intros Htable Hd Hget.
  assert (Hk : joined_plainly keywords = true).
  { rewrite forallb_forall in Htable. apply (Htable (toLowerCase name, keywords)), (get_In _ _ _ Hget). }
  unfold joined_plainly in Hk. cbn zeta in Hk. apply andb_true_iff in Hk.
  destruct Hk as [Htok Hmem].
  destruct (list_eq_dec string_dec _ _) as [Htok' |]; [clear Htok | discriminate].
  apply negb_true_iff in Hmem.
  unfold search_by_table, read. rewrite Hget. cbn [Js.bind].
  pose proof (searchSections_built _ _ _ (vstr (join " OR " keywords))
                (Z.min (requested input) 3) Hd) as Hs.
  rewrite Hmem in Hs.
  destruct (built_found _ _ _ _ _ _ Hd Hs) as (ranking & Hfound & _ & Hkeys & _).
  pose proof (built_matches _ _ _ (vstr (join " OR " keywords)) Hd) as HL.
  assert (Hsec : forall r,
             In r (map (rank d) (slice0 (Z.min (requested input) 3) ranking)) ->
             exists s w,
               ranked_value r = Stored s
               /\ get (DP.id s) (sections d) = Some s
               /\ In w (keyword_tokens keywords)
               /\ In w (section_keywords s)).
  { intros r Hin. apply in_map_iff in Hin. destruct Hin as ([i v] & <- & He).
    apply slice0_In in He.
    assert (Hi : In i (flat_map (matches (searchIndex d))
                         (extractKeywords (vstr (join " OR " keywords)))))
      by (apply Hkeys, in_map_iff; now exists (i, v)).
    destruct (proj1 (HL i) Hi) as (s & k & Hg & Hid & Hkq & Hks).
    exists s, k. unfold rank. cbn [ranked_value fst].
    rewrite (section_at_own _ _ _ Hg), Hid.
    rewrite <- Htok'. repeat split; assumption. }
  rewrite Hs. cbn [Js.bind]. rewrite Hfound in *.
  destruct (mapM_total (result_entry 250)
              (map (rank d) (slice0 (Z.min (requested input) 3) ranking)))
    as (results & Hr).
  { apply Forall_forall. intros r Hin. destruct (Hsec r Hin) as (s & _ & E & _).
    unfold result_entry. rewrite E. eauto. }
  rewrite Hr. cbn [Js.bind]. eexists. split; [reflexivity |].
  exists (map (rank d) (slice0 (Z.min (requested input) 3) ranking)), results.
  repeat split; [exact Hr | now apply mapM_length in Hr |].
  intros r Hin. destruct (Hsec r Hin) as (s & w & E & H).
  exists s, w. unfold ranked_section. rewrite E. split; [reflexivity | exact H].
Qed.

(** X16.  On a built snapshot the tools
    [search_by_topic] and [search_financial_impact] never fail for a name
    whose lower-case form is in their table: they answer with the name as
    given, the keywords of the table and one entry per section found, and
    every section found has, in its title or text, a token of one of the
    keywords (the connective [OR] of the joined query is no search
    word). *)
Theorem search_by_known_topic
    (throws : node -> bool) (parsedXml : node) (d : documentData) (input : tool_input)
    (name : string) (keywords : list string) :
  buildDocumentStructure throws parsedXml = Return d ->
  (topic input = Some (JStr name) ->
   get (toLowerCase name) topicKeywords = Some keywords ->
   exists payload,
     executeSearchByTopic (Some d) input = Return payload
     /\ table_answer d "topic" name keywords payload)
  /\ (impactType input = Some (JStr name) ->
      get (toLowerCase name) impactKeywords = Some keywords ->
      exists payload,
        executeSearchFinancialImpact (Some d) input = Return payload
        /\ table_answer d "impactType" name keywords payload).
Proof.
  intros Hd. split; intros Harg Hget.
  - unfold executeSearchByTopic. rewrite Harg.
    apply (search_by_known_name throws parsedXml); try assumption.
    vm_compute. reflexivity.
  - unfold executeSearchFinancialImpact. rewrite Harg.
    apply (search_by_known_name throws parsedXml); try assumption.
    vm_compute. reflexivity.
Qed.

Lemma search_by_known_topic_witness :
  exists payload,
    executeSearchByTopic Sample.library (about "Agriculture") = Return payload
    /\ table_answer Sample.snapshot "topic" "Agriculture"
         ["agriculture"; "farm"; "farming"; "food"; "SNAP"; "nutrition"; "USDA"; "crop"]
         payload.
Proof.
  apply (proj1 (search_by_known_topic Sample.never Sample.bill Sample.snapshot
                  (about "Agriculture") "Agriculture" _ ltac:(vm_compute; reflexivity)));
    vm_compute; reflexivity.
Defined.

(** ** Arguments outside the declared schema (C5), on a built snapshot *)

Lemma named_search_table (call : tool_call) (table : obj (list string)) (arg : value) :
  named_search call = Some (table, arg) ->
  forallb (fun entry => joined_plainly (snd entry)) table = true.
Proof.
  unfold named_search.
  destruct (String.eqb (call_name call) "search_by_topic");
    [intros [= <- _]; vm_compute; reflexivity |].
  destruct (String.eqb (call_name call) "search_financial_impact");
    [intros [= <- _]; vm_compute; reflexivity | discriminate].
Qed.

(** On a built snapshot every section found has an entry. *)
Lemma built_entries (throws : node -> bool) (parsedXml : node) (d : documentData)
    (query : value) (limit : Z) (n : nat) (found : list ranked) :
  buildDocumentStructure throws parsedXml = Return d ->
  searchSections (Some d) query limit = Return found ->
  exists results, mapM (result_entry n) found = Return results.
Proof.
  intros Hd Hs.
  destruct (built_found _ _ _ _ _ _ Hd Hs) as (ranking & -> & _ & Hkeys & _).
  apply mapM_total, Forall_forall. intros r Hin.
  apply in_map_iff in Hin. destruct Hin as ([i v] & <- & He). apply slice0_In in He.
  assert (Hi : In i (flat_map (matches (searchIndex d)) (extractKeywords query)))
    by (apply Hkeys, in_map_iff; now exists (i, v)).
  destruct (proj1 (built_matches _ _ _ query Hd i) Hi) as (s & k & Hg & _).
  unfold result_entry, rank. cbn [DP.ranked_value fst].
  rewrite (section_at_own _ _ _ Hg). eauto.
Qed.

Lemma answer_alone (this : parser) (call : tool_call) :
  executeToolCalls this (reply_of call) = Return [answer this call].
Proof.
  rewrite (executeToolCalls_answers this (reply_of call)
             [ToolUse (call_id call) (call_name call) (call_input call)] eq_refl).
  cbn [tool_uses map]. now destruct call.
Qed.

(** C5, as the executors behave.  The arguments of a tool call are not
    checked against the schema.  A topic search or a financial-impact search
    whose name argument is missing or is not a string fails with a
    [TypeError], and the conversation gets the message of the failure as the
    result of the call.  A string is never refused for being outside the
    enumerated values; on a built snapshot the conversation gets, for the
    string [s]: when the lower-case form of [s] is a key of the table, an
    ordinary payload whose search keywords are those of the table; when it
    names a member of [Object.prototype], the message of a [TypeError];
    otherwise the search is made with [s] as the only keyword, and the
    conversation gets an ordinary payload, or, when a token of [s] is
    [constructor] or [__proto__], the message of the [TypeError] of the
    search. *)
Theorem unchecked_arguments
    (this : parser) (call : tool_call) (table : obj (list string)) (arg : value) :
  named_search call = Some (table, arg) ->
  ((forall s, arg <> Some (JStr s)) ->
   exists message,
     dispatch this call = Throw (TypeError message)
     /\ executeToolCalls this (reply_of call)
        = Return [ {| result_id := call_id call;
                      result_content := error_payload message |} ])
  /\ (forall throws parsedXml d s,
        this = Some d ->
        buildDocumentStructure throws parsedXml = Return d ->
        arg = Some (JStr s) ->
        exists content,
          executeToolCalls this (reply_of call)
          = Return [ {| result_id := call_id call; result_content := content |} ]
          /\ match read (toLowerCase s) table with
             | Own keywords =>
                 is_error_payload content = false
                 /\ keywords_of content = Some (JArr (map JStr keywords))
             | Inherited => content = error_payload "keywords.join is not a function"
             | Undefined =>
                 if existsb member_token (extractKeywords (Some (JStr s)))
                 then content = error_payload "matchingSections.forEach is not a function"
                 else is_error_payload content = false
                      /\ keywords_of content = Some (JArr [JStr s])
             end).
Proof.
  intros Hn. destruct (named_search_dispatch this call table arg Hn) as (argName & Hne & Hd).
  split.
  - intros Hs.
    assert (H : exists message, dispatch this call = Throw (TypeError message)).
    { rewrite Hd. unfold search_by_table.
      destruct arg as [[| b | n | s | l | o] |]; try (eexists; reflexivity).
      now elim (Hs s). }
    destruct H as [message H]. exists message. split; [exact H |].
    rewrite answer_alone. unfold answer. now rewrite H.
  - intros throws parsedXml d s -> Hbuilt ->.
    exists (result_content (answer (Some d) call)).
    split; [apply answer_alone |].
    unfold answer. cbn [result_content]. rewrite Hd.
    assert (Hname : has "error" [(argName, JStr s)] = false
                    /\ get "searchKeywords" [(argName, JStr s)] = None).
    { destruct Hne as [-> | ->]; split; reflexivity. }
    destruct Hname as [Herr Hkey].
    destruct (read (toLowerCase s) table) as [keywords | |] eqn:Hr.
    + assert (Hget : get (toLowerCase s) table = Some keywords).
      { unfold read in Hr. destruct (get (toLowerCase s) table) as [ks |].
        - now injection Hr as ->.
        - destruct (includes _ prototype_members); discriminate. }
      destruct (search_by_known_name throws parsedXml d table argName s keywords
                  (call_input call) (named_search_table _ _ _ Hn) Hbuilt Hget)
        as (payload & -> & found & results & -> & _).
      unfold is_error_payload, keywords_of, has in *. cbn [get] in *.
      destruct (String.eqb "error" argName); [discriminate |].
      destruct (String.eqb "searchKeywords" argName); [discriminate |].
      split; reflexivity.
    + unfold search_by_table. rewrite Hr. reflexivity.
    + unfold search_by_table. rewrite Hr. cbn [Js.bind join fold_left].
      rewrite (searchSections_built _ _ _ (vstr s) (Z.min (requested (call_input call)) 3)
                 Hbuilt).
      unfold vstr. destruct (existsb member_token (extractKeywords (Some (JStr s)))) eqn:Hm.
      * reflexivity.
      * pose proof (searchSections_built _ _ _ (vstr s)
                      (Z.min (requested (call_input call)) 3) Hbuilt) as Hs.
        unfold vstr in Hs. rewrite Hm in Hs.
        destruct (built_entries _ _ _ _ _ 250 _ Hbuilt Hs) as (results & Hres).
        cbn [Js.bind]. rewrite Hres. cbn [Js.bind].
        unfold is_error_payload, keywords_of, has in *. cbn [get] in *.
        destruct (String.eqb "error" argName); [discriminate |].
        destruct (String.eqb "searchKeywords" argName); [discriminate |].
        split; reflexivity.
Qed.

Lemma unchecked_arguments_witness :
  (exists message,
      dispatch Sample.library topic_missing = Throw (TypeError message)
      /\ executeToolCalls Sample.library (reply_of topic_missing)
         = Return [ {| result_id := "toolu_3"; result_content := error_payload message |} ])
  /\ (exists content,
        executeToolCalls Sample.library (reply_of topic_outside_enum)
        = Return [ {| result_id := "toolu_4"; result_content := content |} ]
        /\ is_error_payload content = false
        /\ keywords_of content = Some (JArr [JStr "farm"])).
Proof.
  split.
  - refine (proj1 (unchecked_arguments Sample.library topic_missing topicKeywords None
                     eq_refl) _).
    intros s. discriminate.
  - exact (proj2 (unchecked_arguments Sample.library topic_outside_enum topicKeywords
                    (Some (JStr "farm")) eq_refl)
             Sample.never Sample.bill Sample.snapshot "farm" eq_refl
             ltac:(vm_compute; reflexivity) eq_refl).
Defined.

(** ** The overview of the bill *)

(** X17.  On a built snapshot the tool [get_bill_overview] reports,
    whatever its arguments, the default title (a snapshot carries none)
    and as [totalSections] the number of distinct ids, other than
    [__proto__], of the nodes whose extraction was not skipped: a node that
    repeats the id of an earlier one is not counted again, and a node whose
    id is [__proto__] is not counted at all. *)
Theorem bill_overview_counts_sections
    (throws : node -> bool) (parsedXml : node) (d : documentData) (input : tool_input) :
  buildDocumentStructure throws parsedXml = Return d ->
  exists (ids : list string) (rest : obj json),
    NoDup ids
    /\ (forall i, In i ids <-> In i (extracted throws parsedXml) /\ i <> "__proto__")
    /\ executeGetBillOverview (Some d) input
       = Return (JObj (("title", JStr "H.R. 1 (2025)")
                       :: ("totalSections", JNum (Z.of_nat (List.length ids)))
                       :: rest)).
Proof.
  intros Hd. apply built_snapshot in Hd. destruct Hd as [HS _].
  destruct (built_sections throws parsedXml) as [Hk _]. cbn zeta in Hk. rewrite <- HS in Hk.
  exists (Set_from (filter makes_key (extracted throws parsedXml))). eexists.
  split; [apply Set_from_NoDup |]. split.
  - intros i. rewrite Set_from_In, filter_In. unfold makes_key.
    rewrite negb_true_iff, String.eqb_neq. reflexivity.
  - unfold executeGetBillOverview. cbn [DP.getDocumentData Js.bind].
    unfold keys. rewrite length_map, (Permutation_length (entries_perm (DP.sections d))).
    rewrite <- Hk, length_map. reflexivity.
Qed.

Lemma bill_overview_counts_sections_witness :
  exists (ids : list string) (rest : obj json),
    NoDup ids
    /\ (forall i, In i ids <-> In i (extracted Sample.never Sample.bill) /\ i <> "__proto__")
    /\ executeGetBillOverview Sample.library Sample.no_input
       = Return (JObj (("title", JStr "H.R. 1 (2025)")
                       :: ("totalSections", JNum (Z.of_nat (List.length ids)))
                       :: rest)).
Proof.
  apply (bill_overview_counts_sections Sample.never Sample.bill Sample.snapshot).
  vm_compute. reflexivity.
Defined.

(** ** The rounds of a conversation *)

Lemma trace_bind_run {A B} (m : run A) (k : A -> run B) :
  trace (bind_run m k)
  = trace m ++ match outcome m with
               | Return a => trace (k a)
               | Throw _ => []
               end.
Proof.
  destruct m as [t [a | e]]; unfold trace, outcome; cbn.
  - destruct (k a). reflexivity.
  - now rewrite app_nil_r.
Qed.

Lemma outcome_bind_run {A B} (m : run A) (k : A -> run B) :
  outcome (bind_run m k)
  = match outcome m with
    | Return a => outcome (k a)
    | Throw e => Throw e
    end.
Proof.
  destruct m as [t [a | e]]; unfold outcome; cbn; [| reflexivity].
  destruct (k a). reflexivity.
Qed.

Section Rounds.
Variable post : payload -> result response.
Variable this : DP.parser.
Variable budget : nat.
Variable originalPayload : payload.

(** One turn of the loop, when it is taken. *)
Lemma tool_loop_turn (fuel : nat) (st : loop_state) :
  requests_tools (currentResponse st) && (iterationCount st <? budget) = true ->
  exists results request,
    messages request
    = conversationHistory st ++ [assistant_turn (currentResponse st); results_turn results]
    /\ payload_tools request = payload_tools originalPayload
    /\ ((exists e, post request = Throw e
                   /\ tool_loop post this budget originalPayload (S fuel) st
                      = ([Executed results; Posted request], Throw e))
        \/ (exists next,
              post request = Return next
              /\ tool_loop post this budget originalPayload (S fuel) st
                 = (Executed results :: Posted request
                      :: trace (tool_loop post this budget originalPayload fuel
                                  {| currentResponse := next;
                                     conversationHistory := messages request;
                                     iterationCount := iterationCount st + 1 |}),
                    outcome (tool_loop post this budget originalPayload fuel
                               {| currentResponse := next;
                                  conversationHistory := messages request;
                                  iterationCount := iterationCount st + 1 |})))).
Proof.
  intros E. apply andb_true_iff in E. destruct E as [Hreq Hlt]. apply Nat.ltb_lt in Hlt.
  destruct (requests_tools_content _ Hreq) as [items Hc].
  pose proof (tool_loop_step post this budget originalPayload fuel st items Hreq Hlt Hc) as H.
  cbn zeta in H.
  exists (map (answer this) (tool_uses items)),
    {| messages := conversationHistory st ++ [assistant_turn (currentResponse st)]
                     ++ [results_turn (map (answer this) (tool_uses items))];
       payload_tools := payload_tools originalPayload |}.
  cbn [messages payload_tools].
  split; [reflexivity |]. split; [reflexivity |].
  destruct (post _) as [next | e] eqn:P.
  - right. exists next. split; [reflexivity |]. rewrite H.
    destruct (tool_loop _ _ _ _ fuel _) as [t r]. reflexivity.
  - left. exists e. split; [reflexivity | exact H].
Qed.

(** The loop makes rounds, and what follows it continues them. *)
Lemma tool_loop_rounds (fuel : nat) :
  forall (st : loop_state) (left : nat) (u : list event),
    iterationCount st + left = budget ->
    (forall st', outcome (tool_loop post this budget originalPayload fuel st) = Return st' ->
       rounds post this (payload_tools originalPayload) (budget - iterationCount st')
         (conversationHistory st') (currentResponse st') u) ->
    (forall e, outcome (tool_loop post this budget originalPayload fuel st) = Throw e ->
       u = []) ->
    rounds post this (payload_tools originalPayload) left
      (conversationHistory st) (currentResponse st)
      (trace (tool_loop post this budget originalPayload fuel st) ++ u).
Proof.
  assert (Hstop : forall fuel st left u,
             iterationCount st + left = budget ->
             tool_loop post this budget originalPayload fuel st = ret st ->
             (forall st', outcome (tool_loop post this budget originalPayload fuel st)
                          = Return st' ->
                rounds post this (payload_tools originalPayload) (budget - iterationCount st')
                  (conversationHistory st') (currentResponse st') u) ->
             rounds post this (payload_tools originalPayload) left
               (conversationHistory st) (currentResponse st)
               (trace (tool_loop post this budget originalPayload fuel st) ++ u)).
  { intros f st left u Hl E H. specialize (H st). rewrite E in *. cbn in *.
    replace left with (budget - iterationCount st) by lia. now apply H. }
  induction fuel as [| fuel IH]; intros st left u Hl Hret Hthrow.
  - now apply Hstop.
  - destruct (requests_tools (currentResponse st) && (iterationCount st <? budget)) eqn:E.
    + apply andb_true_iff in E. destruct E as [Hreq Hlt]. apply Nat.ltb_lt in Hlt.
      destruct (requests_tools_content _ Hreq) as [items Hc].
      pose proof (tool_loop_step post this budget originalPayload fuel st items Hreq Hlt Hc)
        as Hstep.
      cbn zeta in Hstep. rewrite Hstep in *. clear Hstep.
      destruct left as [| left']; [lia |].
      set (request := {| messages := conversationHistory st
                                       ++ [assistant_turn (currentResponse st)]
                                       ++ [results_turn (map (answer this) (tool_uses items))];
                         payload_tools := payload_tools originalPayload |}) in *.
      destruct (post request) as [next | e] eqn:P.
      * specialize (IH {| currentResponse := next;
                          conversationHistory := messages request;
                          iterationCount := iterationCount st + 1 |} left' u).
        cbn [conversationHistory currentResponse iterationCount] in IH.
        change (conversationHistory st ++ [assistant_turn (currentResponse st)]
                  ++ [results_turn (map (answer this) (tool_uses items))])
          with (messages request) in Hret, Hthrow |- *.
        destruct (tool_loop post this budget originalPayload fuel _) as [t r].
        unfold trace, outcome in *. cbn [fst snd app] in *.
        cbn [rounds]. rewrite P.
        split; [exact Hreq |]. split; [now apply executeToolCalls_answers |].
        split; [reflexivity |]. split; [reflexivity |].
        apply IH; [lia | exact Hret | exact Hthrow].
      * rewrite (Hthrow e eq_refl). cbn [trace fst app rounds]. rewrite P.
        split; [exact Hreq |]. split; [now apply executeToolCalls_answers |].
        repeat split.
    + apply Hstop; [exact Hl | | exact Hret].
      apply (tool_loop_stop post this budget originalPayload (S fuel) st E).
Qed.

Lemma tool_loop_executions (fuel : nat) (st : loop_state) :
  List.length (executions (trace (tool_loop post this budget originalPayload fuel st))) <= fuel
  /\ List.length (posts (trace (tool_loop post this budget originalPayload fuel st)))
     = List.length (executions (trace (tool_loop post this budget originalPayload fuel st))).
Proof.
  revert st. induction fuel as [| fuel IH]; intros st.
  - cbn. lia.
  - destruct (requests_tools (currentResponse st) && (iterationCount st <? budget)) eqn:E.
    + destruct (tool_loop_turn fuel st E) as (results & request & _ & _ & Hstep).
      destruct Hstep as [(e & _ & ->) | (next & _ & ->)].
      * cbn. lia.
      * specialize (IH {| currentResponse := next; conversationHistory := messages request;
                          iterationCount := iterationCount st + 1 |}).
        destruct IH as [IH1 IH2]. unfold trace in *. cbn [fst] in *.
        change (executions (Executed results :: Posted request :: ?t))
          with (results :: executions t).
        change (posts (Executed results :: Posted request :: ?t))
          with (request :: posts t).
        cbn [List.length]. lia.
    + rewrite (tool_loop_stop post this budget originalPayload (S fuel) st E). cbn. lia.
Qed.

Lemma tool_loop_failure (fuel : nat) (st : loop_state) (e : error) :
  outcome (tool_loop post this budget originalPayload fuel st) = Throw e ->
  exists t request,
    trace (tool_loop post this budget originalPayload fuel st) = t ++ [Posted request]
    /\ post request = Throw e.
Proof.
  revert st. induction fuel as [| fuel IH]; intros st.
  - discriminate.
  - destruct (requests_tools (currentResponse st) && (iterationCount st <? budget)) eqn:E.
    + destruct (tool_loop_turn fuel st E) as (results & request & _ & _ & Hstep).
      destruct Hstep as [(e' & Hp & ->) | (next & _ & ->)].
      * cbn. intros [= <-]. exists [Executed results], request. split; [reflexivity | exact Hp].
      * unfold outcome at 1, trace at 1. cbn [fst snd]. intros H.
        destruct (IH _ H) as (t & q & -> & Hq).
        exists (Executed results :: Posted request :: t), q. split; [reflexivity | exact Hq].
    + rewrite (tool_loop_stop post this budget originalPayload (S fuel) st E). discriminate.
Qed.

(** The closing part of [handleToolCalls], after the loop. *)
Lemma closing_part (st : loop_state) :
  let k := fun st : loop_state =>
             if (budget <=? iterationCount st) && requests_tools (currentResponse st)
             then
               bind_run (do_execute this (currentResponse st)) (fun finalToolResults =>
               do_post post
                 {| messages := conversationHistory st
                                  ++ [assistant_turn (currentResponse st)]
                                  ++ [results_turn finalToolResults]
                                  ++ [final_turn];
                    payload_tools := payload_tools originalPayload |})
             else ret (currentResponse st) in
  k st = ret (currentResponse st)
  \/ exists results,
       k st = ([Executed results; Posted (final_request originalPayload st results)],
               post (final_request originalPayload st results)).
Proof.
  cbn beta zeta.
  destruct ((budget <=? iterationCount st) && requests_tools (currentResponse st)) eqn:E;
    [| now left].
  right. apply andb_true_iff in E. destruct E as [_ Hreq].
  destruct (requests_tools_content _ Hreq) as [items Hc].
  unfold do_execute. rewrite (executeToolCalls_answers this _ items Hc).
  exists (map (answer this) (tool_uses items)). reflexivity.
Qed.
End Rounds.

(** X18.  Every run of [handleToolCalls] is a sequence of rounds,
    whatever the model replies and whether or not a request fails: each
    execution of tool calls is followed by one request, and each request
    carries the tools of the first request and the messages of the request
    before it (those of the first request, for the first round), unchanged
    and in order, followed by the reply that asked for the calls (the first
    reply, then the reply to the request before) and by the results of
    those calls; after [budget] such requests, and only then, the request
    also carries the final instruction, and it is the last one. *)
Theorem requests_extend_history
    (post : payload -> result response) (this : DP.parser) (budget : nat)
    (r : response) (originalPayload : payload) :
  rounds post this (payload_tools originalPayload) budget (messages originalPayload) r
    (trace (handleToolCalls post this budget r originalPayload)).
Proof.
  unfold handleToolCalls. rewrite trace_bind_run.
  apply (tool_loop_rounds post this budget originalPayload budget
           {| currentResponse := r; conversationHistory := messages originalPayload;
              iterationCount := 0 |} budget); [reflexivity | |].
  - intros st' ->.
    destruct ((budget <=? iterationCount st') && requests_tools (currentResponse st')) eqn:E;
      [| cbn; exact I].
    apply andb_true_iff in E. destruct E as [Hle Hreq]. apply Nat.leb_le in Hle.
    destruct (requests_tools_content _ Hreq) as [items Hc].
    unfold do_execute. rewrite (executeToolCalls_answers this _ items Hc).
    replace (budget - iterationCount st') with 0 by lia.
    cbn. split; [exact Hreq |]. split; [now apply executeToolCalls_answers |].
    repeat split.
  - intros e ->. reflexivity.
Qed.

(** X19.  In every run of [handleToolCalls]
    the number of requests equals the number of executions of tool calls,
    and it is at most the budget plus one (four, for the budget of three
    that the code fixes), whatever the model replies. *)
Theorem handleToolCalls_rounds_bounded
    (post : payload -> result response) (this : DP.parser) (budget : nat)
    (r : response) (originalPayload : payload) :
  let t := trace (handleToolCalls post this budget r originalPayload) in
  List.length (posts t) = List.length (executions t)
  /\ List.length (executions t) <= budget + 1.
Proof.
  cbn zeta. unfold handleToolCalls. rewrite trace_bind_run, posts_app, executions_app, !length_app.
  destruct (tool_loop_executions post this budget originalPayload budget
              {| currentResponse := r; conversationHistory := messages originalPayload;
                 iterationCount := 0 |}) as [H1 H2].
  destruct (outcome _) as [st' | e]; [| cbn; lia].
  destruct (closing_part post this budget originalPayload st') as [-> | (results & ->)];
    cbn; lia.
Qed.

(** X20.  [handleToolCalls] fails only
    when a request to the model fails: if it throws, the last thing it did
    was to send a request, and what it throws is what that request threw.
    No failure of a tool makes it throw. *)
Theorem handleToolCalls_fails_on_requests_only
    (post : payload -> result response) (this : DP.parser) (budget : nat)
    (r : response) (originalPayload : payload) (e : error) :
  outcome (handleToolCalls post this budget r originalPayload) = Throw e ->
  exists request,
    last (trace (handleToolCalls post this budget r originalPayload)) (Executed [])
    = Posted request
    /\ post request = Throw e.
Proof.
  unfold handleToolCalls. rewrite outcome_bind_run, trace_bind_run.
  destruct (outcome (tool_loop _ _ _ _ _ _)) as [st' | e'] eqn:Ho.
  - destruct (closing_part post this budget originalPayload st') as [-> | (results & ->)];
      [discriminate |].
    unfold outcome at 1, trace at 2. cbn [fst snd]. intros H.
    exists (final_request originalPayload st' results). split; [| exact H].
    change [Executed results; Posted (final_request originalPayload st' results)]
      with ([Executed results] ++ [Posted (final_request originalPayload st' results)]).
    now rewrite app_assoc, last_last.
  - intros [= <-]. destruct (tool_loop_failure _ _ _ _ _ _ _ Ho) as (t & q & -> & Hq).
    exists q. split; [| exact Hq]. now rewrite app_nil_r, last_last.
Qed.

Lemma handleToolCalls_fails_on_requests_only_witness :
  exists request,
    last (trace (handleToolCalls transport_down Sample.library maxIterations
                   Sample.search_reply Sample.first_request)) (Executed [])
    = Posted request
    /\ transport_down request = Throw (Error "Network error connecting to Claude API").
Proof.
  apply (handleToolCalls_fails_on_requests_only transport_down Sample.library maxIterations
           Sample.search_reply Sample.first_request).
  vm_compute. reflexivity.
Defined.

(** ** What the conversation returns *)

Section Returns.
Variable post : payload -> result response.
Variable this : DP.parser.
Variable budget : nat.
Variable originalPayload : payload.

(** What the loop returns is where it started, or the reply to its last
    request. *)
Lemma tool_loop_returns (fuel : nat) (st st' : loop_state) :
  outcome (tool_loop post this budget originalPayload fuel st) = Return st' ->
  (st' = st /\ trace (tool_loop post this budget originalPayload fuel st) = [])
  \/ exists t request,
       trace (tool_loop post this budget originalPayload fuel st) = t ++ [Posted request]
       /\ post request = Return (currentResponse st').
Proof.
  revert st. induction fuel as [| fuel IH]; intros st.
  - cbn. intros [= <-]. now left.
  - destruct (requests_tools (currentResponse st) && (iterationCount st <? budget)) eqn:E.
    + destruct (tool_loop_turn post this budget originalPayload fuel st E)
        as (results & request & _ & _ & Hstep).
      destruct Hstep as [(e & _ & ->) | (next & Hp & ->)]; [discriminate |].
      unfold outcome at 1, trace at 1 2. cbn [fst snd]. intros H. right.
      destruct (IH _ H) as [[-> Ht] | (t & q & Ht & Hq)].
      * exists [Executed results], request. rewrite Ht. split; [reflexivity | exact Hp].
      * exists (Executed results :: Posted request :: t), q. rewrite Ht.
        split; [reflexivity | exact Hq].
    + rewrite (tool_loop_stop post this budget originalPayload (S fuel) st E).
      cbn. intros [= <-]. now left.
Qed.
End Returns.

(** X21.  What [handleToolCalls]
    returns is a reply of the model, unchanged: the first reply itself,
    with no request sent and no tool run, when that reply asks for no
    tool; otherwise the reply to the last request that it sent. *)
Theorem handleToolCalls_returns_a_reply_of_the_model
    (post : payload -> result response) (this : DP.parser) (budget : nat)
    (r : response) (originalPayload : payload) (final : response) :
  outcome (handleToolCalls post this budget r originalPayload) = Return final ->
  (requests_tools r = false
   /\ final = r
   /\ trace (handleToolCalls post this budget r originalPayload) = [])
  \/ (requests_tools r = true
      /\ exists request,
           last (trace (handleToolCalls post this budget r originalPayload)) (Executed [])
           = Posted request
           /\ post request = Return final).
Proof.
  unfold handleToolCalls. rewrite outcome_bind_run, trace_bind_run.
  remember {| currentResponse := r; conversationHistory := messages originalPayload;
              iterationCount := 0 |} as st0 eqn:Est0.
  assert (Hcur : currentResponse st0 = r) by now subst st0.
  assert (Hcount : iterationCount st0 = 0) by now subst st0.
  clear Est0.
  destruct (outcome (tool_loop post this budget originalPayload budget st0))
    as [st' | e] eqn:Ho; [| discriminate].
  pose proof (tool_loop_stops_by_itself post this budget originalPayload budget st0 st'
                ltac:(lia) Ho) as Hstop.
  destruct (tool_loop_returns post this budget originalPayload budget st0 st' Ho)
    as [[-> Ht] | (t & q & Ht & Hq)].
  - rewrite Ht, app_nil_l. cbn beta. rewrite Hcur, Hcount in Hstop.
    destruct (requests_tools r) eqn:Hr.
    + (* the loop stopped at once on a reply that asks for tools: no budget *)
      cbn [andb] in Hstop. apply Nat.ltb_ge in Hstop.
      destruct (closing_part post this budget originalPayload st0) as [E | (results & E)];
        rewrite E.
      * exfalso. revert E. cbn beta zeta. rewrite Hcur, Hcount, Hr.
        replace (budget <=? 0) with true by (symmetry; apply Nat.leb_le; lia).
        cbn [andb]. destruct (requests_tools_content _ Hr) as [items Hc].
        unfold do_execute. rewrite (executeToolCalls_answers this _ items Hc).
        cbn. discriminate.
      * unfold outcome, trace. cbn [fst snd]. intros H. right. split; [reflexivity |].
        exists (final_request originalPayload st0 results). split; [reflexivity | exact H].
    + intros H. left. split; [reflexivity |]. revert H.
      destruct (closing_part post this budget originalPayload st0) as [E | (results & E)];
        rewrite E.
      * cbn. rewrite Hcur. intros [= <-]. split; reflexivity.
      * exfalso. revert E. cbn beta zeta. rewrite Hcur, Hr, andb_false_r. discriminate.
  - assert (Hr : requests_tools r = true).
    { destruct (requests_tools r) eqn:Hr; [reflexivity |].
      assert (E : requests_tools (currentResponse st0) && (iterationCount st0 <? budget) = false)
        by now rewrite Hcur, Hr.
      rewrite (tool_loop_stop post this budget originalPayload budget st0 E) in Ht.
      cbn in Ht. destruct t; discriminate. }
    rewrite Ht.
    destruct (closing_part post this budget originalPayload st') as [E | (results & E)];
      rewrite E.
    + cbn. intros [= <-]. right. split; [exact Hr |].
      exists q. rewrite app_nil_r, last_last. split; [reflexivity | exact Hq].
    + unfold outcome, trace. cbn [fst snd]. intros H. right. split; [exact Hr |].
      exists (final_request originalPayload st' results). split; [| exact H].
      change [Executed results; Posted (final_request originalPayload st' results)]
        with ([Executed results] ++ [Posted (final_request originalPayload st' results)]).
      now rewrite !app_assoc, last_last.
Qed.

Lemma handleToolCalls_returns_a_reply_of_the_model_witness :
  trace (handleToolCalls Sample.always_tools Sample.library maxIterations
           (Sample.text_reply "No tool is needed.") Sample.first_request) = [].
Proof.
  destruct (handleToolCalls_returns_a_reply_of_the_model Sample.always_tools Sample.library
              maxIterations (Sample.text_reply "No tool is needed.") Sample.first_request
              (Sample.text_reply "No tool is needed.") eq_refl)
    as [(_ & _ & H) | (H & _)]; [exact H | discriminate H].
Defined.

(* ================================================================= *)
(** * Replies, responses and requests *)

(** ** The fallback of the parser and the formatted response *)

Lemma parsed_content_candidate (JSON_parse : string -> option json) (text : string) :
  parsed_content JSON_parse text
  = match JSON_parse (candidate text) with
    | Some parsed => own_properties parsed
    | None => Return (structured_from_text text)
    end.
Proof. unfold parsed_content, candidate. destruct (match_braces text); reflexivity. Qed.

Lemma firstn_length_le {A} (n : nat) (l : list A) : List.length (firstn n l) <= n.
Proof. rewrite length_firstn. lia. Qed.

(** X22.  When the reply has a non-empty text that
    [JSON.parse] rejects, [parseResponse] returns a complete structure made
    from the text: a non-empty answer, no sections, at most five key
    points, each trimmed, the fixed sentence for the implications and the
    confidence [medium], with the metadata of the reply. *)
Theorem parseResponse_falls_back (JSON_parse : string -> option json) (model : string)
    (r : response) (items : list block) (text : string) :
  LLMService.content r = Some items ->
  find is_text items = Some (TextBlock text) ->
  text <> "" ->
  JSON_parse (candidate text) = None ->
  exists answer points,
    parseResponse JSON_parse model r
    = Return [ ("answer", JStr answer);
               ("sections", JArr []);
               ("keyPoints", JArr (map JStr points));
               ("implications", JStr "Based on the analysis provided above.");
               ("confidence", JStr "medium");
               ("metadata", JObj [ ("model", JStr model);
                                   ("requestId", JStr (response_id r)) ]) ]
    /\ answer <> ""
    /\ List.length points <= 5
    /\ Forall (fun point => trim point = point) points.
Proof.
  intros Hc Hf Hne Hp. unfold parseResponse. rewrite Hc.
  destruct items as [| item items]; [discriminate |]. rewrite Hf.
  rewrite parsed_content_candidate, Hp. unfold structured_from_text.
  set (lines := filter _ (map str _)).
  set (bulletPoints := filter is_bullet lines).
  set (keyPoints := match bulletPoints with
                    | [] => []
                    | _ => map (fun point => trim (strip_bullet point)) bulletPoints
                    end).
  set (answer := match bulletPoints with
                 | [] => text
                 | _ => join _ _
                 end).
  set (given := if String.eqb (trim answer) EmptyString then text else trim answer).
  assert (Hgiven : given <> "").
  { unfold given. destruct (String.eqb_spec (trim answer) EmptyString); assumption. }
  exists given, (firstn 5 keyPoints). split; [| split; [exact Hgiven | split]].
  - assert (Ht : negb (String.eqb given "") = true)
      by (apply negb_true_iff; now apply String.eqb_neq).
    clearbody given keyPoints. unfold fill_missing. cbn. rewrite Ht. reflexivity.
  - apply firstn_length_le.
  - apply Forall_forall. intros p Hin.
    assert (Hk : In p keyPoints).
    { rewrite <- (firstn_skipn 5 keyPoints). apply in_or_app. now left. }
    unfold keyPoints in Hk. destruct bulletPoints; [destruct Hk |].
    apply in_map_iff in Hk. destruct Hk as (point & <- & _). apply trim_idempotent.
Qed.

Lemma parseResponse_falls_back_witness :
  exists answer points,
    parseResponse Json.parse model_name reply_with_bullets
    = Return [ ("answer", JStr answer);
               ("sections", JArr []);
               ("keyPoints", JArr (map JStr points));
               ("implications", JStr "Based on the analysis provided above.");
               ("confidence", JStr "medium");
               ("metadata", JObj [ ("model", JStr model_name);
                                   ("requestId", JStr (response_id reply_with_bullets)) ]) ]
    /\ answer <> ""
    /\ List.length points <= 5
    /\ Forall (fun point => trim point = point) points.
Proof.
  apply (parseResponse_falls_back Json.parse model_name reply_with_bullets _ _ eq_refl eq_refl).
  - discriminate.
  - vm_compute. reflexivity.
Defined.

Lemma get_remove_other {V} (k k' : string) (o : obj V) :
  k' <> k -> get k' (remove k o) = get k' o.
Proof.
  intros Hne. unfold remove. induction o as [| [k0 v0] r IH]; simpl; [reflexivity |].
  destruct (String.eqb_spec k k0) as [<- | Hk]; simpl.
  - destruct (String.eqb_spec k' k); [contradiction | exact IH].
  - destruct (String.eqb k' k0); [reflexivity | exact IH].
Qed.

Lemma get_put_other (k k' : string) (v : value) (o : obj json) :
  k' <> k -> get k' (put k v o) = get k' o.
Proof.
  intros Hne. unfold put. destruct v; [now apply get_set_other | now apply get_remove_other].
Qed.

Lemma truthy_or_default (v : value) (default : json) :
  truthy (Some default) = true -> truthy (Some (or_default v default)) = true.
Proof.
  intros H. unfold or_default. destruct v as [j |]; [| exact H].
  destruct (truthy (Some j)) eqn:E; [exact E | exact H].
Qed.

Lemma or_default_truthy (v : value) (default : json) :
  truthy v = true -> Some (or_default v default) = v.
Proof. unfold or_default. destruct v as [j |]; [| discriminate]. now intros ->. Qed.

(** X23.  Whatever [parseResponse] returns for a
    reply with a non-empty text, [formatResponse] makes of it a response
    marked as a success in which the answer, the sections, the key points,
    the implications and the confidence are all present and truthy, the
    four that [parseResponse] guarantees being passed on unchanged, and
    whose metadata name the model, the class of the query and the
    processing method. *)
Theorem formatted_reply_is_complete (JSON_parse : string -> option json) (model : string)
    (r : response) (items : list block) (text : string) (out : obj json)
    (relevantSections : json) (originalQuery : value) :
  LLMService.content r = Some items ->
  find is_text items = Some (TextBlock text) ->
  text <> "" ->
  parseResponse JSON_parse model r = Return out ->
  let formatted := formatResponse out relevantSections originalQuery in
  get "success" formatted = Some (JBool true)
  /\ (forall field, In field answer_fields -> truthy (get field formatted) = true)
  /\ (forall field, In field requiredFields -> get field formatted = get field out)
  /\ exists metadata,
       get "metadata" formatted = Some (JObj metadata)
       /\ get "model" metadata = Some (JStr model)
       /\ get "queryType" metadata = Some (JStr (classifyQuery originalQuery))
       /\ get "processingMethod" metadata = Some (JStr "llm_with_mcp").
Proof.
  intros Hc Hf Hne Hp formatted.
  pose proof (parseResponse_required_fields JSON_parse model r items text out Hc Hf Hne Hp)
    as Hreq.
  assert (Ha : truthy (get "answer" out) = true) by (apply Hreq; simpl; tauto).
  assert (Hs : truthy (get "sections" out) = true) by (apply Hreq; simpl; tauto).
  assert (Hk : truthy (get "keyPoints" out) = true) by (apply Hreq; simpl; tauto).
  assert (Hi : truthy (get "implications" out) = true) by (apply Hreq; simpl; tauto).
  assert (Hmeta : get "metadata" out
                  = Some (JObj [ ("model", JStr model); ("requestId", JStr (response_id r)) ])).
  { unfold parseResponse in Hp. rewrite Hc in Hp.
    destruct items as [| item items]; [discriminate |]. rewrite Hf in Hp.
    destruct (parsed_content JSON_parse text); [| discriminate].
    injection Hp as <-. apply get_set_same. }
  unfold formatted, formatResponse.
  destruct (get "answer" out) as [a |] eqn:Ga; [| discriminate].
  cbn [field app].
  split; [reflexivity |]. split; [| split].
  - intros field Hin. unfold answer_fields in Hin. simpl in Hin.
    destruct Hin as [<- | [<- | [<- | [<- | [<- | []]]]]]; cbn.
    + exact Ha.
    + now apply truthy_or_default.
    + now apply truthy_or_default.
    + change (truthy (Some (or_default (get "implications" out) (JStr ""))) = true).
      now rewrite (or_default_truthy _ _ Hi).
    + now apply truthy_or_default.
  - intros field Hin. simpl in Hin.
    destruct Hin as [<- | [<- | [<- | [<- | []]]]]; cbn.
    + now rewrite Ga.
    + now apply or_default_truthy.
    + now apply or_default_truthy.
    + now apply or_default_truthy.
  - eexists. split.
    + destruct originalQuery; cbn; reflexivity.
    + rewrite Hmeta. cbn [spread].
      repeat split.
      * rewrite !get_set_other, get_put_other by discriminate. reflexivity.
      * rewrite get_set_other by discriminate. apply get_set_same.
      * apply get_set_same.
Qed.

Lemma formatted_reply_is_complete_witness :
  exists out,
    parseResponse Json.parse model_name reply_without_confidence = Return out
    /\ get "confidence" out = None
    /\ truthy (get "confidence"
                 (formatResponse out (JArr []) (Some (JStr "farm subsidies")))) = true.
Proof.
  destruct (parseResponse Json.parse model_name reply_without_confidence) as [out | e] eqn:H;
    [| vm_compute in H; discriminate].
  exists out. split; [reflexivity |]. split.
  - vm_compute in H. injection H as <-. reflexivity.
  - apply (formatted_reply_is_complete Json.parse model_name reply_without_confidence
             _ _ out (JArr []) (Some (JStr "farm subsidies")) eq_refl eq_refl
             ltac:(discriminate) H).
    simpl. tauto.
Defined.

(** ** The class of a query *)

Lemma split_nonword_nonempty (l : list ascii) : split_nonword l <> [].
Proof.
  induction l as [| c r IH]; simpl; [discriminate |].
  destruct (is_word c).
  - destruct (split_nonword r); discriminate.
  - destruct r as [| c' r']; [discriminate |]. destruct (is_word c'); [discriminate | exact IH].
Qed.

(** The first piece of a split is the longest run of word characters in
    front of the text. *)
Lemma split_nonword_head (l : list ascii) :
  let t := hd [] (split_nonword l) in
  starts_with t l = true
  /\ forallb is_word t = true
  /\ word_at (hd_error (skipn (List.length t) l)) = false.
Proof.
  induction l as [| c r IH]; cbn zeta; [repeat split |].
  cbn [split_nonword]. destruct (is_word c) eqn:E.
  - cbn zeta in IH. destruct (split_nonword r) as [| t ts] eqn:S.
    + now apply split_nonword_nonempty in S.
    + cbn [hd] in *. destruct IH as (H1 & H2 & H3).
      cbn [starts_with forallb List.length skipn]. rewrite Ascii.eqb_refl, E, H1, H2.
      repeat split. exact H3.
  - assert (Hnil : hd [] match r with
                         | [] => [] :: split_nonword r
                         | c' :: _ => if is_word c' then [] :: split_nonword r
                                      else split_nonword r
                         end = []).
    { destruct r as [| c' r']; [reflexivity |].
      destruct (is_word c') eqn:E'; [reflexivity |].
      cbn zeta in IH. destruct IH as (H1 & _ & _).
      destruct (hd [] (split_nonword (c' :: r'))) as [| x t] eqn:Hh; [reflexivity |].
      exfalso.
      (* the head piece starts the text and is made of word characters *)
      pose proof (split_nonword_pieces (c' :: r')) as Hp.
      destruct (split_nonword (c' :: r')) as [| p ps] eqn:S; [discriminate |].
      cbn [hd] in Hh. subst p. inversion Hp as [| ? ? Hx _]; subst.
      cbn [starts_with] in H1. apply andb_true_iff in H1. destruct H1 as [H1 _].
      apply Ascii.eqb_eq in H1. subst x.
      destruct (Hx c' (or_introl eq_refl)) as [_ Hw]. congruence. }
    rewrite Hnil. cbn. rewrite E. repeat split.
Qed.

(** A run of word characters in front of a text, up to a character that is
    not one, is determined by the text. *)
Lemma word_prefix_unique (l a b : list ascii) :
  starts_with a l = true -> forallb is_word a = true ->
  word_at (hd_error (skipn (List.length a) l)) = false ->
  starts_with b l = true -> forallb is_word b = true ->
  word_at (hd_error (skipn (List.length b) l)) = false ->
  a = b.
Proof.
  revert a b. induction l as [| c r IH]; intros a b Ha Wa Na Hb Wb Nb.
  - destruct a; [| discriminate]. destruct b; [reflexivity | discriminate].
  - destruct a as [| x a]; destruct b as [| y b]; cbn in *.
    + reflexivity.
    + apply andb_true_iff in Hb. destruct Hb as [Hy _]. apply Ascii.eqb_eq in Hy. subst y.
      apply andb_true_iff in Wb. destruct Wb as [Wy _]. congruence.
    + apply andb_true_iff in Ha. destruct Ha as [Hx _]. apply Ascii.eqb_eq in Hx. subst x.
      apply andb_true_iff in Wa. destruct Wa as [Wx _]. congruence.
    + apply andb_true_iff in Ha, Hb, Wa, Wb.
      destruct Ha as [Hx Ha], Hb as [Hy Hb], Wa as [_ Wa], Wb as [_ Wb].
      apply Ascii.eqb_eq in Hx, Hy. subst x y. f_equal. now apply IH.
Qed.

Lemma last_word (w : list ascii) (prev : option ascii) :
  w <> [] -> forallb is_word w = true ->
  word_at (match rev w with c :: _ => Some c | [] => prev end) = true.
Proof.
  intros Hne Hw. destruct (rev w) as [| c r] eqn:E.
  - apply (f_equal (@rev ascii)) in E. rewrite rev_involutive in E. contradiction.
  - cbn. rewrite forallb_forall in Hw. apply Hw, in_rev. rewrite E. now left.
Qed.

Section Pieces.
Variable alts : list (list ascii).

(** The pieces of a text are whole words of it. *)
Lemma piece_is_whole_word (l : list ascii) :
  forall prev p,
    p <> [] -> In p alts ->
    (word_at prev = false -> In p (split_nonword l) -> whole_word_from alts prev l = true)
    /\ (In p (tl (split_nonword l)) -> whole_word_from alts prev l = true).
Proof.
  induction l as [| c r IH]; intros prev p Hne Halt.
  - cbn. split; [intros _ [<- | []]; contradiction | intros []].
  - pose proof (split_nonword_head (c :: r)) as Hhead. cbn zeta in Hhead.
    cbn [split_nonword whole_word_from] in *.
    destruct (IH (Some c) p Hne Halt) as [IHa IHb].
    destruct (is_word c) eqn:E.
    + destruct (split_nonword r) as [| t ts] eqn:S; [now apply split_nonword_nonempty in S |].
      cbn [tl hd] in *. split.
      * intros Hprev [<- | Hin].
        -- apply orb_true_iff. left. apply existsb_exists. exists (c :: t).
           split; [exact Halt |]. destruct Hhead as (H1 & H2 & H3).
           unfold whole_word_here, boundary. rewrite H1, H3, Hprev.
           rewrite (last_word (c :: t) prev Hne H2). cbn. now rewrite E.
        -- apply orb_true_iff. right. now apply IHb.
      * intros Hin. apply orb_true_iff. right. now apply IHb.
    + assert (Hrest : In p (split_nonword r) -> whole_word_from alts (Some c) r = true).
      { apply IHa. cbn. exact E. }
      destruct r as [| c' r']; [| destruct (is_word c') eqn:E'].
      * cbn. split; [intros _ [<- | [<- | []]]; contradiction | intros [<- | []]; contradiction].
      * cbn [tl]. split.
        -- intros _ [<- | Hin]; [contradiction |]. apply orb_true_iff. right. now apply Hrest.
        -- intros Hin. apply orb_true_iff. right. now apply Hrest.
      * split.
        -- intros _ Hin. apply orb_true_iff. right. now apply Hrest.
        -- intros Hin. apply orb_true_iff. right. apply Hrest.
           destruct (split_nonword (c' :: r')); [destruct Hin | now right].
Qed.

(** The whole words of a text that are made of word characters are pieces
    of it. *)
Lemma whole_word_is_piece (l : list ascii) :
  Forall (fun w => w <> [] /\ forallb is_word w = true) alts ->
  forall prev,
    whole_word_from alts prev l = true ->
    exists p, In p alts
              /\ if word_at prev then In p (tl (split_nonword l))
                 else In p (split_nonword l).
Proof.
  intros Halts. induction l as [| c r IH]; intros prev H.
  - cbn in H. rewrite orb_false_r in H. apply existsb_exists in H.
    destruct H as (w & Hw & Hhere). rewrite Forall_forall in Halts.
    destruct (Halts w Hw) as [Hne _]. unfold whole_word_here in Hhere.
    destruct w; [contradiction |]. cbn in Hhere. rewrite andb_false_r in Hhere. discriminate.
  - pose proof (split_nonword_head (c :: r)) as Hhead. cbn zeta in Hhead.
    cbn [whole_word_from] in H. apply orb_true_iff in H. destruct H as [H | H].
    + apply existsb_exists in H. destruct H as (w & Hw & Hhere).
      rewrite Forall_forall in Halts. destruct (Halts w Hw) as [Hne Hword].
      unfold whole_word_here, boundary in Hhere.
      rewrite !andb_true_iff in Hhere. destruct Hhere as [[Hb Hs] He].
      rewrite (last_word w prev Hne Hword) in He. cbn [xorb] in He.
      apply negb_true_iff in He.
      destruct w as [| x w]; [contradiction |].
      assert (Hx : x = c).
      { cbn in Hs. apply andb_true_iff in Hs. destruct Hs as [Hs _].
        now apply Ascii.eqb_eq in Hs. }
      subst x.
      assert (Hc : is_word c = true).
      { cbn in Hword. apply andb_true_iff in Hword. tauto. }
      cbn [hd_error word_at] in Hb. rewrite Hc in Hb.
      destruct (word_at prev); [discriminate |].
      exists (c :: w). split; [exact Hw |].
      destruct Hhead as (H1 & H2 & H3).
      assert (Heq : c :: w = hd [] (split_nonword (c :: r)))
        by (apply (word_prefix_unique (c :: r)); assumption).
      rewrite Heq. destruct (split_nonword (c :: r)) eqn:S;
        [now apply split_nonword_nonempty in S | now left].
    + destruct (IH (Some c) H) as (p & Hp & Hin). exists p. split; [exact Hp |].
      rewrite Forall_forall in Halts. destruct (Halts p Hp) as [Hne _].
      cbn [split_nonword word_at] in *. destruct (is_word c) eqn:E.
      * destruct (split_nonword r) as [| t ts]; [destruct Hin |]. cbn [tl] in *.
        destruct (word_at prev); [exact Hin | now right].
      * assert (Hin' : In p match r with
                              | [] => [] :: split_nonword r
                              | c' :: _ => if is_word c' then [] :: split_nonword r
                                           else split_nonword r
                              end /\
                       (match r with
                        | [] => True
                        | c' :: _ => if is_word c' then True
                                     else In p (tl (split_nonword r))
                        end)).
        { destruct r as [| c' r']; [split; [now right | exact I] |].
          destruct (is_word c') eqn:E'; [split; [now right | exact I] |].
          split; [exact Hin |].
          pose proof (split_nonword_head (c' :: r')) as Hh. cbn zeta in Hh.
          destruct (split_nonword (c' :: r')) as [| t ts]; [destruct Hin |].
          cbn [hd tl] in *. destruct Hin as [Heq | Hin]; [| exact Hin]. subst t.
          destruct Hh as (H1 & H2 & _). destruct p as [| x p]; [contradiction |].
          cbn in H1, H2. apply andb_true_iff in H1, H2.
          destruct H1 as [H1 _], H2 as [H2 _]. apply Ascii.eqb_eq in H1. subst x.
          congruence. }
        destruct Hin' as [Hall Htl]. destruct (word_at prev); [| exact Hall].
        destruct r as [| c' r']; [exact Hin |].
        destruct (is_word c'); [exact Hin | exact Htl].
Qed.
End Pieces.

Lemma kept_word_spec (w : string) :
  kept_word w = true ->
  chars w <> []
  /\ forallb is_word (chars w) = true
  /\ (2 <? String.length w) && negb (includes w stopWords) = true
  /\ negb (purely_numeric w) = true.
Proof.
  unfold kept_word. rewrite !andb_true_iff. intros [[[H1 H2] H3] H4].
  split; [| split; [exact H4 | split; [now rewrite H1, H2 | exact H3]]].
  intros E. apply Nat.ltb_lt in H1. rewrite <- length_chars, E in H1. simpl in H1. lia.
Qed.

(** A pattern of kept words matches the normal form of a query exactly
    when one of the words is a token of the query. *)
Lemma has_whole_word_tokens (alts : list string) (query : value) :
  forallb kept_word alts = true ->
  (has_whole_word alts (normalizeText query) = true
   <-> exists k, In k alts /\ In k (extractKeywords query)).
Proof.
  intros Halts. rewrite forallb_forall in Halts. unfold has_whole_word. split.
  - intros H. apply whole_word_is_piece in H.
    + destruct H as (p & Hp & Hin). cbn [word_at] in Hin.
      apply in_map_iff in Hp. destruct Hp as (k & <- & Hk).
      exists k. split; [exact Hk |].
      destruct (kept_word_spec k (Halts k Hk)) as (Hne & _ & Hlen & Hnum).
      unfold extractKeywords. destruct (as_string query) eqn:E.
      * apply filter_In. split; [| exact Hnum]. apply filter_In. split; [| exact Hlen].
        apply in_map_iff. exists (chars k). split; [apply str_chars | exact Hin].
      * unfold normalizeText in Hin. rewrite E in Hin. cbn in Hin.
        destruct Hin as [Hin | []]. now symmetry in Hin.
    + apply Forall_forall. intros w Hw. apply in_map_iff in Hw.
      destruct Hw as (k & <- & Hk). destruct (kept_word_spec k (Halts k Hk)). tauto.
  - intros (k & Hk & Hin).
    destruct (kept_word_spec k (Halts k Hk)) as (Hne & _).
    unfold extractKeywords in Hin. destruct (as_string query); [| destruct Hin].
    apply filter_In in Hin. destruct Hin as [Hin _].
    apply filter_In in Hin. destruct Hin as [Hin _].
    apply in_map_iff in Hin. destruct Hin as (p & Hp & Hin).
    assert (Ep : p = chars k) by (rewrite <- Hp; symmetry; apply chars_str).
    subst p.
    apply (proj1 (piece_is_whole_word (map chars alts) _ None (chars k) Hne
                    (in_map chars _ _ Hk)));
      [reflexivity | exact Hin].
Qed.

(** X24.  A query is classified [tax_related]
    exactly when one of its search tokens is [tax], [taxes], [taxation],
    [income], [deduction] or [credit], whatever else it contains and
    whatever its letter case and spacing. *)
Theorem classifyQuery_tax_related (query : value) :
  classifyQuery query = "tax_related"
  <-> exists k, In k tax_words /\ In k (extractKeywords query).
Proof.
  rewrite <- (has_whole_word_tokens tax_words query eq_refl).
  unfold classifyQuery, tax_words.
  destruct (has_whole_word ["tax"; "taxes"; "taxation"; "income"; "deduction"; "credit"]
              (normalizeText query)); [tauto |].
  split; [| discriminate].
  repeat match goal with
         | |- context [if ?b then _ else _] => destruct b
         end; discriminate.
Qed.

(** ** The handlers of the API and of the MCP server *)

(** X25.  The handler of [POST /api/query] hands a query
    to [processQuery], and answers 200 with its response, exactly when the
    query is a string that is not blank and has at most 1000 characters;
    it answers 400 when the query is missing, falsy, blank or longer, and
    500 when the request has no body or the query is a truthy value that
    is not a string. *)
Theorem post_query_status (processQuery : string -> value -> json) (b : json) :
  b <> JNull ->
  (forall q, Routes.property "query" b = Some (JStr q) -> acceptable q ->
     Routes.post_query processQuery (Some b)
     = {| Routes.status := 200; Routes.body := processQuery q (options_of b) |})
  /\ (forall q, Routes.property "query" b = Some (JStr q) -> ~ acceptable q ->
        Routes.status (Routes.post_query processQuery (Some b)) = 400)
  /\ (truthy (Routes.property "query" b) = false ->
      Routes.status (Routes.post_query processQuery (Some b)) = 400)
  /\ (truthy (Routes.property "query" b) = true ->
      (forall q, Routes.property "query" b <> Some (JStr q)) ->
      Routes.post_query processQuery (Some b) = Routes.internal_error)
  /\ Routes.post_query processQuery None = Routes.internal_error
  /\ Routes.post_query processQuery (Some JNull) = Routes.internal_error.
Proof.
  intros Hb.
  assert (Hbody : Routes.post_query processQuery (Some b)
                  = match validateQuery (Routes.property "query" b) with
                    | Throw _ => Routes.internal_error
                    | Return validation =>
                        if negb (valid validation)
                        then Routes.invalid_query (errors validation)
                        else match Routes.property "query" b with
                             | Some (JStr q) =>
                                 {| Routes.status := 200;
                                    Routes.body := processQuery q (options_of b) |}
                             | _ => Routes.internal_error
                             end
                    end).
  { destruct b; try reflexivity. contradiction. }
  rewrite Hbody. clear Hbody. repeat split.
  - intros q Hq Hacc. rewrite Hq.
    destruct (validateQuery_string q) as (v & -> & Hv & _).
    apply Hv in Hacc. now rewrite Hacc.
  - intros q Hq Hacc. rewrite Hq.
    destruct (validateQuery_string q) as (v & -> & Hv & _).
    destruct (valid v); [| reflexivity]. destruct Hacc. now apply Hv.
  - intros Hf. destruct (validateQuery_falsy _ Hf) as (v & -> & -> & _). reflexivity.
  - intros Ht Hs.
    destruct (Routes.property "query" b) as [j |] eqn:E; [| discriminate Ht].
    destruct j; cbn in Ht; try discriminate Ht;
      try (exfalso; eapply Hs; reflexivity); cbn; try rewrite Ht; reflexivity.
Qed.

Lemma post_query_status_witness :
  Routes.post_query (fun q _ => JStr q) (Some (JObj [("query", JStr "farm subsidies")]))
  = {| Routes.status := 200; Routes.body := JStr "farm subsidies" |}
  /\ Routes.post_query (fun q _ => JStr q) (Some (JObj [("query", JNum 123)]))
     = Routes.internal_error.
Proof.
  split.
  - apply (proj1 (post_query_status (fun q _ => JStr q)
                    (JObj [("query", JStr "farm subsidies")]) ltac:(discriminate)));
      [reflexivity | split; [discriminate | simpl; lia]].
  - apply (proj1 (proj2 (proj2 (proj2 (post_query_status (fun q _ => JStr q)
                    (JObj [("query", JNum 123)]) ltac:(discriminate))))));
      [reflexivity | discriminate].
Defined.

Lemma validateQuery_valid_string (q : value) (v : validation) :
  validateQuery q = Return v -> valid v = true -> exists s, q = Some (JStr s).
Proof.
  intros Hv Hvalid. destruct (truthy q) eqn:Ht.
  - destruct q as [[| b | n | s | l | o] |]; try (now exists s);
      unfold validateQuery in Hv; rewrite Ht in Hv; discriminate.
  - destruct (validateQuery_falsy q Ht) as (v' & Hv' & Hf & _). congruence.
Qed.

(** X26.  The two POST handlers agree on every
    request: [/api/validate] reports [valid: true] exactly when
    [/api/query] answers 200, it reports [valid: false] exactly when
    [/api/query] answers 400, and then the details of that answer are the
    errors it lists; it answers 500 exactly when [/api/query] does. *)
Theorem validate_agrees_with_query
    (processQuery : string -> value -> json) (requestBody : value) :
  (Routes.property "valid" (Routes.body (Routes.post_validate requestBody))
   = Some (JBool true)
   <-> Routes.status (Routes.post_query processQuery requestBody) = 200)
  /\ (Routes.property "valid" (Routes.body (Routes.post_validate requestBody))
      = Some (JBool false)
      <-> Routes.status (Routes.post_query processQuery requestBody) = 400)
  /\ (Routes.status (Routes.post_validate requestBody) = 500
      <-> Routes.status (Routes.post_query processQuery requestBody) = 500)
  /\ (Routes.status (Routes.post_query processQuery requestBody) = 400 ->
      exists details,
        Routes.post_query processQuery requestBody = Routes.invalid_query details
        /\ Routes.property "errors" (Routes.body (Routes.post_validate requestBody))
           = Some (JArr (map JStr details))).
Proof.
  assert (Hnone : forall r, r = None \/ r = Some JNull ->
            Routes.post_validate r = Routes.validation_failed
            /\ Routes.post_query processQuery r = Routes.internal_error).
  { intros r [-> | ->]; split; reflexivity. }
  assert (Hsome : forall b, b <> JNull ->
            Routes.post_validate (Some b)
            = match validateQuery (Routes.property "query" b) with
              | Throw _ => Routes.validation_failed
              | Return validation =>
                  {| Routes.status := 200;
                     Routes.body := JObj [ ("success", JBool true);
                                           ("valid", JBool (valid validation));
                                           ("errors", JArr (map JStr (errors validation))) ] |}
              end
            /\ Routes.post_query processQuery (Some b)
               = match validateQuery (Routes.property "query" b) with
                 | Throw _ => Routes.internal_error
                 | Return validation =>
                     if negb (valid validation)
                     then Routes.invalid_query (errors validation)
                     else match Routes.property "query" b with
                          | Some (JStr q) =>
                              {| Routes.status := 200;
                                 Routes.body := processQuery q (options_of b) |}
                          | _ => Routes.internal_error
                          end
                 end).
  { intros b Hb. destruct b; try (split; reflexivity). contradiction. }
  assert (Hcases : requestBody = None \/ requestBody = Some JNull
                   \/ exists b, b <> JNull /\ requestBody = Some b).
  { destruct requestBody as [b |]; [| now left]. right.
    destruct b; try (now left); right; eexists; (split; [| reflexivity]); discriminate. }
  destruct Hcases as [H | [H | (b & Hb & ->)]].
  - destruct (Hnone requestBody (or_introl H)) as [-> ->]. cbn.
    repeat split; try discriminate; reflexivity.
  - destruct (Hnone requestBody (or_intror H)) as [-> ->]. cbn.
    repeat split; try discriminate; reflexivity.
  - destruct (Hsome b Hb) as [-> ->].
    destruct (validateQuery (Routes.property "query" b)) as [v | e] eqn:Ev.
    + destruct (valid v) eqn:Hvalid; cbn [negb].
      * destruct (validateQuery_valid_string _ _ Ev Hvalid) as (s & ->). cbn.
        repeat split; try discriminate; reflexivity.
      * cbn. repeat split; try discriminate; try reflexivity.
        intros _. exists (errors v). split; reflexivity.
    + cbn. repeat split; try discriminate; reflexivity.
Qed.

(** X27.  The handlers of the MCP server check their
    argument before they read the document: [search_sections] and
    [get_section_by_id] fail with their own error on an argument that is
    missing, empty or not a string, whatever the state of the parser; and
    on a string query [search_sections] returns one entry per section
    that the search finds under the limit that the caller gives (5 when
    none is given, with no cap), each with the full text as content. *)
Theorem mcp_handlers_validate (this : parser) (args : tool_input) :
  ((forall q, query args = Some (JStr q) -> q = "") ->
   McpServer.searchSections this args
   = Throw (Error "Query parameter is required and must be a string"))
  /\ ((forall i, sectionId args = Some (JStr i) -> i = "") ->
      McpServer.getSectionById this args
      = Throw (Error "sectionId parameter is required and must be a string"))
  /\ (forall payload,
        McpServer.searchSections this args = Return payload ->
        exists found results,
          searchSections this (query args) (McpServer.requested args) = Return found
          /\ results_of payload = Some results
          /\ map (string_property "content") results
             = map (fun r => option_map fullText (ranked_section r)) found).
Proof.
  repeat split.
  - intros H. unfold McpServer.searchSections.
    destruct (query args) as [[| | | q | |] |]; try reflexivity.
    now rewrite (H q eq_refl).
  - intros H. unfold McpServer.getSectionById.
    destruct (sectionId args) as [[| | | i | |] |]; try reflexivity.
    now rewrite (H i eq_refl).
  - intros payload. unfold McpServer.searchSections.
    destruct (query args) as [[| | | q | |] |]; try discriminate.
    destruct (String.eqb q ""); [discriminate |].
    destruct (McpServer.DP.getDocumentData this); [| discriminate]. cbn [Js.bind].
    destruct (McpServer.DP.searchSections _ _ _) as [found |] eqn:Hs; [| discriminate].
    cbn [Js.bind].
    destruct (mapM _ found) as [results |] eqn:Hm; [| discriminate]. cbn [Js.bind].
    intros [= <-]. exists found, results. split; [reflexivity |]. split; [reflexivity |].
    clear Hs. revert results Hm. induction found as [| r found IH]; intros results; cbn.
    + intros [= <-]. reflexivity.
    + unfold McpServer.result_entry at 1, ranked_section at 1.
      destruct (McpServer.DP.ranked_value r) as [s | t | |] eqn:Er; try discriminate;
        cbn [Js.bind]; (destruct (mapM _ found) as [rest |]; [| discriminate]);
        cbn [Js.bind]; intros [= <-]; cbn [map]; rewrite (IH rest eq_refl); reflexivity.
Qed.

Lemma mcp_handlers_validate_witness :
  McpServer.searchSections Sample.library Sample.no_input
  = Throw (Error "Query parameter is required and must be a string")
  /\ McpServer.getSectionById Sample.library Sample.no_input
     = Throw (Error "sectionId parameter is required and must be a string").
Proof.
  destruct (mcp_handlers_validate Sample.library Sample.no_input) as (H1 & H2 & _).
  split; [apply H1 | apply H2]; discriminate.
Defined.

(** ** Cache keys *)

(** X28.  The cache key of a query is the key of
    its normal form: normalizing a query before it is handed to the cache,
    as [processQuery] does, does not change the key, and two queries with
    the same normal form share their key.  Every query whose normal form
    is empty has the key [query:]. *)
Theorem generateKey_of_normal_form (query : value) :
  CacheService.generateKey (Some (JStr (normalizeText query)))
  = CacheService.generateKey query
  /\ (forall other, normalizeText other = normalizeText query ->
        CacheService.generateKey other = CacheService.generateKey query)
  /\ (normalizeText query = "" -> CacheService.generateKey query = "query:").
Proof.
  unfold CacheService.generateKey. repeat split.
  - now rewrite (normalizeText_fixed _ (normalizeText_shape_all query)).
  - now intros other ->.
  - now intros ->.
Qed.

Lemma generateKey_of_normal_form_witness :
  CacheService.generateKey (Some (JStr "  How WILL this   affect farms? "))
  = CacheService.generateKey (Some (JStr "how will this affect farms?"))
  /\ CacheService.generateKey (Some (JStr "   ")) = "query:".
Proof.
  destruct (generateKey_of_normal_form (Some (JStr "how will this affect farms?")))
    as (_ & H & _).
  destruct (generateKey_of_normal_form (Some (JStr "   "))) as (_ & _ & H').
  split; [apply H | apply H']; reflexivity.
Defined.
